(** * FP / warning bot (src/bot.py): ledger, schema migration, role sync, abuse gate

    A shallow embedding of the storage functions, the warning-schema
    migration, the role synchroniser and the permission check of
    [src/bot.py], followed by the properties proved about them.

    Modelling conventions.
    - Python [int] values (scores, user ids, row ids) are unbounded [Z].
      A score bound to the INSERT of [set_fp] must fit in a signed 64-bit
      integer: outside that range [con.execute] raises [OverflowError]
      before the statement runs.  User ids are the platform's member ids
      and row ids come from the storage engine; both are in that range.
    - Timestamps returned by [time.time()] are exact rationals [Q].
    - A [sqlite3] connection follows the module's default transaction
      control: a transaction is opened implicitly before INSERT / UPDATE /
      DELETE, never before CREATE / DROP / ALTER, which are made durable at
      once when no transaction is open; [commit] makes the pending changes
      durable; a connection dropped without [commit] loses them.
    - A call to the chat platform that changes a member's roles is
      performed, refused ([discord.Forbidden]) or fails in another way
      ([discord.NotFound] and the other [discord.HTTPException]s);
      [remove_roles] and [add_roles] treat their roles one after the other
      and stop at the first request that is not performed.
    - Role names are Python [str] values, kept as their UTF-8 bytes; the
      pattern [^\d+\s*FP$] is matched on the decoded code points, with the
      Unicode-aware [\d] and [\s] of a [str] pattern. *)

From Stdlib Require Import ZArith QArith List String Ascii Bool Lia Lqa DecimalString Sorted.
From stdpp Require Import base gmap list strings.
Import ListNotations.
Open Scope Z_scope.

(* ------------------------------------------------------------------ *)
(** ** Exceptions and the state-and-exception monad *)

Inductive error : Type :=
| OperationalError   (* no such table / no such column / table already exists *)
| IntegrityError     (* NOT NULL constraint failed *)
| OverflowError      (* Python int too large to convert to SQLite INTEGER *)
| Forbidden          (* discord.Forbidden: the platform refused the call *)
| HTTPException.     (* discord.NotFound and the other failed requests *)

Inductive result (A : Type) : Type :=
| Ok (a : A)
| Raise (e : error).
Arguments Ok {A} a.
Arguments Raise {A} e.

(** A computation over a state [S] that returns a value or raises; the
    state reached when the exception was raised is kept. *)
Definition M (S A : Type) : Type := S -> result A * S.

Definition ret {S A} (a : A) : M S A := fun s => (Ok a, s).

Definition raise {S A} (e : error) : M S A := fun s => (Raise e, s).

Definition bind {S A B} (m : M S A) (k : A -> M S B) : M S B :=
  fun s => match m s with
           | (Ok a, s') => k a s'
           | (Raise e, s') => (Raise e, s')
           end.

Notation "'let*' x ':=' m 'in' k" := (bind m (fun x => k))
  (at level 10, x pattern, m at level 100, k at level 200).
Notation "m '>>' k" := (bind m (fun _ => k))
  (at level 100, k at level 200, right associativity).

(** [for x in xs: body x] *)
Fixpoint for_each {S A} (xs : list A) (body : A -> M S unit) : M S unit :=
  match xs with
  | [] => ret tt
  | x :: xs' => body x >> for_each xs' body
  end.

(** [for _ in range(n): body] *)
Fixpoint repeat_times {S} (n : nat) (body : M S unit) : M S unit :=
  match n with
  | O => ret tt
  | S n' => body >> repeat_times n' body
  end.

(** [try: m  except Exception: (handled by the caller)] *)
Definition try_ {S A} (m : M S A) : M S (option A) :=
  fun s => match m s with
           | (Ok a, s') => (Ok (Some a), s')
           | (Raise _, s') => (Ok None, s')
           end.

(* ------------------------------------------------------------------ *)
(** ** Tables *)

(** A column of the warnings table as declared by a CREATE TABLE. *)
Record column : Type := Column {
  c_name : string;
  c_notnull : bool;   (* NOT NULL *)
  c_autoinc : bool    (* INTEGER PRIMARY KEY AUTOINCREMENT *)
}.

(** A row of a warnings table, current or legacy.  [w_id] is the rowid;
    a field whose column the table does not have is [None]. *)
Record wrow : Type := WRow {
  w_id : Z;
  w_user : Z;
  w_warnings : option Z;
  w_reason : option string;
  w_date : option string
}.

(** [wt_rows] is the table in the order a full scan returns it; [wt_seq]
    is the largest rowid ever handed out (the sqlite_sequence entry). *)
Record wtable : Type := WTable {
  wt_cols : list column;
  wt_rows : list wrow;
  wt_seq : Z
}.

(** The database file: [user_fp] (created by every [db()] call, so a missing
    table and an empty one are the same), [user_warnings] and the
    migration's scratch table [_uw_new], the last two possibly absent. *)
Record store : Type := Store {
  user_fp : gmap Z Z;
  user_warnings : option wtable;
  _uw_new : option wtable
}.

Definition set_user_fp (m : gmap Z Z) (s : store) : store :=
  {| user_fp := m; user_warnings := user_warnings s; _uw_new := _uw_new s |}.

Definition set_user_warnings (t : option wtable) (s : store) : store :=
  {| user_fp := user_fp s; user_warnings := t; _uw_new := _uw_new s |}.

Definition set_uw_new (t : option wtable) (s : store) : store :=
  {| user_fp := user_fp s; user_warnings := user_warnings s; _uw_new := t |}.

(** The column lists of the three CREATE TABLE statements of the source. *)
Definition minimal_columns : list column :=
  [ Column "id" false true; Column "user_id" true false ].

Definition current_columns : list column :=
  [ Column "id" false true; Column "user_id" true false;
    Column "reason" true false; Column "date" true false ].

Definition empty_table (cols : list column) : wtable :=
  {| wt_cols := cols; wt_rows := []; wt_seq := 0 |}.

(** [{row[1] for row in PRAGMA table_info(t)}]; empty for a missing table. *)
Definition table_info (t : option wtable) : gset string :=
  match t with
  | Some t => list_to_set (map c_name (wt_cols t))
  | None => ∅
  end.

Definition has_col (name : string) (t : wtable) : bool :=
  bool_decide (name ∈ table_info (Some t)).

Definition largest_rowid (rows : list wrow) : option Z :=
  match rows with
  | [] => None
  | r :: rs => Some (fold_left Z.max (map w_id rs) (w_id r))
  end.

(** The rowid of the next inserted row: one more than the largest rowid in
    the table, and with AUTOINCREMENT also more than any rowid ever used. *)
Definition next_rowid (t : wtable) : Z :=
  let autoinc := existsb c_autoinc (wt_cols t) in
  match largest_rowid (wt_rows t) with
  | None => (if autoinc then Z.max (wt_seq t) 0 else 0) + 1
  | Some m => (if autoinc then Z.max (wt_seq t) m else m) + 1
  end.

(** [INSERT INTO t (user_id, reason, date) VALUES (?, ?, ?)] *)
Definition insert_into (t : wtable) (user : Z) (reason date : string) : result wtable :=
  if negb (has_col "user_id" t && has_col "reason" t && has_col "date" t)
  then Raise OperationalError
  else if negb (forallb (fun c =>
                  c_autoinc c || negb (c_notnull c) ||
                  bool_decide (c_name c ∈ ({["user_id"; "reason"; "date"]} : gset string)))
                (wt_cols t))
  then Raise IntegrityError
  else
    let id := next_rowid t in
    Ok {| wt_cols := wt_cols t;
          wt_rows := wt_rows t ++ [WRow id user None (Some reason) (Some date)];
          wt_seq := id |}.

(** Whether [INSERT INTO t (user_id, reason, date)] is accepted: the three
    columns exist and every other column is the rowid or may be NULL. *)
Definition accepts_warnings (t : wtable) : bool :=
  has_col "user_id" t && has_col "reason" t && has_col "date" t &&
  forallb (fun c =>
             c_autoinc c || negb (c_notnull c) ||
             bool_decide (c_name c ∈ ({["user_id"; "reason"; "date"]} : gset string)))
          (wt_cols t).

Fixpoint insert_sorted (r : wrow) (l : list wrow) : list wrow :=
  match l with
  | [] => [r]
  | x :: l' => if w_id r <=? w_id x then r :: x :: l' else x :: insert_sorted r l'
  end.

(** [ORDER BY id ASC] *)
Definition order_by_id (l : list wrow) : list wrow :=
  fold_right insert_sorted [] l.

(** The order of [ORDER BY id ASC]. *)
Definition id_le (a b : wrow) : Prop := w_id a <= w_id b.

(** [WHERE user_id = ?] *)
Definition where_user (user : Z) (rows : list wrow) : list wrow :=
  List.filter (fun r => w_user r =? user) rows.

(* ------------------------------------------------------------------ *)
(** ** SQL statements of the source, as functions on the store *)

(** [CREATE TABLE IF NOT EXISTS user_fp(...)] *)
Definition create_user_fp (s : store) : result store := Ok s.

(** [CREATE TABLE IF NOT EXISTS user_warnings(cols)] *)
Definition create_user_warnings (cols : list column) (s : store) : result store :=
  match user_warnings s with
  | Some _ => Ok s
  | None => Ok (set_user_warnings (Some (empty_table cols)) s)
  end.

(** [CREATE TABLE IF NOT EXISTS _uw_new(...)] *)
Definition create_uw_new (s : store) : result store :=
  match _uw_new s with
  | Some _ => Ok s
  | None => Ok (set_uw_new (Some (empty_table current_columns)) s)
  end.

(** [INSERT INTO _uw_new (user_id, reason, date) VALUES (?, ?, ?)] *)
Definition insert_uw_new (user : Z) (reason date : string) (s : store) : result store :=
  match _uw_new s with
  | None => Raise OperationalError
  | Some t => match insert_into t user reason date with
              | Ok t' => Ok (set_uw_new (Some t') s)
              | Raise e => Raise e
              end
  end.

Definition coalesce (v : option string) (d : string) : string :=
  match v with Some x => x | None => d end.

Fixpoint copy_rows (today : string) (src : list wrow) (dst : wtable) : result wtable :=
  match src with
  | [] => Ok dst
  | r :: src' =>
      match insert_into dst (w_user r)
              (coalesce (w_reason r) "Warning administered")
              (coalesce (w_date r) today) with
      | Ok dst' => copy_rows today src' dst'
      | Raise e => Raise e
      end
  end.

(** [INSERT INTO _uw_new (user_id, reason, date)
     SELECT user_id, COALESCE(reason, 'Warning administered'), COALESCE(date, ?)
     FROM user_warnings] *)
Definition insert_select (today : string) (s : store) : result store :=
  match user_warnings s, _uw_new s with
  | Some src, Some dst =>
      if has_col "user_id" src && has_col "reason" src && has_col "date" src
      then match copy_rows today (wt_rows src) dst with
           | Ok dst' => Ok (set_uw_new (Some dst') s)
           | Raise e => Raise e
           end
      else Raise OperationalError
  | _, _ => Raise OperationalError
  end.

(** [SELECT user_id, warnings FROM user_warnings] *)
Definition select_counts (s : store) : result (list (Z * option Z)) :=
  match user_warnings s with
  | Some t =>
      if has_col "user_id" t && has_col "warnings" t
      then Ok (map (fun r => (w_user r, w_warnings r)) (wt_rows t))
      else Raise OperationalError
  | None => Raise OperationalError
  end.

(** [DROP TABLE user_warnings] *)
Definition drop_user_warnings (s : store) : result store :=
  match user_warnings s with
  | Some _ => Ok (set_user_warnings None s)
  | None => Raise OperationalError
  end.

(** [ALTER TABLE _uw_new RENAME TO user_warnings] *)
Definition rename_uw_new (s : store) : result store :=
  match _uw_new s, user_warnings s with
  | Some t, None => Ok (set_uw_new None (set_user_warnings (Some t) s))
  | _, _ => Raise OperationalError
  end.

(** [INSERT INTO user_warnings (user_id, reason, date) VALUES (?, ?, ?)] *)
Definition insert_warning (user : Z) (reason date : string) (s : store) : result store :=
  match user_warnings s with
  | None => Raise OperationalError
  | Some t => match insert_into t user reason date with
              | Ok t' => Ok (set_user_warnings (Some t') s)
              | Raise e => Raise e
              end
  end.

(** [SELECT reason, date FROM user_warnings WHERE user_id=? ORDER BY id ASC] *)
Definition select_warnings (user : Z) (s : store)
  : result (list (option string * option string)) :=
  match user_warnings s with
  | None => Raise OperationalError
  | Some t =>
      if has_col "reason" t && has_col "date" t && has_col "user_id" t && has_col "id" t
      then Ok (map (fun r => (w_reason r, w_date r))
                   (order_by_id (where_user user (wt_rows t))))
      else Raise OperationalError
  end.

(** [SELECT COUNT( * ) FROM user_warnings WHERE user_id=?] *)
Definition count_warnings (user : Z) (s : store) : result nat :=
  match user_warnings s with
  | None => Raise OperationalError
  | Some t => if has_col "user_id" t
              then Ok (length (where_user user (wt_rows t)))
              else Raise OperationalError
  end.

(** [DELETE FROM user_warnings WHERE user_id=?] *)
Definition delete_warnings (user : Z) (s : store) : result store :=
  match user_warnings s with
  | None => Raise OperationalError
  | Some t =>
      if has_col "user_id" t
      then Ok (set_user_warnings
                 (Some {| wt_cols := wt_cols t;
                          wt_rows := List.filter (fun r => negb (w_user r =? user)) (wt_rows t);
                          wt_seq := wt_seq t |}) s)
      else Raise OperationalError
  end.

(** [SELECT id FROM user_warnings WHERE user_id=? ORDER BY id DESC LIMIT 1],
    then [fetchone()] *)
Definition select_last_id (user : Z) (s : store) : result (option Z) :=
  match user_warnings s with
  | None => Raise OperationalError
  | Some t =>
      if has_col "id" t && has_col "user_id" t
      then Ok (hd_error (rev (map w_id (order_by_id (where_user user (wt_rows t))))))
      else Raise OperationalError
  end.

(** [DELETE FROM user_warnings WHERE id=?] *)
Definition delete_by_id (id : Z) (s : store) : result store :=
  match user_warnings s with
  | None => Raise OperationalError
  | Some t =>
      if has_col "id" t
      then Ok (set_user_warnings
                 (Some {| wt_cols := wt_cols t;
                          wt_rows := List.filter (fun r => negb (w_id r =? id)) (wt_rows t);
                          wt_seq := wt_seq t |}) s)
      else Raise OperationalError
  end.

(** [SELECT fp FROM user_fp WHERE user_id=?], then [fetchone()] *)
Definition select_fp (user : Z) (s : store) : result (option Z) :=
  Ok (user_fp s !! user).

(** Whether a Python [int] can be bound as an SQLite INTEGER. *)
Definition fits_int64 (v : Z) : bool :=
  (- 2 ^ 63 <=? v) && (v <? 2 ^ 63).

(** [INSERT INTO user_fp(user_id, fp) VALUES(?, ?)
     ON CONFLICT(user_id) DO UPDATE SET fp=excluded.fp]; binding a score
    outside the 64-bit range raises before anything is written. *)
Definition upsert_fp (user value : Z) (s : store) : result store :=
  if fits_int64 value
  then Ok (set_user_fp (<[user := value]> (user_fp s)) s)
  else Raise OverflowError.

(* ------------------------------------------------------------------ *)
(** ** Connections *)

(** An open [sqlite3] connection: the [durable] content of the file, the
    [working] content this connection sees, whether a transaction is open,
    and the [journal]: the durable content after each statement run so
    far.  A crash or an unhandled exception leaves the file at one of the
    journal's entries (or at the content it had on connecting). *)
Record conn : Type := Conn {
  durable : store;
  working : store;
  in_txn : bool;
  journal : list store
}.

Definition connect (s : store) : conn :=
  {| durable := s; working := s; in_txn := false; journal := [] |}.

(** [con.execute] of CREATE / DROP / ALTER: no transaction is opened; the
    change is durable at once unless a transaction is already open. *)
Definition execute_ddl (stmt : store -> result store) : M conn unit :=
  fun c => match stmt (working c) with
           | Ok w =>
               let d := if in_txn c then durable c else w in
               (Ok tt, {| durable := d; working := w; in_txn := in_txn c;
                          journal := journal c ++ [d] |})
           | Raise e => (Raise e, c)
           end.

(** [con.execute] of INSERT / UPDATE / DELETE: a transaction is opened if
    none is open; the change stays pending until [commit]. *)
Definition execute_dml (stmt : store -> result store) : M conn unit :=
  fun c => match stmt (working c) with
           | Ok w =>
               (Ok tt, {| durable := durable c; working := w; in_txn := true;
                          journal := journal c ++ [durable c] |})
           | Raise e => (Raise e, c)
           end.

(** [con.execute] of SELECT / PRAGMA, with the rows fetched. *)
Definition query {A} (q : store -> result A) : M conn A :=
  fun c => (q (working c), c).

(** [con.commit()] *)
Definition commit : M conn unit :=
  fun c => (Ok tt, {| durable := working c; working := working c; in_txn := false;
                      journal := journal c ++ [working c] |}).

(** [con.close()]: pending changes are dropped. *)
Definition close : M conn unit :=
  fun c => (Ok tt, {| durable := durable c; working := durable c; in_txn := false;
                      journal := journal c |}).

(** Runs a function body on a fresh connection to the file; what the file
    holds afterwards is the durable content, also when the body raised. *)
Definition with_connection {A} (body : M conn A) : M store A :=
  fun s => let '(r, c) := body (connect s) in (r, durable c).

(** The durable contents the file went through while [body] ran. *)
Definition durable_states {A} (body : M conn A) (s : store) : list store :=
  journal (snd (body (connect s))).

(** [db()]: the statement run on every new connection. *)
Definition db : M conn unit := execute_ddl create_user_fp.

(* ------------------------------------------------------------------ *)
(** ** Warning schema upgrade *)

Definition ensure_warning_schema_body : M conn unit :=
  db >>
  execute_ddl (create_user_warnings minimal_columns) >>
  commit >>
  close.

Definition ensure_warning_schema : M store unit :=
  with_connection ensure_warning_schema_body.

(** [int(count or 0)] on a fetched integer or NULL *)
Definition int_or_0 (count : option Z) : Z :=
  match count with
  | Some c => c
  | None => 0
  end.

Definition MIGRATED : string := "Migrated from legacy count".

(** The body of [migrate_user_warnings_table]; [today] is the value of
    [datetime.utcnow().strftime("%Y-%m-%d")]. *)
Definition migrate_body (today : string) : M conn unit :=
  db >>
  let* cols := query (fun s => Ok (table_info (user_warnings s))) in
  if negb (bool_decide ("warnings" ∈ cols)) then
    close
  else
    execute_ddl create_uw_new >>
    (if bool_decide (({["reason"; "date"]} : gset string) ⊆ cols) then
       execute_dml (insert_select today)
     else
       let* rows := query select_counts in
       for_each rows (fun '(user_id, count) =>
         let count := int_or_0 count in
         repeat_times (Z.to_nat count)
           (execute_dml (insert_uw_new user_id MIGRATED today)))) >>
    execute_ddl drop_user_warnings >>
    execute_ddl rename_uw_new >>
    commit >>
    close.

Definition migrate_user_warnings_table (today : string) : M store unit :=
  with_connection (migrate_body today).

(** What the module does on import, before the bot runs. *)
Definition startup (today : string) : M store unit :=
  ensure_warning_schema >> migrate_user_warnings_table today.

(** The rows that successive inserts of [entries] (user, reason, date)
    produce when the first of them gets the rowid [next]. *)
Fixpoint number_rows (next : Z) (entries : list (Z * string * string)) : list wrow :=
  match entries with
  | [] => []
  | (user, reason, date) :: rest =>
      WRow next user None (Some reason) (Some date) :: number_rows (next + 1) rest
  end.

(** What the oldest-shape branch inserts, in order: for each legacy row,
    [int(count or 0)] times its user with the fixed reason and [today]. *)
Definition expand_counts (today : string) (legacy : list wrow) : list (Z * string * string) :=
  flat_map (fun r => repeat (w_user r, MIGRATED, today)
                            (Z.to_nat (int_or_0 (w_warnings r)))) legacy.

(** What the mixed-shape branch inserts, in order: each legacy row with the
    canned reason and [today] in place of NULL. *)
Definition copy_entries (today : string) (legacy : list wrow) : list (Z * string * string) :=
  map (fun r => (w_user r, coalesce (w_reason r) "Warning administered",
                 coalesce (w_date r) today)) legacy.

(** The scratch table after the inserts of [entries] into the empty one. *)
Definition filled_table (entries : list (Z * string * string)) : wtable :=
  {| wt_cols := current_columns;
     wt_rows := number_rows 1 entries;
     wt_seq := Z.of_nat (length entries) |}.

(** A table whose sequence counter bounds its rowids. *)
Definition dense (rows : list wrow) (seq : Z) : Prop :=
  0 <= seq /\ forall r, In r rows -> w_id r <= seq.

(** [m] behaves as the pending insertion of [entries] into the scratch
    table: nothing becomes durable, a transaction is open afterwards when
    something was inserted, and each statement adds the unchanged durable
    content to the journal. *)
Definition inserts (m : M conn unit) (entries : list (Z * string * string)) : Prop :=
  forall (c : conn) (rows : list wrow) (seq : Z),
    _uw_new (working c) =
      Some {| wt_cols := current_columns; wt_rows := rows; wt_seq := seq |} ->
    dense rows seq ->
    exists c',
      m c = (Ok tt, c')
      /\ durable c' = durable c
      /\ working c' =
           set_uw_new
             (Some {| wt_cols := current_columns;
                      wt_rows := rows ++ number_rows (seq + 1) entries;
                      wt_seq := seq + Z.of_nat (length entries) |})
             (working c)
      /\ in_txn c' = (in_txn c || (0 <? length entries)%nat)
      /\ journal c' = journal c ++ repeat (durable c) (length entries).

(* ------------------------------------------------------------------ *)
(** ** FP functions *)

Definition get_fp (user_id : Z) : M store Z :=
  with_connection (
    db >>
    let* row := query (select_fp user_id) in
    close >>
    ret (match row with Some fp => fp | None => 0 end)).

Definition set_fp (user_id value : Z) : M store unit :=
  with_connection (
    db >>
    execute_dml (upsert_fp user_id value) >>
    commit >>
    close).

(* ------------------------------------------------------------------ *)
(** ** Warning system *)

Definition add_warning (user_id : Z) (reason today : string) : M store unit :=
  with_connection (
    db >>
    execute_ddl (create_user_warnings current_columns) >>
    execute_dml (insert_warning user_id reason today) >>
    commit >>
    close).

Definition get_all_warnings (user_id : Z)
  : M store (list (option string * option string)) :=
  with_connection (
    db >>
    execute_ddl (create_user_warnings current_columns) >>
    let* rows := query (select_warnings user_id) in
    close >>
    ret rows).

Definition clear_warnings (user_id : Z) : M store nat :=
  with_connection (
    db >>
    let* count := query (count_warnings user_id) in
    execute_dml (delete_warnings user_id) >>
    commit >>
    close >>
    ret count).

Definition remove_last_warning (user_id : Z) : M store bool :=
  with_connection (
    db >>
    let* row := query (select_last_id user_id) in
    match row with
    | None => close >> ret false
    | Some last_id =>
        execute_dml (delete_by_id last_id) >>
        commit >>
        close >>
        ret true
    end).

Definition DEFAULT_REASON : string := "Warning administered".

(** The storage part of the [warn] command: the reason defaults to the
    canned string when it is absent or empty ([if not reason]); the record
    is added and the member's warnings are counted. *)
Definition warn (member_id : Z) (reason : option string) (today : string)
  : M store (string * nat) :=
  let reason := match reason with
                | None => DEFAULT_REASON
                | Some "" => DEFAULT_REASON
                | Some r => r
                end in
  add_warning member_id reason today >>
  let* all := get_all_warnings member_id in
  ret (reason, length all).

(* ------------------------------------------------------------------ *)
(** ** Role helpers *)

Record Role : Type := MkRole { role_id : Z; role_name : string }.

Record Member : Type := MkMember { m_id : Z; m_bot : bool }.

(** A role-changing request sent to the platform. *)
Inductive ext_call : Type :=
| RemoveRole (member_id : Z) (r : Role)
| AddRole (member_id : Z) (r : Role).

(** The guild as the bot sees it: its roles, its members, the roles each
    member holds, and the record of the requests sent so far. *)
Record platform : Type := Platform {
  guild_roles : list Role;
  guild_members : list Member;
  held : gmap Z (list Role);
  calls : list ext_call
}.

(** The code points of a [str] kept as UTF-8 bytes; [None] for bytes that
    are the encoding of no string. *)
Definition continuation (b : N) : bool := ((128 <=? b) && (b <=? 191))%N.

Fixpoint decode (s : string) : option (list N) :=
  match s with
  | EmptyString => Some []
  | String a0 s1 =>
      let b0 := N_of_ascii a0 in
      if (b0 <? 128)%N then
        option_map (cons b0) (decode s1)
      else if ((194 <=? b0) && (b0 <=? 223))%N then
        match s1 with
        | String a1 s2 =>
            let b1 := N_of_ascii a1 in
            if continuation b1
            then option_map (cons ((b0 - 192) * 64 + (b1 - 128))%N) (decode s2)
            else None
        | _ => None
        end
      else if ((224 <=? b0) && (b0 <=? 239))%N then
        match s1 with
        | String a1 (String a2 s3) =>
            let b1 := N_of_ascii a1 in
            let b2 := N_of_ascii a2 in
            let c := ((b0 - 224) * 4096 + (b1 - 128) * 64 + (b2 - 128))%N in
            if continuation b1 && continuation b2 && (2048 <=? c)%N
               && negb ((55296 <=? c) && (c <=? 57343))%N
            then option_map (cons c) (decode s3)
            else None
        | _ => None
        end
      else if ((240 <=? b0) && (b0 <=? 244))%N then
        match s1 with
        | String a1 (String a2 (String a3 s4)) =>
            let b1 := N_of_ascii a1 in
            let b2 := N_of_ascii a2 in
            let b3 := N_of_ascii a3 in
            let c := ((b0 - 240) * 262144 + (b1 - 128) * 4096
                      + (b2 - 128) * 64 + (b3 - 128))%N in
            if continuation b1 && continuation b2 && continuation b3
               && (65536 <=? c)%N && (c <=? 1114111)%N
            then option_map (cons c) (decode s4)
            else None
        | _ => None
        end
      else None
  end.

(** The decimal digits [\d] matches in a [str] pattern: the characters of
    the Unicode category Nd, as runs (first code point, length).  This is
    the table of Unicode 14.0 (CPython 3.11); later versions add runs. *)
Definition decimal_digits : list (N * N) :=
  [ (48, 10); (1632, 10); (1776, 10); (1984, 10); (2406, 10); (2534, 10);
    (2662, 10); (2790, 10); (2918, 10); (3046, 10); (3174, 10); (3302, 10);
    (3430, 10); (3558, 10); (3664, 10); (3792, 10); (3872, 10); (4160, 10);
    (4240, 10); (6112, 10); (6160, 10); (6470, 10); (6608, 10); (6784, 10);
    (6800, 10); (6992, 10); (7088, 10); (7232, 10); (7248, 10); (42528, 10);
    (43216, 10); (43264, 10); (43472, 10); (43504, 10); (43600, 10);
    (44016, 10); (65296, 10); (66720, 10); (68912, 10); (69734, 10);
    (69872, 10); (69942, 10); (70096, 10); (70384, 10); (70736, 10);
    (70864, 10); (71248, 10); (71360, 10); (71472, 10); (71904, 10);
    (72016, 10); (72784, 10); (73040, 10); (73120, 10); (92768, 10);
    (92864, 10); (93008, 10); (120782, 50); (123200, 10); (123632, 10);
    (125264, 10); (130032, 10) ]%N.

(** The white space [\s] matches in a [str] pattern ([str.isspace]). *)
Definition white_space : list (N * N) :=
  [ (9, 5); (28, 5); (133, 1); (160, 1); (5760, 1); (8192, 11); (8232, 2);
    (8239, 1); (8287, 1); (12288, 1) ]%N.

Definition in_runs (runs : list (N * N)) (c : N) : bool :=
  existsb (fun '(first, len) => ((first <=? c) && (c <? first + len))%N) runs.

Definition is_digit (c : N) : bool := in_runs decimal_digits c.

Definition is_space (c : N) : bool := in_runs white_space c.

Fixpoint skip (p : N -> bool) (cs : list N) : list N :=
  match cs with
  | c :: cs' => if p c then skip p cs' else cs
  | [] => cs
  end.

(** A letter in either case (IGNORECASE); [upper] is the capital. *)
Definition is_letter (upper : N) (c : N) : bool :=
  ((c =? upper) || (c =? upper + 32))%N.

(** [fp_role_pattern.match(name)] for [^\d+\s*FP$] with IGNORECASE: one or
    more digits, any white space, the letters F and P in either case, then
    the end of the string or a single final newline. *)
Definition fp_role_pattern_match (name : string) : bool :=
  match decode name with
  | Some (c :: rest) =>
      is_digit c &&
      match skip is_space (skip is_digit rest) with
      | [f; p] => is_letter 70 f && is_letter 80 p
      | [f; p; nl] => is_letter 70 f && is_letter 80 p && (nl =? 10)%N
      | _ => false
      end
  | _ => false
  end.

Definition is_fp_role (role : Role) : bool :=
  fp_role_pattern_match (role_name role).

(** [f"{new_fp} FP"] *)
Definition fp_label (new_fp : Z) : string :=
  NilZero.string_of_int (Z.to_int new_fp) ++ " FP".

(** [discord.utils.get(roles, name=role_name)] *)
Definition utils_get (roles : list Role) (name : string) : option Role :=
  List.find (fun r => String.eqb (role_name r) name) roles.

Definition member_roles (member : Member) (p : platform) : list Role :=
  default [] (held p !! m_id member).

Definition holds (r : Role) (roles : list Role) : bool :=
  existsb (fun x => role_id x =? role_id r) roles.

Definition without (r : Role) (roles : list Role) : list Role :=
  List.filter (fun x => negb (role_id x =? role_id r)) roles.

Definition log_call (c : ext_call) (p : platform) : platform :=
  {| guild_roles := guild_roles p; guild_members := guild_members p;
     held := held p; calls := calls p ++ [c] |}.

Definition set_held (member : Member) (roles : list Role) (p : platform) : platform :=
  {| guild_roles := guild_roles p; guild_members := guild_members p;
     held := <[m_id member := roles]> (held p); calls := calls p |}.

(** The member a request is about. *)
Definition call_member (c : ext_call) : Z :=
  match c with
  | RemoveRole member_id _ => member_id
  | AddRole member_id _ => member_id
  end.

(** What a request about [member] never changes: the guild's roles and
    members and the roles held by the other members. *)
Definition same_guild (member : Member) (p p' : platform) : Prop :=
  guild_roles p' = guild_roles p /\
  guild_members p' = guild_members p /\
  forall other : Z, other <> m_id member -> held p' !! other = held p !! other.

(** The roles left after the platform took the roles [rs] away, one by one. *)
Definition without_all (rs : list Role) (roles : list Role) : list Role :=
  fold_left (fun h r => without r h) rs roles.

(** How the platform answers a request: it performs it, refuses it (403,
    [discord.Forbidden]) or fails in another way ([discord.NotFound] and
    the other [discord.HTTPException]s). *)
Inductive answer : Type :=
| Performed
| Refused
| Failed.

Section Platform.

(** The platform's answer to each request. *)
Variable answers : ext_call -> answer.

(** One request to take a role from a member. *)
Definition remove_role (member : Member) (r : Role) : M platform unit :=
  fun p =>
    let p := log_call (RemoveRole (m_id member) r) p in
    match answers (RemoveRole (m_id member) r) with
    | Performed => (Ok tt, set_held member (without r (member_roles member p)) p)
    | Refused => (Raise Forbidden, p)
    | Failed => (Raise HTTPException, p)
    end.

(** One request to give a role to a member. *)
Definition add_role (member : Member) (r : Role) : M platform unit :=
  fun p =>
    let p := log_call (AddRole (m_id member) r) p in
    match answers (AddRole (m_id member) r) with
    | Performed =>
        let roles := member_roles member p in
        (Ok tt, set_held member (if holds r roles then roles else roles ++ [r]) p)
    | Refused => (Raise Forbidden, p)
    | Failed => (Raise HTTPException, p)
    end.

(** [member.remove_roles( *roles)] *)
Definition remove_roles (member : Member) (roles : list Role) : M platform unit :=
  for_each roles (remove_role member).

(** [member.add_roles( *roles)] *)
Definition add_roles (member : Member) (roles : list Role) : M platform unit :=
  for_each roles (add_role member).

(** [try: m  except discord.Forbidden: pass] *)
Definition except_forbidden_pass {S} (m : M S unit) : M S unit :=
  fun s => match m s with
           | (Raise Forbidden, s') => (Ok tt, s')
           | other => other
           end.

Definition sync_member_fp_role (member : Member) (new_fp : Z) : M platform bool :=
  fun p =>
    let roles_to_remove := List.filter is_fp_role (member_roles member p) in
    ((match roles_to_remove with
      | [] => ret tt
      | _ => except_forbidden_pass (remove_roles member roles_to_remove)
      end) >>
     let role_name := fp_label new_fp in
     let target_role := utils_get (guild_roles p) role_name in
     match target_role with
     | Some target_role =>
         except_forbidden_pass (add_roles member [target_role]) >>
         ret true
     | None => ret false
     end) p.

End Platform.

(* ------------------------------------------------------------------ *)
(** ** The permission check *)

(** [ctx.author.id] and [ctx.author.guild_permissions]. *)
Record context : Type := Context {
  author_id : Z;
  manage_roles : bool;
  administrator : bool
}.

(** [_unauth_attempts]: per user, the attempt count and the time of the
    last unauthorised attempt; and the replies sent by the check. *)
Record gate : Type := Gate {
  _unauth_attempts : gmap Z (nat * Q);
  replies : list string
}.

Definition _MAX_ATTEMPTS : nat := 3.
Definition _WINDOW_SECONDS : Q := 60.

Definition ESCALATED_MESSAGE : string :=
  "Hey guys, please stop spamming the commands if you aren’t powerful enough to use them. This is your final warning and i’m being serious guys thanks.".

Definition DEFAULT_MESSAGE : string :=
  "Hey guys, please stop trying to use commands that you can’t use thanks guys!".

(** [_unauth_attempts[user]] on a [defaultdict(lambda: [0, 0.0])] *)
Definition attempts_of (user : Z) (g : gate) : nat * Q :=
  default (0%nat, 0%Q) (_unauth_attempts g !! user).

Definition set_attempts (user : Z) (v : nat * Q) (g : gate) : gate :=
  {| _unauth_attempts := <[user := v]> (_unauth_attempts g); replies := replies g |}.

Definition reply (text : string) (g : gate) : gate :=
  {| _unauth_attempts := _unauth_attempts g; replies := replies g ++ [text] |}.

(** [predicate(ctx)] of [manage_roles_only]; [now] is the value
    [time.time()] returns if it is called. *)
Definition predicate (ctx : context) (now : Q) : M gate bool :=
  fun g =>
    let has_perm := manage_roles ctx || administrator ctx in
    if has_perm then
      (Ok true, set_attempts (author_id ctx) (0%nat, 0%Q) g)
    else
      let '(count, last_ts) := attempts_of (author_id ctx) g in
      let count := if QMicromega.Qlt_bool _WINDOW_SECONDS (now - last_ts) then 0%nat else count in
      let count := (count + 1)%nat in
      let g := set_attempts (author_id ctx) (count, now) g in
      let g := if (_MAX_ATTEMPTS <=? count)%nat
               then reply ESCALATED_MESSAGE g
               else reply DEFAULT_MESSAGE g in
      (Ok false, g).

(* ------------------------------------------------------------------ *)
(** ** Commands *)

Record world : Type := World {
  w_store : store;
  w_platform : platform;
  w_gate : gate
}.

Definition on_store {A} (m : M store A) : M world A :=
  fun w => let '(r, s) := m (w_store w) in
           (r, {| w_store := s; w_platform := w_platform w; w_gate := w_gate w |}).

Definition on_platform {A} (m : M platform A) : M world A :=
  fun w => let '(r, p) := m (w_platform w) in
           (r, {| w_store := w_store w; w_platform := p; w_gate := w_gate w |}).

Definition on_gate {A} (m : M gate A) : M world A :=
  fun w => let '(r, g) := m (w_gate w) in
           (r, {| w_store := w_store w; w_platform := w_platform w; w_gate := g |}).

(** A command decorated with [@manage_roles_only()]: the body runs only
    when the check returns [True]. *)
Definition checked {A} (ctx : context) (now : Q) (command : M world A) : M world (option A) :=
  let* ok := on_gate (predicate ctx now) in
  if ok then (let* a := command in ret (Some a)) else ret None.

Record fpall_counters : Type := Counters {
  updated : nat;
  skipped_bots : nat;
  failed_syncs : nat
}.

Section Commands.

Variable answers : ext_call -> answer.

(** Body of [!fp]; returns the new score and whether the role existed,
    the two values the reply shows. *)
Definition fp (member : Member) (delta : Z) : M world (Z * bool) :=
  let* current := on_store (get_fp (m_id member)) in
  let new := current + delta in
  on_store (set_fp (m_id member) new) >>
  let* existed := on_platform (sync_member_fp_role answers member new) in
  ret (new, existed).

(** Body of [!fpset]. *)
Definition fpset (member : Member) (value : Z) : M world (Z * bool) :=
  on_store (set_fp (m_id member) value) >>
  let* existed := on_platform (sync_member_fp_role answers member value) in
  ret (value, existed).

(** The loop of [!fpall] over the remaining [members]. *)
Fixpoint fpall_loop (delta : Z) (members : list Member) (k : fpall_counters)
  : M world fpall_counters :=
  match members with
  | [] => ret k
  | member :: rest =>
      if m_bot member then
        fpall_loop delta rest
          {| updated := updated k; skipped_bots := (skipped_bots k + 1)%nat;
             failed_syncs := failed_syncs k |}
      else
        let* outcome := try_ (
          let* current := on_store (get_fp (m_id member)) in
          let new := current + delta in
          on_store (set_fp (m_id member) new) >>
          on_platform (sync_member_fp_role answers member new)) in
        match outcome with
        | Some existed =>
            fpall_loop delta rest
              {| updated := (updated k + 1)%nat; skipped_bots := skipped_bots k;
                 failed_syncs := if existed then failed_syncs k
                                 else (failed_syncs k + 1)%nat |}
        | None => fpall_loop delta rest k
        end
  end.

(** Body of [!fpall]; the reply reports [updated] and, when it is not
    zero, [failed_syncs]. *)
Definition fpall (delta : Z) : M world fpall_counters :=
  fun w => fpall_loop delta (guild_members (w_platform w))
             {| updated := 0%nat; skipped_bots := 0%nat; failed_syncs := 0%nat |} w.

End Commands.

(* ------------------------------------------------------------------ *)
(** ** Further commands and event handlers *)

(** [ORDER BY value DESC, user_id ASC] on pairs (user_id, value): whether
    [a] may come before [b]. *)
Definition ranks_before (a b : Z * Z) : bool :=
  (snd b <? snd a) || ((snd a =? snd b) && (fst a <=? fst b)).

(** The same order as a proposition: a larger value first, and for equal
    values the smaller user id first. *)
Definition ranked (a b : Z * Z) : Prop :=
  snd b < snd a \/ (snd a = snd b /\ fst a <= fst b).

Fixpoint insert_ranked (a : Z * Z) (l : list (Z * Z)) : list (Z * Z) :=
  match l with
  | [] => [a]
  | x :: l' => if ranks_before a x then a :: x :: l' else x :: insert_ranked a l'
  end.

Definition rank (l : list (Z * Z)) : list (Z * Z) :=
  fold_right insert_ranked [] l.

(** [SELECT user_id, fp FROM user_fp ORDER BY fp DESC, user_id ASC LIMIT 5] *)
Definition select_top_fp (s : store) : result (list (Z * Z)) :=
  Ok (firstn 5 (rank (map_to_list (user_fp s)))).

(** [fptop]: [None] stands for the reply "No FP data found."; otherwise the
    rows are listed in this order, numbered from 1. *)
Definition fptop : M store (option (list (Z * Z))) :=
  with_connection (
    db >>
    let* rows := query select_top_fp in
    close >>
    ret (match rows with
         | [] => None
         | _ => Some rows
         end)).

(** The groups of [GROUP BY user_id] with their [COUNT( * )]. *)
Definition group_counts (rows : list wrow) : list (Z * Z) :=
  map (fun user => (user, Z.of_nat (length (where_user user rows))))
      (nodup Z.eq_dec (map w_user rows)).

(** [SELECT user_id, COUNT( * ) AS total FROM user_warnings GROUP BY user_id
     ORDER BY total DESC, user_id ASC LIMIT 5] *)
Definition select_top_warnings (s : store) : result (list (Z * Z)) :=
  match user_warnings s with
  | None => Raise OperationalError
  | Some t => if has_col "user_id" t
              then Ok (firstn 5 (rank (group_counts (wt_rows t))))
              else Raise OperationalError
  end.

(** [warntop]: [None] stands for the reply "No warnings recorded.". *)
Definition warntop : M store (option (list (Z * Z))) :=
  with_connection (
    db >>
    let* rows := query select_top_warnings in
    close >>
    ret (match rows with
         | [] => None
         | _ => Some rows
         end)).

(** [DELETE FROM user_fp WHERE user_id = ?] *)
Definition delete_fp (user : Z) (s : store) : result store :=
  Ok (set_user_fp (delete user (user_fp s)) s).

Definition on_member_remove_body (member_id : Z) : M conn unit :=
  db >>
  execute_dml (delete_fp member_id) >>
  execute_dml (delete_warnings member_id) >>
  commit >>
  close.

Definition on_member_remove (member_id : Z) : M store unit :=
  with_connection (on_member_remove_body member_id).

(** Body of [!warnsub]: [None] stands for "has no warnings to remove";
    otherwise the number of warnings left is reported. *)
Definition warnsub (member_id : Z) : M store (option nat) :=
  let* ok := remove_last_warning member_id in
  if negb ok then ret None
  else
    let* all := get_all_warnings member_id in
    ret (Some (length all)).

Section MoreCommands.

Variable answers : ext_call -> answer.

(** Body of [!fprolesync]; returns the stored score and whether the role
    existed. *)
Definition fprolesync (member : Member) : M world (Z * bool) :=
  let* value := on_store (get_fp (m_id member)) in
  let* existed := on_platform (sync_member_fp_role answers member value) in
  ret (value, existed).

End MoreCommands.

(* ================================================================== *)
(** * Properties *)

(** ** The permission check *)

Lemma messages_differ : DEFAULT_MESSAGE <> ESCALATED_MESSAGE.
Proof. discriminate. Qed.

Lemma window_expired_iff (now last_ts : Q) :
  QMicromega.Qlt_bool _WINDOW_SECONDS (now - last_ts) = true <-> (60 < now - last_ts)%Q.
Proof. apply QMicromega.Qlt_bool_iff. Qed.

Lemma attempts_of_set (user : Z) (v : nat * Q) (g : gate) :
  attempts_of user (set_attempts user v g) = v.
Proof. unfold attempts_of, set_attempts; simpl. by rewrite lookup_insert_eq. Qed.

Lemma attempts_of_set_other (user other : Z) (v : nat * Q) (g : gate) :
  user <> other -> attempts_of other (set_attempts user v g) = attempts_of other g.
Proof. intros Hne. unfold attempts_of, set_attempts; simpl. by rewrite lookup_insert_ne. Qed.

Lemma attempts_of_reply (user : Z) (text : string) (g : gate) :
  attempts_of user (reply text g) = attempts_of user g.
Proof. reflexivity. Qed.

(** The unauthorised branch of [predicate], with the new count [n] named. *)
Lemma predicate_unauthorized (ctx : context) (now : Q) (g : gate) :
  manage_roles ctx || administrator ctx = false ->
  let count := fst (attempts_of (author_id ctx) g) in
  let last_ts := snd (attempts_of (author_id ctx) g) in
  let n := ((if QMicromega.Qlt_bool _WINDOW_SECONDS (now - last_ts) then 0 else count) + 1)%nat in
  predicate ctx now g =
    (Ok false,
     reply (if (_MAX_ATTEMPTS <=? n)%nat then ESCALATED_MESSAGE else DEFAULT_MESSAGE)
           (set_attempts (author_id ctx) (n, now) g)).
Proof.
  intros Hperm. unfold predicate. rewrite Hperm.
  destruct (attempts_of (author_id ctx) g) as [count last_ts]; cbn [fst snd].
  match goal with
  | |- context [(?a <=? ?b)%nat] => destruct (a <=? b)%nat; reflexivity
  end.
Qed.

(** C3. An unauthorised call is denied and the decorated command does not
    run.  The caller's record becomes [(n, now)], where [n] is 1 when more
    than 60 time units passed since the last recorded attempt and one more
    than the recorded count otherwise; exactly one reply is sent, the
    default message when [n] is 1 or 2 and the escalated message once [n]
    has reached 3; the records of the other callers are kept. *)
Theorem abuse_gate_unauthorized (ctx : context) (now : Q) (g : gate) :
  manage_roles ctx || administrator ctx = false ->
  let count := fst (attempts_of (author_id ctx) g) in
  let last_ts := snd (attempts_of (author_id ctx) g) in
  exists (n : nat) (text : string) (g' : gate),
    predicate ctx now g = (Ok false, g')
    /\ attempts_of (author_id ctx) g' = (n, now)
    /\ replies g' = replies g ++ [text]
    /\ (forall other, other <> author_id ctx ->
          attempts_of other g' = attempts_of other g)
    /\ ((60 < now - last_ts)%Q -> n = 1%nat)
    /\ (~ (60 < now - last_ts)%Q -> n = (count + 1)%nat)
    /\ ((n = 1 \/ n = 2)%nat -> text = DEFAULT_MESSAGE)
    /\ ((3 <= n)%nat -> text = ESCALATED_MESSAGE)
    /\ forall (A : Type) (command : M world A) (w : world),
         w_gate w = g ->
         checked ctx now command w =
           (Ok None,
            {| w_store := w_store w; w_platform := w_platform w; w_gate := g' |}).
Proof.
  intros Hperm count last_ts.
  pose proof (predicate_unauthorized ctx now g Hperm) as Hp. simpl in Hp.
  fold count last_ts in Hp.
  set (n := ((if QMicromega.Qlt_bool _WINDOW_SECONDS (now - last_ts) then 0 else count) + 1)%nat) in *.
  set (text := if (_MAX_ATTEMPTS <=? n)%nat then ESCALATED_MESSAGE else DEFAULT_MESSAGE) in *.
  exists n, text, (reply text (set_attempts (author_id ctx) (n, now) g)).
  split; [exact Hp|].
  split; [rewrite attempts_of_reply; apply attempts_of_set|].
  split; [reflexivity|].
  split; [intros other Hne; rewrite attempts_of_reply; by apply attempts_of_set_other|].
  assert (Hexp : (60 < now - last_ts)%Q -> n = 1%nat).
  { intros H. apply window_expired_iff in H. subst n. by rewrite H. }
  assert (Hin : ~ (60 < now - last_ts)%Q -> n = (count + 1)%nat).
  { intros H. subst n.
    destruct (QMicromega.Qlt_bool _WINDOW_SECONDS (now - last_ts)) eqn:E; [|reflexivity].
    apply window_expired_iff in E. contradiction. }
  split; [exact Hexp|]. split; [exact Hin|]. split; [|split].
  - subst text. intros [-> | ->]; reflexivity.
  - intros Hn. subst text. unfold _MAX_ATTEMPTS.
    destruct (3 <=? n)%nat eqn:E; [reflexivity|].
    apply Nat.leb_gt in E. lia.
  - intros A command w Hw. unfold checked, bind, on_gate. rewrite Hw, Hp. reflexivity.
Qed.

(** The four attempts of the specification, each step by the theorem: at
    times 1000, 1010 and 1020 the replies are the default, the default and
    the escalated message; at 1100, more than 60 after the third, the
    default message again, with the count back at 1. *)
Lemma abuse_gate_unauthorized_witness :
  let ctx := Context 5 false false in
  let g1 := snd (predicate ctx 1000 (Gate ∅ [])) in
  let g2 := snd (predicate ctx 1010 g1) in
  let g3 := snd (predicate ctx 1020 g2) in
  let g4 := snd (predicate ctx 1100 g3) in
  replies g4 = [DEFAULT_MESSAGE; DEFAULT_MESSAGE; ESCALATED_MESSAGE; DEFAULT_MESSAGE]
  /\ attempts_of 5 g3 = (3%nat, 1020%Q)
  /\ attempts_of 5 g4 = (1%nat, 1100%Q).
Proof.
  intros ctx g1 g2 g3 g4.
  destruct (abuse_gate_unauthorized ctx 1000 (Gate ∅ []) eq_refl)
    as (n1 & t1 & g1' & P1 & A1 & R1 & _ & E1 & _ & D1 & _).
  assert (g1' = g1) as -> by (unfold g1; by rewrite P1).
  assert (n1 = 1%nat) as -> by (apply E1; vm_compute; reflexivity).
  assert (t1 = DEFAULT_MESSAGE) as -> by (apply D1; by left).
  destruct (abuse_gate_unauthorized ctx 1010 g1 eq_refl)
    as (n2 & t2 & g2' & P2 & A2 & R2 & _ & _ & I2 & D2 & _).
  assert (g2' = g2) as -> by (unfold g2; by rewrite P2).
  change (author_id ctx) with 5 in *.
  rewrite A1 in I2. cbn [fst snd] in I2.
  assert (n2 = 2%nat) as ->
    by (apply I2; intros H; vm_compute in H; discriminate H).
  assert (t2 = DEFAULT_MESSAGE) as -> by (apply D2; by right).
  destruct (abuse_gate_unauthorized ctx 1020 g2 eq_refl)
    as (n3 & t3 & g3' & P3 & A3 & R3 & _ & _ & I3 & _ & S3 & _).
  assert (g3' = g3) as -> by (unfold g3; by rewrite P3).
  change (author_id ctx) with 5 in *.
  rewrite A2 in I3. cbn [fst snd] in I3.
  assert (n3 = 3%nat) as ->
    by (apply I3; intros H; vm_compute in H; discriminate H).
  assert (t3 = ESCALATED_MESSAGE) as -> by (apply S3; lia).
  destruct (abuse_gate_unauthorized ctx 1100 g3 eq_refl)
    as (n4 & t4 & g4' & P4 & A4 & R4 & _ & E4 & _ & D4 & _).
  assert (g4' = g4) as -> by (unfold g4; by rewrite P4).
  change (author_id ctx) with 5 in *.
  rewrite A3 in E4. cbn [fst snd] in E4.
  assert (n4 = 1%nat) as -> by (apply E4; vm_compute; reflexivity).
  assert (t4 = DEFAULT_MESSAGE) as -> by (apply D4; by left).
  split; [|split; [exact A3 | exact A4]].
  rewrite R4, R3, R2, R1. reflexivity.
Defined.

(** The scenario of the specification: from no recorded attempt, three
    unauthorised attempts each within 60 time units of the one before get
    the default, the default and the escalated message; a fourth one more
    than 60 time units later gets the default message again and leaves the
    count at 1. *)
Lemma abuse_gate_scenario (ctx : context) (t1 t2 t3 t4 : Q) (g0 : gate) :
  manage_roles ctx || administrator ctx = false ->
  _unauth_attempts g0 !! author_id ctx = None ->
  (t2 - t1 <= 60)%Q -> (t3 - t2 <= 60)%Q -> (60 < t4 - t3)%Q ->
  let g1 := snd (predicate ctx t1 g0) in
  let g2 := snd (predicate ctx t2 g1) in
  let g3 := snd (predicate ctx t3 g2) in
  let g4 := snd (predicate ctx t4 g3) in
  replies g4 = replies g0 ++
    [DEFAULT_MESSAGE; DEFAULT_MESSAGE; ESCALATED_MESSAGE; DEFAULT_MESSAGE]
  /\ attempts_of (author_id ctx) g1 = (1%nat, t1)
  /\ attempts_of (author_id ctx) g2 = (2%nat, t2)
  /\ attempts_of (author_id ctx) g3 = (3%nat, t3)
  /\ attempts_of (author_id ctx) g4 = (1%nat, t4).
Proof.
  intros Hperm Hnone H21 H32 H43.
  assert (Hstep : forall now g c t,
            attempts_of (author_id ctx) g = (c, t) ->
            snd (predicate ctx now g) =
              let n := ((if QMicromega.Qlt_bool _WINDOW_SECONDS (now - t) then 0 else c) + 1)%nat in
              reply (if (_MAX_ATTEMPTS <=? n)%nat then ESCALATED_MESSAGE else DEFAULT_MESSAGE)
                    (set_attempts (author_id ctx) (n, now) g)).
  { intros now g c t E. rewrite (predicate_unauthorized ctx now g Hperm). simpl. by rewrite E. }
  assert (Hin : forall a b, (a - b <= 60)%Q -> QMicromega.Qlt_bool _WINDOW_SECONDS (a - b) = false).
  { intros a b H. destruct (QMicromega.Qlt_bool _ _) eqn:E; [|reflexivity].
    apply window_expired_iff in E. lra. }
  intros g1 g2 g3 g4.
  assert (E0 : attempts_of (author_id ctx) g0 = (0%nat, 0%Q)).
  { unfold attempts_of. by rewrite Hnone. }
  assert (E1 : g1 = reply DEFAULT_MESSAGE (set_attempts (author_id ctx) (1%nat, t1) g0)).
  { subst g1. rewrite (Hstep t1 g0 _ _ E0). simpl.
    destruct (QMicromega.Qlt_bool _ _); reflexivity. }
  assert (A1 : attempts_of (author_id ctx) g1 = (1%nat, t1)).
  { rewrite E1, attempts_of_reply. apply attempts_of_set. }
  assert (E2 : g2 = reply DEFAULT_MESSAGE (set_attempts (author_id ctx) (2%nat, t2) g1)).
  { subst g2. rewrite (Hstep t2 g1 _ _ A1). simpl. by rewrite (Hin _ _ H21). }
  assert (A2 : attempts_of (author_id ctx) g2 = (2%nat, t2)).
  { rewrite E2, attempts_of_reply. apply attempts_of_set. }
  assert (E3 : g3 = reply ESCALATED_MESSAGE (set_attempts (author_id ctx) (3%nat, t3) g2)).
  { subst g3. rewrite (Hstep t3 g2 _ _ A2). simpl. by rewrite (Hin _ _ H32). }
  assert (A3 : attempts_of (author_id ctx) g3 = (3%nat, t3)).
  { rewrite E3, attempts_of_reply. apply attempts_of_set. }
  assert (E4 : g4 = reply DEFAULT_MESSAGE (set_attempts (author_id ctx) (1%nat, t4) g3)).
  { subst g4. rewrite (Hstep t4 g3 _ _ A3). simpl.
    apply window_expired_iff in H43. by rewrite H43. }
  assert (A4 : attempts_of (author_id ctx) g4 = (1%nat, t4)).
  { rewrite E4, attempts_of_reply. apply attempts_of_set. }
  repeat split; try assumption.
  rewrite E4, E3, E2, E1. simpl. rewrite <- !app_assoc. reflexivity.
Qed.

(** C7 as stated fails: an authorised call at time 100 leaves the entry
    [(0, 0.0)], not [(0, 100)]. *)
Lemma gate_authorized_not_now :
  fst (predicate (Context 7 true false) 100 (Gate ∅ [])) = Ok true /\
  attempts_of 7 (snd (predicate (Context 7 true false) 100 (Gate ∅ []))) <> (0%nat, 100%Q).
Proof. split; [reflexivity|]. vm_compute. discriminate. Qed.

(** C7, amended. An authorised call is allowed, the decorated command
    runs, no message is sent, and the caller's entry is set to count 0 and
    time 0.0, whatever the current time; other callers' entries are kept. *)
Theorem gate_authorized_resets (ctx : context) (now : Q) (g : gate) :
  manage_roles ctx || administrator ctx = true ->
  predicate ctx now g = (Ok true, set_attempts (author_id ctx) (0%nat, 0%Q) g)
  /\ attempts_of (author_id ctx) (snd (predicate ctx now g)) = (0%nat, 0%Q)
  /\ replies (snd (predicate ctx now g)) = replies g
  /\ (forall other, other <> author_id ctx ->
        attempts_of other (snd (predicate ctx now g)) = attempts_of other g)
  /\ forall (A : Type) (command : M world A) (w : world),
       w_gate w = g ->
       checked ctx now command w =
         (let* a := command in ret (Some a))
           {| w_store := w_store w; w_platform := w_platform w;
              w_gate := set_attempts (author_id ctx) (0%nat, 0%Q) g |}.
Proof.
  intros Hperm.
  assert (Hp : predicate ctx now g = (Ok true, set_attempts (author_id ctx) (0%nat, 0%Q) g)).
  { unfold predicate. by rewrite Hperm. }
  rewrite Hp. simpl. repeat split.
  - apply attempts_of_set.
  - intros other Hne. by apply attempts_of_set_other.
  - intros A command w Hw. unfold checked, on_gate. unfold bind at 1.
    rewrite Hw, Hp. reflexivity.
Qed.

Lemma gate_authorized_resets_witness :
  predicate (Context 7 false true) 100 (Gate ∅ []) =
    (Ok true, set_attempts 7 (0%nat, 0%Q) (Gate ∅ []))
  /\ attempts_of 7 (snd (predicate (Context 7 false true) 100 (Gate ∅ []))) = (0%nat, 0%Q).
Proof.
  destruct (gate_authorized_resets (Context 7 false true) 100 (Gate ∅ []) eq_refl)
    as (H1 & H2 & _).
  exact (conj H1 H2).
Defined.

(** ** Role names *)

Lemma decode_low (a : ascii) (s : string) :
  (N_of_ascii a <? 128)%N = true ->
  decode (String a s) = option_map (cons (N_of_ascii a)) (decode s).
Proof. intros H. cbn [decode]. cbv zeta. by rewrite H. Qed.

Lemma append_cons (a : ascii) (s t : string) :
  (String a s ++ t)%string = String a (s ++ t)%string.
Proof. reflexivity. Qed.

Lemma skip_app (p : N -> bool) (ds cs : list N) :
  forallb p ds = true -> skip p (ds ++ cs) = skip p cs.
Proof.
  induction ds as [|d ds IH]; simpl; [reflexivity|].
  intros H. apply andb_true_iff in H as [Hd Hds]. rewrite Hd. by apply IH.
Qed.

(** The decimal numeral of [d] decodes to digits. *)
Lemma decode_digits (d : Decimal.uint) (tail : string) (cs : list N) :
  decode tail = Some cs ->
  exists ds,
    decode (NilEmpty.string_of_uint d ++ tail) = Some (ds ++ cs)
    /\ forallb is_digit ds = true
    /\ (d <> Decimal.Nil -> ds <> []).
Proof.
  intros Htail.
  induction d as [|d IH|d IH|d IH|d IH|d IH|d IH|d IH|d IH|d IH|d IH];
    [exists []; by repeat split|..].
  all: destruct IH as (ds & Hd & Hall & _);
    cbn [NilEmpty.string_of_uint]; rewrite append_cons;
    rewrite decode_low by reflexivity; rewrite Hd; cbn [option_map];
    eexists (_ :: ds); split; [reflexivity|]; split;
      [cbn [forallb]; rewrite Hall; reflexivity | discriminate].
Qed.

Lemma digits_match_pattern (d : Decimal.uint) :
  fp_role_pattern_match (NilZero.string_of_uint d ++ " FP") = true.
Proof.
  destruct (decode_digits d " FP" [32; 70; 80]%N eq_refl) as (ds & Hd & Hall & Hne).
  destruct d; [reflexivity|..].
  all: unfold fp_role_pattern_match; cbn [NilZero.string_of_uint];
    rewrite Hd; destruct ds as [|c ds]; [by destruct Hne|];
    cbn [forallb] in Hall; apply andb_true_iff in Hall as [Hc Hds];
    cbn [app]; rewrite Hc, (skip_app _ _ _ Hds); reflexivity.
Qed.

Lemma negative_label_no_match (d : Decimal.uint) :
  fp_role_pattern_match (String "-" (NilZero.string_of_uint d) ++ " FP") = false.
Proof.
  unfold fp_role_pattern_match. rewrite append_cons.
  rewrite decode_low by reflexivity. destruct (decode _); reflexivity.
Qed.

Lemma is_fp_role_fp_label (new_fp : Z) (id : Z) :
  is_fp_role (MkRole id (fp_label new_fp)) = (0 <=? new_fp).
Proof.
  unfold is_fp_role, fp_label. cbn [role_name].
  destruct new_fp as [|p|p].
  - reflexivity.
  - apply digits_match_pattern.
  - apply negative_label_no_match.
Qed.

(** The label of a negative score is the label of no other score that is
    not negative. *)
Lemma fp_label_sign (old_fp new_fp : Z) :
  old_fp < 0 -> 0 <= new_fp -> fp_label old_fp <> fp_label new_fp.
Proof.
  intros Hold Hnew Heq.
  assert (is_fp_role (MkRole 0 (fp_label old_fp)) = is_fp_role (MkRole 0 (fp_label new_fp)))
    as H by by rewrite Heq.
  rewrite !is_fp_role_fp_label in H.
  apply Z.leb_le in Hnew. rewrite Hnew in H. apply Z.leb_le in H. lia.
Qed.

(** ** Role synchronisation *)

Lemma in_without (x r : Role) (h : list Role) :
  In x (without r h) <-> In x h /\ role_id x <> role_id r.
Proof.
  unfold without. rewrite filter_In. split; intros [H1 H2]; split; try assumption.
  - apply negb_true_iff, Z.eqb_neq in H2. exact H2.
  - apply negb_true_iff, Z.eqb_neq. exact H2.
Qed.

Lemma in_without_all (x : Role) (rs h : list Role) :
  In x (without_all rs h) <->
  In x h /\ forall y, In y rs -> role_id x <> role_id y.
Proof.
  unfold without_all. revert h. induction rs as [|r rs IH]; intros h; simpl.
  - split; [intros H; split; [exact H | intros y []] | intros [H _]; exact H].
  - rewrite IH, in_without. split.
    + intros [[Hx Hr] Hrs]. split; [exact Hx|]. intros y [<- | Hy]; auto.
    + intros [Hx Hall]. repeat split; auto.
Qed.

Lemma member_roles_set_held (member : Member) (roles : list Role) (p : platform) :
  member_roles member (set_held member roles p) = roles.
Proof. unfold member_roles, set_held; simpl. by rewrite lookup_insert_eq. Qed.

Lemma same_guild_refl (member : Member) (p : platform) : same_guild member p p.
Proof. repeat split. Qed.

Lemma same_guild_trans (member : Member) (p1 p2 p3 : platform) :
  same_guild member p1 p2 -> same_guild member p2 p3 -> same_guild member p1 p3.
Proof.
  intros (A1 & B1 & C1) (A2 & B2 & C2). repeat split; try congruence.
  intros o Ho. rewrite C2, C1; auto.
Qed.

Lemma same_guild_log_call (member : Member) (c : ext_call) (p : platform) :
  same_guild member p (log_call c p).
Proof. repeat split. Qed.

Lemma same_guild_set_held (member : Member) (roles : list Role) (p : platform) :
  same_guild member p (set_held member roles p).
Proof.
  repeat split. intros o Ho. unfold set_held; simpl. by rewrite lookup_insert_ne.
Qed.

Lemma utils_get_some (roles : list Role) (name : string) (r : Role) :
  utils_get roles name = Some r -> In r roles /\ role_name r = name.
Proof.
  unfold utils_get. intros H. apply find_some in H as [Hin Heq].
  split; [exact Hin|]. by apply String.eqb_eq.
Qed.

Lemma utils_get_is_some (roles : list Role) (name : string) :
  (exists r, utils_get roles name = Some r) <->
  (exists r, In r roles /\ role_name r = name).
Proof.
  split.
  - intros [r H]. exists r. by apply utils_get_some.
  - intros (r & Hin & Hname). unfold utils_get.
    destruct (find _ roles) as [t|] eqn:E; [by exists t|].
    exfalso. pose proof (find_none _ _ E r Hin) as Hn. simpl in Hn.
    apply String.eqb_neq in Hn. contradiction.
Qed.

Section PlatformFacts.

Variable answers : ext_call -> answer.
Variable member : Member.

Lemma remove_roles_cons (r : Role) (rs : list Role) (p : platform) :
  remove_roles answers member (r :: rs) p =
    match answers (RemoveRole (m_id member) r) with
    | Performed =>
        remove_roles answers member rs
          (set_held member (without r (member_roles member p))
             (log_call (RemoveRole (m_id member) r) p))
    | Refused => (Raise Forbidden, log_call (RemoveRole (m_id member) r) p)
    | Failed => (Raise HTTPException, log_call (RemoveRole (m_id member) r) p)
    end.
Proof.
  unfold remove_roles; simpl. unfold bind, remove_role.
  destruct (answers _); reflexivity.
Qed.

(** When every request is performed every role of the list is taken away. *)
Lemma remove_roles_ok (roles : list Role) (p : platform) :
  (forall y, In y roles -> answers (RemoveRole (m_id member) y) = Performed) ->
  exists p',
    remove_roles answers member roles p = (Ok tt, p')
    /\ same_guild member p p'
    /\ calls p' = calls p ++ map (RemoveRole (m_id member)) roles
    /\ member_roles member p' = without_all roles (member_roles member p).
Proof.
  revert p. induction roles as [|r rs IH]; intros p Hok.
  - exists p. repeat split. simpl. by rewrite app_nil_r.
  - rewrite remove_roles_cons, (Hok r (or_introl eq_refl)).
    destruct (IH (set_held member (without r (member_roles member p))
                    (log_call (RemoveRole (m_id member) r) p)))
      as (p' & Hrun & Hg & Hc & Hm).
    { intros y Hy. apply Hok. by right. }
    exists p'. split; [exact Hrun|]. split; [|split].
    + eapply same_guild_trans; [|exact Hg].
      eapply same_guild_trans; [apply same_guild_log_call | apply same_guild_set_held].
    + rewrite Hc. simpl. by rewrite <- app_assoc.
    + rewrite Hm, member_roles_set_held. reflexivity.
Qed.

(** The first request that is not performed ends the call with its
    exception: the roles before it are gone, no request is sent for the
    roles after it. *)
Lemma remove_roles_stopped (pre : list Role) (r : Role) (post : list Role) (p : platform) :
  (forall y, In y pre -> answers (RemoveRole (m_id member) y) = Performed) ->
  answers (RemoveRole (m_id member) r) <> Performed ->
  exists p',
    remove_roles answers member (pre ++ r :: post) p =
      (Raise (match answers (RemoveRole (m_id member) r) with
              | Failed => HTTPException
              | _ => Forbidden
              end), p')
    /\ same_guild member p p'
    /\ calls p' = calls p ++ map (RemoveRole (m_id member)) (pre ++ [r])
    /\ member_roles member p' = without_all pre (member_roles member p).
Proof.
  revert p. induction pre as [|x pre IH]; intros p Hok Hr.
  - simpl. rewrite remove_roles_cons.
    destruct (answers (RemoveRole (m_id member) r)); [contradiction|..];
      (eexists; split; [reflexivity|]; repeat split).
  - simpl. rewrite remove_roles_cons, (Hok x (or_introl eq_refl)).
    destruct (IH (set_held member (without x (member_roles member p))
                    (log_call (RemoveRole (m_id member) x) p)))
      as (p' & Hrun & Hg & Hc & Hm); [intros y Hy; apply Hok; by right | exact Hr |].
    exists p'. split; [exact Hrun|]. split; [|split].
    + eapply same_guild_trans; [|exact Hg].
      eapply same_guild_trans; [apply same_guild_log_call | apply same_guild_set_held].
    + rewrite Hc. simpl. by rewrite <- app_assoc.
    + rewrite Hm, member_roles_set_held. reflexivity.
Qed.

Lemma first_stopped (roles : list Role) :
  (forall y, In y roles -> answers (RemoveRole (m_id member) y) = Performed) \/
  exists pre r post,
    roles = pre ++ r :: post
    /\ (forall y, In y pre -> answers (RemoveRole (m_id member) y) = Performed)
    /\ answers (RemoveRole (m_id member) r) <> Performed.
Proof.
  induction roles as [|x rs IH].
  - left. intros y [].
  - destruct (answers (RemoveRole (m_id member) x)) eqn:Hx.
    + destruct IH as [Hall | (pre & r & post & -> & Hpre & Hr)].
      * left. intros y [<- | Hy]; auto.
      * right. exists (x :: pre), r, post. repeat split; [|exact Hr].
        intros y [<- | Hy]; auto.
    + right. exists [], x, rs. repeat split; [intros y []|]. by rewrite Hx.
    + right. exists [], x, rs. repeat split; [intros y []|]. by rewrite Hx.
Qed.

(** The removal step of [sync_member_fp_role]: the roles of the member
    that come before the first request not performed are removed; a
    refusal is swallowed, another failure is raised. *)
Lemma removal_step (matched : list Role) (p : platform) :
  exists (p1 : platform) (attempted removed : list Role) (res : result unit),
    (match matched with
     | [] => ret tt
     | _ => except_forbidden_pass (remove_roles answers member matched)
     end) p = (res, p1)
    /\ same_guild member p p1
    /\ calls p1 = calls p ++ map (RemoveRole (m_id member)) attempted
    /\ member_roles member p1 = without_all removed (member_roles member p)
    /\ ((attempted = matched /\ removed = matched /\ res = Ok tt /\
         forall y, In y matched -> answers (RemoveRole (m_id member) y) = Performed)
        \/ exists pre r post,
             matched = pre ++ r :: post /\ attempted = pre ++ [r] /\ removed = pre
             /\ (forall y, In y pre -> answers (RemoveRole (m_id member) y) = Performed)
             /\ ((answers (RemoveRole (m_id member) r) = Refused /\ res = Ok tt)
                 \/ (answers (RemoveRole (m_id member) r) = Failed
                     /\ res = Raise HTTPException))).
Proof.
  destruct (first_stopped matched) as [Hall | (pre & r & post & E & Hpre & Hr)].
  - destruct (remove_roles_ok matched p Hall) as (p' & Hrun & Hg & Hc & Hm).
    destruct matched as [|x xs].
    + exists p, [], [], (Ok tt). repeat split; [simpl; by rewrite app_nil_r | by left].
    + exists p', (x :: xs), (x :: xs), (Ok tt).
      unfold except_forbidden_pass. rewrite Hrun.
      repeat split; try assumption; try apply Hg. by left.
  - destruct (remove_roles_stopped pre r post p Hpre Hr) as (p' & Hrun & Hg & Hc & Hm).
    subst matched.
    exists p', (pre ++ [r]), pre,
      (match answers (RemoveRole (m_id member) r) with
       | Failed => Raise HTTPException
       | _ => Ok tt
       end).
    split.
    { destruct pre; simpl; unfold except_forbidden_pass;
        simpl in Hrun; rewrite Hrun;
        destruct (answers (RemoveRole (m_id member) r)); reflexivity. }
    repeat split; try assumption; try apply Hg.
    right. exists pre, r, post. repeat split; try assumption.
    destruct (answers (RemoveRole (m_id member) r)); [contradiction | by left | by right].
Qed.

(** The attachment step: the target is added when the request is
    performed; a refusal is swallowed, another failure is raised. *)
Lemma attach_step (target : Role) (p : platform) :
  exists (p2 : platform) (res : result unit),
    except_forbidden_pass (add_roles answers member [target]) p = (res, p2)
    /\ same_guild member p p2
    /\ calls p2 = calls p ++ [AddRole (m_id member) target]
    /\ (member_roles member p2 = member_roles member p
        \/ member_roles member p2 = member_roles member p ++ [target])
    /\ match answers (AddRole (m_id member) target) with
       | Performed =>
           res = Ok tt
           /\ member_roles member p2 =
                if holds target (member_roles member p) then member_roles member p
                else member_roles member p ++ [target]
       | Refused => res = Ok tt /\ member_roles member p2 = member_roles member p
       | Failed => res = Raise HTTPException
                   /\ member_roles member p2 = member_roles member p
       end.
Proof.
  unfold except_forbidden_pass, add_roles; simpl. unfold bind, add_role.
  destruct (answers (AddRole (m_id member) target)).
  - eexists. eexists. split; [reflexivity|]. split; [|split; [|split]].
    + eapply same_guild_trans; [apply same_guild_log_call | apply same_guild_set_held].
    + reflexivity.
    + rewrite member_roles_set_held.
      change (member_roles member (log_call _ p)) with (member_roles member p).
      destruct (holds target (member_roles member p)); [by left | by right].
    + split; [reflexivity|]. rewrite member_roles_set_held. reflexivity.
  - eexists. eexists. split; [reflexivity|]. repeat split. by left.
  - eexists. eexists. split; [reflexivity|]. repeat split. by left.
Qed.

End PlatformFacts.

(** [sync_member_fp_role] split into its two steps. *)
Lemma sync_steps (answers : ext_call -> answer) (member : Member) (new_fp : Z)
    (p p1 : platform) (res : result unit) :
  (match List.filter is_fp_role (member_roles member p) with
   | [] => ret tt
   | _ => except_forbidden_pass
            (remove_roles answers member (List.filter is_fp_role (member_roles member p)))
   end) p = (res, p1) ->
  sync_member_fp_role answers member new_fp p =
    match res with
    | Raise e => (Raise e, p1)
    | Ok _ =>
        match utils_get (guild_roles p) (fp_label new_fp) with
        | Some target =>
            match except_forbidden_pass (add_roles answers member [target]) p1 with
            | (Ok _, p2) => (Ok true, p2)
            | (Raise e, p2) => (Raise e, p2)
            end
        | None => (Ok false, p1)
        end
    end.
Proof.
  intros H1. unfold sync_member_fp_role. unfold bind at 1. rewrite H1.
  destruct res as [[]|e]; [|reflexivity].
  destruct (utils_get _ _) as [target|]; [|reflexivity].
  unfold bind. destruct (except_forbidden_pass _ p1) as [[[]|e] p2]; reflexivity.
Qed.

(** A sync sends requests about its member only and leaves the rest of
    the guild alone.  It raises only when one of its requests failed, and
    then with [HTTPException]; otherwise it returns whether the guild has
    the target role. *)
Lemma sync_frame (answers : ext_call -> answer) (member : Member) (new_fp : Z)
    (p : platform) :
  exists (res : result bool) (p' : platform) (new : list ext_call),
    sync_member_fp_role answers member new_fp p = (res, p')
    /\ same_guild member p p'
    /\ calls p' = calls p ++ new
    /\ (forall c, In c new -> call_member c = m_id member)
    /\ ((res = Raise HTTPException /\ exists c, In c new /\ answers c = Failed)
        \/ (exists existed, res = Ok existed
            /\ (existed = true <->
                exists r, In r (guild_roles p) /\ role_name r = fp_label new_fp))).
Proof.
  destruct (removal_step answers member
              (List.filter is_fp_role (member_roles member p)) p)
    as (p1 & attempted & removed & res1 & H1 & Hg1 & Hc1 & _ & Hcase).
  rewrite (sync_steps answers member new_fp p p1 res1 H1).
  assert (Hatt : forall c, In c (map (RemoveRole (m_id member)) attempted) ->
                           call_member c = m_id member).
  { intros c Hc. apply in_map_iff in Hc as (r & <- & _). reflexivity. }
  assert (Hres1 : res1 = Ok tt \/
                  (res1 = Raise HTTPException /\
                   exists c, In c (map (RemoveRole (m_id member)) attempted)
                             /\ answers c = Failed)).
  { destruct Hcase as [(_ & _ & -> & _) | (pre & r & post & _ & -> & _ & _ & Hr)];
      [by left|].
    destruct Hr as [[_ ->] | [Hr ->]]; [by left|]. right. split; [reflexivity|].
    exists (RemoveRole (m_id member) r). split; [|exact Hr].
    apply in_map, in_or_app. right. by left. }
  destruct Hres1 as [-> | [-> (c & Hc & Hf)]].
  - destruct (utils_get (guild_roles p) (fp_label new_fp)) as [target|] eqn:Ht.
    + destruct (attach_step answers member target p1) as (p2 & res2 & H2 & Hg2 & Hc2 & _ & Ha).
      rewrite H2.
      assert (Hnew : forall c, In c (map (RemoveRole (m_id member)) attempted
                                       ++ [AddRole (m_id member) target]) ->
                               call_member c = m_id member).
      { intros c Hc. apply in_app_or in Hc as [Hc | [<- | []]];
          [by apply Hatt | reflexivity]. }
      assert (Hcalls : calls p2 = calls p ++ map (RemoveRole (m_id member)) attempted
                                    ++ [AddRole (m_id member) target])
        by (rewrite Hc2, Hc1; by rewrite <- app_assoc).
      assert (Hsame : same_guild member p p2) by (eapply same_guild_trans; eassumption).
      assert (Hex : exists r, In r (guild_roles p) /\ role_name r = fp_label new_fp)
        by (apply utils_get_is_some; by exists target).
      destruct (answers (AddRole (m_id member) target)) eqn:Hans.
      * destruct Ha as [-> _]. eexists. exists p2. eexists.
        split; [reflexivity|]. split; [exact Hsame|]. split; [exact Hcalls|].
        split; [exact Hnew|]. right. exists true. split; [reflexivity|]. by split.
      * destruct Ha as [-> _]. eexists. exists p2. eexists.
        split; [reflexivity|]. split; [exact Hsame|]. split; [exact Hcalls|].
        split; [exact Hnew|]. right. exists true. split; [reflexivity|]. by split.
      * destruct Ha as [-> _]. eexists. exists p2. eexists.
        split; [reflexivity|]. split; [exact Hsame|]. split; [exact Hcalls|].
        split; [exact Hnew|]. left. split; [reflexivity|].
        exists (AddRole (m_id member) target). split; [|exact Hans].
        apply in_or_app. right. by left.
    + eexists. exists p1. exists (map (RemoveRole (m_id member)) attempted).
      split; [reflexivity|]. split; [exact Hg1|]. split; [exact Hc1|].
      split; [exact Hatt|]. right. exists false. split; [reflexivity|].
      split; [discriminate|]. intros Hex. apply utils_get_is_some in Hex as [r Hr].
      rewrite Ht in Hr. discriminate.
  - eexists. exists p1. exists (map (RemoveRole (m_id member)) attempted).
    split; [reflexivity|]. split; [exact Hg1|]. split; [exact Hc1|].
    split; [exact Hatt|]. left. split; [reflexivity|]. by exists c.
Qed.

(** A sync on a member none of whose roles matches the pattern, when the
    guild has the target role and the platform attaches it. *)
Lemma sync_attaches (answers : ext_call -> answer) (member : Member) (new_fp : Z)
    (p : platform) (target : Role) :
  List.filter is_fp_role (member_roles member p) = [] ->
  utils_get (guild_roles p) (fp_label new_fp) = Some target ->
  answers (AddRole (m_id member) target) = Performed ->
  sync_member_fp_role answers member new_fp p =
    (Ok true,
     set_held member
       (if holds target (member_roles member p) then member_roles member p
        else member_roles member p ++ [target])
       (log_call (AddRole (m_id member) target) p)).
Proof.
  intros Hnone Ht Hans. unfold sync_member_fp_role. rewrite Hnone, Ht.
  unfold bind, ret, except_forbidden_pass, add_roles, for_each, bind, add_role.
  rewrite Hans. reflexivity.
Qed.

(** C5 fails in the code for the label of a negative score.  The guild
    has the roles [r_old] and [r_new] named after the scores [old_fp < 0]
    and [new_fp >= 0], the member holds no role, and the platform performs
    every request.  A sync to [old_fp] returns [True] and gives the member
    [r_old]; the following sync to [new_fp] returns [True], requests no
    removal, and leaves the member with both score labels, [r_old] next to
    [r_new]. *)
Theorem sync_keeps_negative_score_label (member : Member) (old_fp new_fp : Z)
    (p : platform) (r_old r_new : Role) :
  old_fp < 0 -> 0 <= new_fp ->
  utils_get (guild_roles p) (fp_label old_fp) = Some r_old ->
  utils_get (guild_roles p) (fp_label new_fp) = Some r_new ->
  role_id r_old <> role_id r_new ->
  member_roles member p = [] ->
  exists p1 p2 : platform,
    sync_member_fp_role (fun _ => Performed) member old_fp p = (Ok true, p1)
    /\ member_roles member p1 = [r_old]
    /\ sync_member_fp_role (fun _ => Performed) member new_fp p1 = (Ok true, p2)
    /\ member_roles member p2 = [r_old; r_new]
    /\ role_name r_old = fp_label old_fp
    /\ role_name r_new = fp_label new_fp
    /\ fp_label old_fp <> fp_label new_fp
    /\ calls p2 = calls p ++ [AddRole (m_id member) r_old; AddRole (m_id member) r_new].
Proof.
  intros Hold Hnew Ht_old Ht_new Hids Hroles.
  pose proof (utils_get_some _ _ _ Ht_old) as [_ Hname_old].
  pose proof (utils_get_some _ _ _ Ht_new) as [_ Hname_new].
  assert (Hno : is_fp_role r_old = false).
  { destruct r_old as [id name]. simpl in Hname_old. subst name.
    rewrite is_fp_role_fp_label. by apply Z.leb_gt. }
  set (p1 := set_held member [r_old] (log_call (AddRole (m_id member) r_old) p)).
  set (p2 := set_held member [r_old; r_new] (log_call (AddRole (m_id member) r_new) p1)).
  assert (H1 : sync_member_fp_role (fun _ => Performed) member old_fp p = (Ok true, p1)).
  { rewrite (sync_attaches _ member old_fp p r_old); [|by rewrite Hroles|exact Ht_old|reflexivity].
    by rewrite Hroles. }
  assert (Hm1 : member_roles member p1 = [r_old]) by apply member_roles_set_held.
  assert (H2 : sync_member_fp_role (fun _ => Performed) member new_fp p1 = (Ok true, p2)).
  { rewrite (sync_attaches _ member new_fp p1 r_new); [| |exact Ht_new|reflexivity].
    - rewrite Hm1. unfold holds. simpl.
      assert ((role_id r_old =? role_id r_new) = false) as -> by by apply Z.eqb_neq.
      reflexivity.
    - rewrite Hm1. simpl. by rewrite Hno. }
  exists p1, p2. split; [exact H1|]. split; [exact Hm1|]. split; [exact H2|].
  split; [apply member_roles_set_held|]. split; [exact Hname_old|].
  split; [exact Hname_new|]. split; [by apply fp_label_sign|].
  simpl. by rewrite <- app_assoc.
Qed.

Lemma sync_keeps_negative_score_label_witness :
  let debt := MkRole 7 "-5 FP" in
  let r12 := MkRole 8 "12 FP" in
  let member := MkMember 10 false in
  let p := Platform [debt; r12] [member] ∅ [] in
  exists p1 p2 : platform,
    sync_member_fp_role (fun _ => Performed) member (-5) p = (Ok true, p1)
    /\ sync_member_fp_role (fun _ => Performed) member 12 p1 = (Ok true, p2)
    /\ member_roles member p2 = [debt; r12].
Proof.
  intros debt r12 member p.
  destruct (sync_keeps_negative_score_label member (-5) 12 p debt r12)
    as (p1 & p2 & H1 & _ & H2 & Hm2 & _);
    [lia | lia | reflexivity | reflexivity | discriminate | reflexivity |].
  exists p1, p2. split; [exact H1|]. split; [exact H2 | exact Hm2].
Defined.

(** Apart from the labels of negative scores, a refused removal also
    leaves a score label on the member: when the platform refuses to take
    "7 FP" away, the member still holds it after a sync to 12, next to
    "12 FP". *)
Lemma sync_leaves_refused_label :
  let r7 := MkRole 1 "7 FP" in
  let r12 := MkRole 2 "12 FP" in
  let rm := MkRole 3 "Moderator" in
  let member := MkMember 10 false in
  let p := Platform [r7; r12; rm] [member] {[ 10 := [r7; rm] ]} [] in
  let answers := fun c => match c with
                          | RemoveRole _ r => if role_id r =? 1 then Refused else Performed
                          | AddRole _ _ => Performed
                          end in
  let '(existed, p') := sync_member_fp_role answers member 12 p in
  existed = Ok true
  /\ In r7 (member_roles member p')
  /\ is_fp_role r7 = true
  /\ role_name r7 <> fp_label 12.
Proof. vm_compute. repeat split; auto. discriminate. Qed.

(** What a sync guarantees when no request fails: it returns [True]
    exactly when the guild has a role named [f"{new_fp} FP"]; a role of the
    member whose name does not match the pattern is not taken away; and,
    when the platform refuses none of the removals, every role matching the
    pattern that the member holds afterwards is that target role. *)
Lemma sync_result_and_labels (answers : ext_call -> answer) (member : Member)
    (new_fp : Z) (p : platform) :
  (forall x y, In x (member_roles member p) -> In y (member_roles member p) ->
               role_id x = role_id y -> x = y) ->
  (forall c, answers c <> Failed) ->
  exists (existed : bool) (p' : platform),
    sync_member_fp_role answers member new_fp p = (Ok existed, p')
    /\ (existed = true <->
        exists r, In r (guild_roles p) /\ role_name r = fp_label new_fp)
    /\ (forall r, In r (member_roles member p) -> is_fp_role r = false ->
                  In r (member_roles member p'))
    /\ ((forall r, In r (member_roles member p) -> is_fp_role r = true ->
                   answers (RemoveRole (m_id member) r) = Performed) ->
        forall r, In r (member_roles member p') -> is_fp_role r = true ->
                  utils_get (guild_roles p) (fp_label new_fp) = Some r
                  /\ role_name r = fp_label new_fp)
    /\ same_guild member p p'.
Proof.
  intros Hids Hnofail.
  set (matched := List.filter is_fp_role (member_roles member p)).
  destruct (removal_step answers member matched p)
    as (p1 & attempted & removed & res1 & H1 & Hg1 & Hc1 & Hm1 & Hcase).
  pose proof (sync_steps answers member new_fp p p1 res1 H1) as Hsync.
  assert (Hres1 : res1 = Ok tt).
  { destruct Hcase as [(_ & _ & -> & _) | (pre & r & post & _ & _ & _ & _ & Hr)];
      [reflexivity|].
    destruct Hr as [[_ ->] | [Hr _]]; [reflexivity|]. by apply Hnofail in Hr. }
  subst res1.
  assert (Hsub : forall y, In y removed -> In y matched).
  { destruct Hcase as [(_ & -> & _) | (pre & r & post & -> & _ & -> & _)]; [auto|].
    intros y Hy. apply in_or_app. by left. }
  assert (Hforeign : forall r, In r (member_roles member p) -> is_fp_role r = false ->
                               In r (member_roles member p1)).
  { intros r Hr Hno. rewrite Hm1. apply in_without_all. split; [exact Hr|].
    intros y Hy Heq. apply Hsub in Hy. apply filter_In in Hy as [Hy Hfp].
    rewrite (Hids r y Hr Hy Heq) in Hno. congruence. }
  assert (Hclean : (forall r, In r (member_roles member p) -> is_fp_role r = true ->
                              answers (RemoveRole (m_id member) r) = Performed) ->
                   forall r, In r (member_roles member p1) -> is_fp_role r = false).
  { intros Hno r Hr. rewrite Hm1 in Hr. apply in_without_all in Hr as [Hr Hne].
    destruct (is_fp_role r) eqn:Hfp; [|reflexivity]. exfalso.
    assert (Hrm : In r matched) by (apply filter_In; by split).
    destruct Hcase as [(_ & -> & _) | (pre & x & post & E & _ & _ & _ & Hx)].
    - by apply (Hne r Hrm).
    - assert (In x matched) as Hxm by (rewrite E; apply in_or_app; right; by left).
      apply filter_In in Hxm as [Hxin Hxfp]. specialize (Hno x Hxin Hxfp).
      destruct Hx as [[Hx _] | [Hx _]]; rewrite Hno in Hx; discriminate. }
  destruct (utils_get (guild_roles p) (fp_label new_fp)) as [target|] eqn:Ht.
  - destruct (attach_step answers member target p1)
      as (p2 & res2 & H2 & Hg2 & Hc2 & Hm2 & Ha).
    assert (res2 = Ok tt) as ->.
    { destruct (answers (AddRole (m_id member) target)) eqn:Hans;
        [apply Ha | apply Ha | by apply Hnofail in Hans]. }
    rewrite H2 in Hsync.
    exists true, p2. split; [exact Hsync|]. split; [|split; [|split]].
    + split; [intros _|reflexivity]. apply utils_get_is_some. by exists target.
    + intros r Hr Hno. specialize (Hforeign r Hr Hno).
      destruct Hm2 as [-> | ->]; [exact Hforeign | apply in_or_app; by left].
    + intros Hno r Hr Hfp. specialize (Hclean Hno).
      destruct Hm2 as [E | E]; rewrite E in Hr.
      * rewrite (Hclean r Hr) in Hfp. discriminate.
      * apply in_app_or in Hr as [Hr | [<- | []]].
        -- rewrite (Hclean r Hr) in Hfp. discriminate.
        -- split; [reflexivity|]. by apply utils_get_some in Ht as [_ ?].
    + eapply same_guild_trans; eassumption.
  - exists false, p1. split; [exact Hsync|]. split; [|split; [|split]].
    + split; [discriminate|]. intros Hex. apply utils_get_is_some in Hex as [r Hr].
      rewrite Ht in Hr. discriminate.
    + exact Hforeign.
    + intros Hno r Hr Hfp. rewrite (Hclean Hno r Hr) in Hfp. discriminate.
    + exact Hg1.
Qed.

(** C6 as stated fails: "7 FP" is refused, and the removal does not go on
    to "9 FP", which the platform would have taken away: no request is sent
    for it and the member still holds it. *)
Lemma sync_stops_removing_after_refusal :
  let r7 := MkRole 1 "7 FP" in
  let r9 := MkRole 4 "9 FP" in
  let rm := MkRole 3 "Moderator" in
  let member := MkMember 10 false in
  let p := Platform [r7; r9; rm] [member] {[ 10 := [r7; rm; r9] ]} [] in
  let answers := fun c => match c with
                          | RemoveRole _ r => if role_id r =? 1 then Refused else Performed
                          | AddRole _ _ => Performed
                          end in
  let p' := snd (sync_member_fp_role answers member 12 p) in
  answers (RemoveRole 10 r9) = Performed
  /\ is_fp_role r9 = true
  /\ In r9 (member_roles member p')
  /\ ~ In (RemoveRole 10 r9) (calls p').
Proof.
  vm_compute. repeat split; auto.
  intros [H | []]. discriminate.
Qed.

(** C6, amended. When the platform does not perform the removal of one of
    the matched roles, the removal stops there: the matched roles before
    that one have been requested and taken away, that one and those after
    it stay, and no removal is requested for those after it.  When the
    request was refused, the sync goes on to the target role and its result
    is what it is when every removal is performed.  When the request failed
    in another way, the sync raises that failure and attaches nothing. *)
Theorem sync_swallows_removal_refusal (answers : ext_call -> answer) (member : Member)
    (new_fp : Z) (p : platform) (pre : list Role) (r : Role) (post : list Role) :
  List.filter is_fp_role (member_roles member p) = pre ++ r :: post ->
  (forall y, In y pre -> answers (RemoveRole (m_id member) y) = Performed) ->
  answers (RemoveRole (m_id member) r) <> Performed ->
  let removals_performed :=
    fun c => match c with
             | RemoveRole _ _ => Performed
             | AddRole _ _ => answers c
             end in
  exists (res : result bool) (p' : platform) (attach : list ext_call),
    sync_member_fp_role answers member new_fp p = (res, p')
    /\ calls p' = calls p ++ map (RemoveRole (m_id member)) (pre ++ [r]) ++ attach
    /\ (forall c, In c attach -> exists target, c = AddRole (m_id member) target)
    /\ (forall x, In x (member_roles member p) ->
                  (forall y, In y pre -> role_id x <> role_id y) ->
                  In x (member_roles member p'))
    /\ (forall x, In x (member_roles member p') ->
                  (exists y, In y pre /\ role_id x = role_id y) ->
                  utils_get (guild_roles p) (fp_label new_fp) = Some x)
    /\ (answers (RemoveRole (m_id member) r) = Refused ->
          res = fst (sync_member_fp_role removals_performed member new_fp p)
          /\ res <> Raise Forbidden
          /\ ((forall target, answers (AddRole (m_id member) target) <> Failed) ->
              exists existed, res = Ok existed))
    /\ (answers (RemoveRole (m_id member) r) = Failed ->
          res = Raise HTTPException /\ attach = []).
Proof.
  intros Hm Hpre Hr removals_performed.
  destruct (remove_roles_stopped answers member pre r post p Hpre Hr)
    as (p1 & Hrun & Hg1 & Hc1 & Hm1).
  set (res1 := match answers (RemoveRole (m_id member) r) with
               | Failed => Raise HTTPException
               | _ => Ok tt
               end : result unit).
  assert (H1 : (match List.filter is_fp_role (member_roles member p) with
                | [] => ret tt
                | _ => except_forbidden_pass
                         (remove_roles answers member
                            (List.filter is_fp_role (member_roles member p)))
                end) p = (res1, p1)).
  { rewrite Hm. subst res1. destruct pre; simpl; unfold except_forbidden_pass;
      simpl in Hrun; rewrite Hrun;
      destruct (answers (RemoveRole (m_id member) r)); reflexivity. }
  pose proof (sync_steps answers member new_fp p p1 res1 H1) as Hsync.
  assert (Hkept : forall x, In x (member_roles member p) ->
                    (forall y, In y pre -> role_id x <> role_id y) ->
                    In x (member_roles member p1)).
  { intros x Hx Hne. rewrite Hm1. apply in_without_all. by split. }
  assert (Hgone : forall x, In x (member_roles member p1) ->
                    (exists y, In y pre /\ role_id x = role_id y) -> False).
  { intros x Hx (y & Hy & Heq). rewrite Hm1 in Hx.
    apply in_without_all in Hx as [_ Hne]. by apply (Hne y Hy). }
  destruct (answers (RemoveRole (m_id member) r)) eqn:Hans; [contradiction| |].
  - (* refused: the sync goes on *)
    subst res1.
    destruct (removal_step removals_performed member
                (List.filter is_fp_role (member_roles member p)) p)
      as (q1 & qatt & qrem & qres & G1 & _ & _ & _ & Gcase).
    assert (Hq : qres = Ok tt).
    { destruct Gcase as [(_ & _ & Hq & _) | (? & ? & ? & _ & _ & _ & _ & [[G _] | [G _]])];
        [exact Hq | discriminate G | discriminate G]. }
    rewrite Hq in G1. clear Gcase Hq.
    pose proof (sync_steps removals_performed member new_fp p q1 (Ok tt) G1) as Gsync.
    destruct (utils_get (guild_roles p) (fp_label new_fp)) as [target|] eqn:Ht.
    + destruct (attach_step answers member target p1)
        as (p2 & res2 & H2 & Hg2 & Hc2 & Hm2 & Ha).
      destruct (attach_step removals_performed member target q1)
        as (q2 & qres2 & G2 & _ & _ & _ & Ga).
      change (removals_performed (AddRole (m_id member) target))
        with (answers (AddRole (m_id member) target)) in Ga.
      rewrite H2 in Hsync. rewrite G2 in Gsync.
      assert (Hcalls : calls p2 = calls p ++ map (RemoveRole (m_id member)) (pre ++ [r])
                                    ++ [AddRole (m_id member) target])
        by (rewrite Hc2, Hc1; by rewrite <- app_assoc).
      assert (Hattach : forall c, In c [AddRole (m_id member) target] ->
                                  exists t, c = AddRole (m_id member) t)
        by (intros c [<- | []]; by exists target).
      assert (Hkept2 : forall x, In x (member_roles member p) ->
                         (forall y, In y pre -> role_id x <> role_id y) ->
                         In x (member_roles member p2)).
      { intros x Hx Hne. specialize (Hkept x Hx Hne).
        destruct Hm2 as [-> | ->]; [exact Hkept | apply in_or_app; by left]. }
      assert (Hgone2 : forall x, In x (member_roles member p2) ->
                         (exists y, In y pre /\ role_id x = role_id y) ->
                         Some target = Some x).
      { intros x Hx Hy. destruct Hm2 as [E | E]; rewrite E in Hx.
        - exfalso. by apply (Hgone x).
        - apply in_app_or in Hx as [Hx | [<- | []]]; [|reflexivity].
          exfalso. by apply (Hgone x). }
      destruct (answers (AddRole (m_id member) target)) eqn:Hadd;
        destruct Ha as [-> _]; destruct Ga as [-> _]; cbn [fst] in *.
      * exists (Ok true), p2, [AddRole (m_id member) target].
        split; [exact Hsync|]. split; [exact Hcalls|]. split; [exact Hattach|].
        split; [exact Hkept2|]. split; [exact Hgone2|]. split; [|discriminate].
        intros _. rewrite Gsync. split; [reflexivity|]. split; [discriminate|].
        intros _. by exists true.
      * exists (Ok true), p2, [AddRole (m_id member) target].
        split; [exact Hsync|]. split; [exact Hcalls|]. split; [exact Hattach|].
        split; [exact Hkept2|]. split; [exact Hgone2|]. split; [|discriminate].
        intros _. rewrite Gsync. split; [reflexivity|]. split; [discriminate|].
        intros _. by exists true.
      * exists (Raise HTTPException), p2, [AddRole (m_id member) target].
        split; [exact Hsync|]. split; [exact Hcalls|]. split; [exact Hattach|].
        split; [exact Hkept2|]. split; [exact Hgone2|]. split; [|discriminate].
        intros _. rewrite Gsync. split; [reflexivity|]. split; [discriminate|].
        intros Hnofail. by apply Hnofail in Hadd.
    + eexists. exists p1, []. split; [exact Hsync|].
      split; [by rewrite app_nil_r|]. split; [intros c []|].
      split; [exact Hkept|].
      split; [intros x Hx Hy; exfalso; by apply (Hgone x)|].
      split; [|discriminate].
      intros _. rewrite Gsync. cbn [fst]. split; [reflexivity|].
      split; [discriminate|]. intros _. by exists false.
  - (* failed: the sync raises *)
    subst res1. eexists. exists p1, []. split; [exact Hsync|].
    split; [by rewrite app_nil_r|]. split; [intros c []|].
    split; [exact Hkept|].
    split; [intros x Hx Hy; exfalso; by apply (Hgone x)|].
    split; [discriminate|]. intros _. by split.
Qed.

Lemma sync_swallows_removal_refusal_witness :
  let r7 := MkRole 1 "7 FP" in
  let r9 := MkRole 4 "9 FP" in
  let rm := MkRole 3 "Moderator" in
  let member := MkMember 10 false in
  let p := Platform [r7; r9; rm] [member] {[ 10 := [r7; rm; r9] ]} [] in
  let answers := fun c => match c with
                          | RemoveRole _ r => if role_id r =? 1 then Refused else Performed
                          | AddRole _ _ => Performed
                          end in
  exists (existed : bool) (p' : platform),
    sync_member_fp_role answers member 12 p = (Ok existed, p')
    /\ In r9 (member_roles member p').
Proof.
  intros r7 r9 rm member p answers.
  destruct (sync_swallows_removal_refusal answers member 12 p [] r7 [r9])
    as (res & p' & attach & Hrun & _ & _ & Hstay & _ & Hrefused & _);
    [reflexivity | intros y [] | discriminate |].
  destruct (Hrefused eq_refl) as (_ & _ & Hok).
  destruct Hok as [existed ->]; [intros target; discriminate|].
  exists existed, p'. split; [exact Hrun|].
  apply Hstay; [vm_compute; auto | intros y []].
Defined.

(** ** The score ledger *)

Lemma get_fp_run (user_id : Z) (s : store) :
  get_fp user_id s = (Ok (default 0 (user_fp s !! user_id)), s).
Proof. reflexivity. Qed.

(** [set_fp] stores a score that fits in 64 bits, and raises without
    writing otherwise. *)
Lemma set_fp_run (user_id value : Z) (s : store) :
  set_fp user_id value s =
    if fits_int64 value
    then (Ok tt, set_user_fp (<[user_id := value]> (user_fp s)) s)
    else (Raise OverflowError, s).
Proof.
  unfold set_fp, with_connection, bind, db, execute_ddl, execute_dml, commit, close,
    connect, create_user_fp, upsert_fp.
  cbn [working durable in_txn journal fst snd].
  destruct (fits_int64 value); reflexivity.
Qed.

Lemma fits_int64_iff (v : Z) : fits_int64 v = true <-> - 2 ^ 63 <= v < 2 ^ 63.
Proof. unfold fits_int64. rewrite andb_true_iff, Z.leb_le, Z.ltb_lt. reflexivity. Qed.

(** The write and the sync of [!fp] and [!fpset]: the score is stored
    before the role is synced, so it stays stored when the sync raises. *)
Lemma write_and_sync (answers : ext_call -> answer) (member : Member) (new : Z)
    (w : world) :
  (on_store (set_fp (m_id member) new) >>
   let* existed := on_platform (sync_member_fp_role answers member new) in
   ret (new, existed)) w =
    if fits_int64 new then
      let '(res, p') := sync_member_fp_role answers member new (w_platform w) in
      (match res with
       | Ok existed => Ok (new, existed)
       | Raise e => Raise e
       end,
       {| w_store := set_user_fp (<[m_id member := new]> (user_fp (w_store w))) (w_store w);
          w_platform := p'; w_gate := w_gate w |})
    else (Raise OverflowError, w).
Proof.
  unfold bind, on_store, on_platform, ret. rewrite set_fp_run.
  destruct (fits_int64 new).
  - cbn [w_platform w_store w_gate].
    destruct (sync_member_fp_role answers member new (w_platform w)) as [[existed|e] p'];
      reflexivity.
  - by destruct w.
Qed.

(** Lines 198-201 of [fp]: read the score, add the delta, write the sum,
    sync the role; the new score is returned. *)
Lemma fp_run (answers : ext_call -> answer) (member : Member) (delta : Z) (w : world) :
  let new := default 0 (user_fp (w_store w) !! m_id member) + delta in
  fp answers member delta w =
    if fits_int64 new then
      let '(res, p') := sync_member_fp_role answers member new (w_platform w) in
      (match res with
       | Ok existed => Ok (new, existed)
       | Raise e => Raise e
       end,
       {| w_store := set_user_fp (<[m_id member := new]> (user_fp (w_store w))) (w_store w);
          w_platform := p'; w_gate := w_gate w |})
    else (Raise OverflowError, w).
Proof.
  intros new. unfold fp. unfold bind at 1. unfold on_store at 1. rewrite get_fp_run.
  fold new.
  replace {| w_store := w_store w; w_platform := w_platform w; w_gate := w_gate w |}
    with w by by destruct w.
  apply (write_and_sync answers member new w).
Qed.

Lemma fpset_run (answers : ext_call -> answer) (member : Member) (value : Z) (w : world) :
  fpset answers member value w =
    if fits_int64 value then
      let '(res, p') := sync_member_fp_role answers member value (w_platform w) in
      (match res with
       | Ok existed => Ok (value, existed)
       | Raise e => Raise e
       end,
       {| w_store := set_user_fp (<[m_id member := value]> (user_fp (w_store w))) (w_store w);
          w_platform := p'; w_gate := w_gate w |})
    else (Raise OverflowError, w).
Proof. apply write_and_sync. Qed.

(** What [!fp] leaves in the store when the new score fits, whatever the
    platform answers; when no request fails the new score is returned. *)
Lemma fp_stores (answers : ext_call -> answer) (member : Member) (delta : Z) (w : world) :
  let new := default 0 (user_fp (w_store w) !! m_id member) + delta in
  fits_int64 new = true ->
  w_store (snd (fp answers member delta w)) =
    set_user_fp (<[m_id member := new]> (user_fp (w_store w))) (w_store w)
  /\ w_gate (snd (fp answers member delta w)) = w_gate w
  /\ ((forall c, answers c <> Failed) ->
      exists existed, fst (fp answers member delta w) = Ok (new, existed)).
Proof.
  intros new Hfits. rewrite fp_run. fold new. rewrite Hfits.
  destruct (sync_frame answers member new (w_platform w))
    as (res & p' & calls' & Hs & _ & _ & _ & Hres).
  rewrite Hs. cbn [fst snd w_store w_gate]. split; [reflexivity|]. split; [reflexivity|].
  intros Hnofail. destruct Hres as [(_ & c & _ & Hc) | (existed & -> & _)].
  - by apply Hnofail in Hc.
  - by exists existed.
Qed.

Lemma fpset_stores (answers : ext_call -> answer) (member : Member) (value : Z)
    (w : world) :
  fits_int64 value = true ->
  w_store (snd (fpset answers member value w)) =
    set_user_fp (<[m_id member := value]> (user_fp (w_store w))) (w_store w)
  /\ w_gate (snd (fpset answers member value w)) = w_gate w
  /\ ((forall c, answers c <> Failed) ->
      exists existed, fst (fpset answers member value w) = Ok (value, existed)).
Proof.
  intros Hfits. rewrite fpset_run, Hfits.
  destruct (sync_frame answers member value (w_platform w))
    as (res & p' & calls' & Hs & _ & _ & _ & Hres).
  rewrite Hs. cbn [fst snd w_store w_gate]. split; [reflexivity|]. split; [reflexivity|].
  intros Hnofail. destruct Hres as [(_ & c & _ & Hc) | (existed & -> & _)].
  - by apply Hnofail in Hc.
  - by exists existed.
Qed.

(** C4 as stated fails for integers outside the 64-bit range: from an
    absent score, [!fp] with [2^63] raises [OverflowError] and stores
    nothing, so [!fp] with [-1] after it leaves the score [-1], while
    [!fpset] to [2^63 + -1] stores [2^63 - 1]. *)
Lemma fp_twice_differs_on_overflow :
  let member := MkMember 10 false in
  let w := World (Store ∅ None None) (Platform [] [member] ∅ []) (Gate ∅ []) in
  let performs := fun _ : ext_call => Performed in
  let w1 := snd (fp performs member (2 ^ 63) w) in
  let w2 := snd (fp performs member (-1) w1) in
  let w3 := snd (fpset performs member (2 ^ 63 + -1) w) in
  fst (fp performs member (2 ^ 63) w) = Raise OverflowError
  /\ w_store w1 = w_store w
  /\ fst (get_fp 10 (w_store w2)) = Ok (-1)
  /\ fst (get_fp 10 (w_store w3)) = Ok (2 ^ 63 - 1).
Proof. vm_compute. repeat split. Qed.

(** C4, amended. For a member with no stored score and integers [a], [b]
    such that [a] and [a + b] fit in a signed 64-bit integer, [!fp] with
    delta [a] and then [!fp] with delta [b] leave the same store as a
    single [!fpset] to [a + b] from the same state, with [a + b] as the
    member's score, whatever the platform answers to the role requests;
    when none of them fails, the commands return [a], [a + b] and
    [a + b]. *)
Theorem fp_twice_equals_fpset (answers : ext_call -> answer) (member : Member)
    (a b : Z) (w : world) :
  user_fp (w_store w) !! m_id member = None ->
  fits_int64 a = true -> fits_int64 (a + b) = true ->
  exists (w1 w2 w3 : world),
    snd (fp answers member a w) = w1
    /\ snd (fp answers member b w1) = w2
    /\ snd (fpset answers member (a + b) w) = w3
    /\ w_store w2 = w_store w3
    /\ user_fp (w_store w2) = <[m_id member := a + b]> (user_fp (w_store w))
    /\ get_fp (m_id member) (w_store w2) = (Ok (a + b), w_store w2)
    /\ ((forall c, answers c <> Failed) ->
        exists e1 e2 e3 : bool,
          fp answers member a w = (Ok (a, e1), w1)
          /\ fp answers member b w1 = (Ok (a + b, e2), w2)
          /\ fpset answers member (a + b) w = (Ok (a + b, e3), w3)).
Proof.
  intros Habsent Ha Hab.
  pose proof (fp_stores answers member a w) as H1. cbv zeta in H1.
  rewrite Habsent in H1. cbn [default] in H1. rewrite Z.add_0_l in H1.
  destruct (H1 Ha) as (S1 & _ & R1). clear H1.
  set (w1 := snd (fp answers member a w)) in *.
  assert (Hread : user_fp (w_store w1) !! m_id member = Some a).
  { rewrite S1. simpl. by rewrite lookup_insert_eq. }
  pose proof (fp_stores answers member b w1) as H2. cbv zeta in H2.
  rewrite Hread in H2. cbn [default] in H2.
  destruct (H2 Hab) as (S2 & _ & R2). clear H2.
  set (w2 := snd (fp answers member b w1)) in *.
  destruct (fpset_stores answers member (a + b) w Hab) as (S3 & _ & R3).
  set (w3 := snd (fpset answers member (a + b) w)) in *.
  assert (Hfp : user_fp (w_store w2) = <[m_id member := a + b]> (user_fp (w_store w))).
  { rewrite S2, S1. simpl. by rewrite insert_insert_eq. }
  exists w1, w2, w3. repeat (split; [reflexivity|]).
  split; [|split; [exact Hfp|split]].
  - rewrite S2, S3, S1. unfold set_user_fp; simpl. by rewrite insert_insert_eq.
  - rewrite get_fp_run, Hfp. by rewrite lookup_insert_eq.
  - intros Hnofail.
    destruct (R1 Hnofail) as [e1 E1]. destruct (R2 Hnofail) as [e2 E2].
    destruct (R3 Hnofail) as [e3 E3]. exists e1, e2, e3.
    split; [|split].
    + subst w1. destruct (fp answers member a w). simpl in *. by rewrite E1.
    + subst w2. destruct (fp answers member b w1). simpl in *. by rewrite E2.
    + subst w3. destruct (fpset answers member (a + b) w). simpl in *. by rewrite E3.
Qed.

Lemma fp_twice_equals_fpset_witness :
  let member := MkMember 10 false in
  let w := World (Store ∅ None None) (Platform [] [member] ∅ []) (Gate ∅ []) in
  let performs := fun _ : ext_call => Performed in
  exists w2 w3 : world,
    snd (fp performs member 2 (snd (fp performs member 5 w))) = w2
    /\ snd (fpset performs member 7 w) = w3
    /\ w_store w2 = w_store w3
    /\ get_fp 10 (w_store w2) = (Ok 7, w_store w2).
Proof.
  intros member w performs.
  destruct (fp_twice_equals_fpset performs member 5 2 w eq_refl eq_refl eq_refl)
    as (w1 & w2 & w3 & H1 & H2 & H3 & Heq & _ & Hget & _).
  exists w2, w3. rewrite H1. split; [exact H2|]. split; [exact H3|].
  split; [exact Heq | exact Hget].
Defined.

(** ** The bulk adjustment *)

(** One iteration of the [!fpall] loop for a member that is not a bot.
    Nothing is raised: a score that does not fit is not written and a
    failed request ends the iteration, in both cases without counting the
    member.  The score is written before the role is synced.  Only that
    member's score changes, and the requests sent are about that member. *)
Lemma fpall_member_step (answers : ext_call -> answer) (delta : Z) (member : Member)
    (w : world) :
  let new := default 0 (user_fp (w_store w) !! m_id member) + delta in
  exists (outcome : option bool) (w' : world) (sent : list ext_call),
    try_ (let* current := on_store (get_fp (m_id member)) in
          let new := current + delta in
          on_store (set_fp (m_id member) new) >>
          on_platform (sync_member_fp_role answers member new)) w
      = (Ok outcome, w')
    /\ user_fp (w_store w') =
         (if fits_int64 new then <[m_id member := new]> (user_fp (w_store w))
          else user_fp (w_store w))
    /\ user_warnings (w_store w') = user_warnings (w_store w)
    /\ w_gate w' = w_gate w
    /\ same_guild member (w_platform w) (w_platform w')
    /\ calls (w_platform w') = calls (w_platform w) ++ sent
    /\ (forall c, In c sent -> call_member c = m_id member)
    /\ (fits_int64 new = true -> (forall c, answers c <> Failed) ->
        exists existed, outcome = Some existed).
Proof.
  intros new. unfold try_, bind at 1. unfold on_store at 1. rewrite get_fp_run.
  cbn [fst snd]. fold new.
  replace {| w_store := w_store w; w_platform := w_platform w; w_gate := w_gate w |}
    with w by by destruct w.
  unfold bind, on_store, on_platform. rewrite set_fp_run.
  destruct (fits_int64 new).
  - cbn [w_platform w_store w_gate].
    destruct (sync_frame answers member new (w_platform w))
      as (res & p' & sent & Hs & Hg & Hc & Hsent & Hres).
    rewrite Hs.
    exists (match res with Ok existed => Some existed | Raise _ => None end).
    eexists. exists sent. split; [by destruct res|].
    destruct res; cbn [w_store w_platform w_gate user_fp set_user_fp user_warnings];
      (split; [reflexivity|]); (split; [by destruct (w_store w)|]);
      (split; [reflexivity|]); (split; [exact Hg|]); (split; [exact Hc|]);
      (split; [exact Hsent|]); intros _ Hnofail.
    + by eexists.
    + destruct Hres as [(_ & c & _ & Hf) | (existed & He & _)];
        [by apply Hnofail in Hf | discriminate He].
  - exists None, w, []. split; [by destruct w|].
    repeat split; try reflexivity.
    + by rewrite app_nil_r.
    + intros c [].
    + discriminate.
Qed.

Lemma fpall_loop_cons (answers : ext_call -> answer) (delta : Z) (member : Member)
    (rest : list Member) (k : fpall_counters) :
  fpall_loop answers delta (member :: rest) k =
    if m_bot member then
      fpall_loop answers delta rest
        {| updated := updated k; skipped_bots := (skipped_bots k + 1)%nat;
           failed_syncs := failed_syncs k |}
    else
      let* outcome := try_ (
        let* current := on_store (get_fp (m_id member)) in
        let new := current + delta in
        on_store (set_fp (m_id member) new) >>
        on_platform (sync_member_fp_role answers member new)) in
      match outcome with
      | Some existed =>
          fpall_loop answers delta rest
            {| updated := (updated k + 1)%nat; skipped_bots := skipped_bots k;
               failed_syncs := if existed then failed_syncs k
                               else (failed_syncs k + 1)%nat |}
      | None => fpall_loop answers delta rest k
      end.
Proof. reflexivity. Qed.

(** The loop never raises; it counts every bot as skipped and at most the
    other members as updated; a user id that only bots carry keeps its
    score and its roles, and no request is about it. *)
Lemma fpall_loop_spec (answers : ext_call -> answer) (delta : Z) (members : list Member) :
  forall (k : fpall_counters) (w : world),
  exists (k' : fpall_counters) (w' : world) (sent : list ext_call),
    fpall_loop answers delta members k w = (Ok k', w')
    /\ (updated k <= updated k')%nat
    /\ (updated k' <=
        updated k + length (List.filter (fun m => negb (m_bot m)) members))%nat
    /\ skipped_bots k' = (skipped_bots k + length (List.filter m_bot members))%nat
    /\ calls (w_platform w') = calls (w_platform w) ++ sent
    /\ forall u, (forall m, In m members -> m_id m = u -> m_bot m = true) ->
         user_fp (w_store w') !! u = user_fp (w_store w) !! u
         /\ held (w_platform w') !! u = held (w_platform w) !! u
         /\ forall c, In c sent -> call_member c <> u.
Proof.
  induction members as [|member rest IH]; intros k w.
  - exists k, w, []. simpl. split; [reflexivity|]. split; [lia|]. split; [lia|].
    split; [lia|]. split; [by rewrite app_nil_r|]. intros u _. repeat split. intros c [].
  - rewrite fpall_loop_cons. destruct (m_bot member) eqn:Hbot.
    + destruct (IH {| updated := updated k; skipped_bots := (skipped_bots k + 1)%nat;
                      failed_syncs := failed_syncs k |} w)
        as (k' & w' & sent & Hrun & Hu1 & Hu2 & Hs & Hc & Hframe).
      exists k', w', sent. simpl in *. rewrite Hbot. simpl.
      split; [exact Hrun|]. split; [lia|]. split; [lia|]. split; [lia|].
      split; [exact Hc|].
      intros u Hbots. apply Hframe. intros m Hm. apply Hbots. by right.
    + unfold bind at 1.
      destruct (fpall_member_step answers delta member w)
        as (outcome & w1 & sent1 & Hstep & Hfp1 & _ & _ & Hg1 & Hc1 & Hsent1 & _).
      cbv zeta in Hstep. rewrite Hstep.
      assert (Hrest : forall k1, (updated k <= updated k1 <= updated k + 1)%nat ->
                skipped_bots k1 = skipped_bots k ->
                exists (k' : fpall_counters) (w' : world) (sent : list ext_call),
                  fpall_loop answers delta rest k1 w1 = (Ok k', w')
                  /\ (updated k <= updated k')%nat
                  /\ (updated k' <= updated k +
                        length (List.filter (fun m => negb (m_bot m)) (member :: rest)))%nat
                  /\ skipped_bots k' =
                       (skipped_bots k + length (List.filter m_bot (member :: rest)))%nat
                  /\ calls (w_platform w') = calls (w_platform w) ++ sent
                  /\ forall u, (forall m, In m (member :: rest) -> m_id m = u ->
                                          m_bot m = true) ->
                       user_fp (w_store w') !! u = user_fp (w_store w) !! u
                       /\ held (w_platform w') !! u = held (w_platform w) !! u
                       /\ forall c, In c sent -> call_member c <> u).
      { intros k1 Hk1 Hs1.
        destruct (IH k1 w1) as (k' & w' & sent & Hrun & Hu1 & Hu2 & Hs & Hc & Hframe).
        exists k', w', (sent1 ++ sent). simpl. rewrite Hbot. simpl.
        split; [exact Hrun|]. split; [lia|]. split; [lia|]. split; [lia|].
        split; [rewrite Hc, Hc1; by rewrite <- app_assoc|].
        intros u Hbots.
        assert (Hne : u <> m_id member).
        { intros ->. specialize (Hbots member (or_introl eq_refl) eq_refl). congruence. }
        destruct (Hframe u) as (F1 & F2 & F3); [intros m Hm; apply Hbots; by right|].
        destruct Hg1 as (_ & _ & Hheld).
        split.
        { rewrite F1, Hfp1. destruct (fits_int64 _); [|reflexivity].
          by rewrite lookup_insert_ne. }
        split; [rewrite F2; by apply Hheld|].
        intros c Hc'. apply in_app_or in Hc' as [Hc' | Hc'].
        - rewrite (Hsent1 c Hc'). congruence.
        - by apply F3. }
      destruct outcome as [existed|]; apply Hrest; simpl; lia.
Qed.

Lemma bind_run {S A B} (m : M S A) (k : A -> M S B) (s : S) :
  bind m k s = match m s with
               | (Ok a, s') => k a s'
               | (Raise e, s') => (Raise e, s')
               end.
Proof. reflexivity. Qed.

(** The loop does not read the [skipped_bots] counter. *)
Lemma fpall_loop_skipped (answers : ext_call -> answer) (delta : Z)
    (members : list Member) :
  forall (k : fpall_counters) (w : world) (n : nat),
  fpall_loop answers delta members
    {| updated := updated k; skipped_bots := (skipped_bots k + n)%nat;
       failed_syncs := failed_syncs k |} w =
  match fpall_loop answers delta members k w with
  | (Ok k', w') =>
      (Ok {| updated := updated k'; skipped_bots := (skipped_bots k' + n)%nat;
             failed_syncs := failed_syncs k' |}, w')
  | (Raise e, w') => (Raise e, w')
  end.
Proof.
  induction members as [|member rest IH]; intros k w n.
  - reflexivity.
  - rewrite !fpall_loop_cons. destruct (m_bot member).
    + cbn [updated skipped_bots failed_syncs].
      replace (skipped_bots k + n + 1)%nat with (skipped_bots k + 1 + n)%nat by lia.
      apply (IH {| updated := updated k; skipped_bots := (skipped_bots k + 1)%nat;
                   failed_syncs := failed_syncs k |} w n).
    + rewrite !bind_run.
      destruct (try_ _ w) as [[[existed|]|e] w1].
      * cbn [updated skipped_bots failed_syncs].
        apply (IH {| updated := (updated k + 1)%nat; skipped_bots := skipped_bots k;
                     failed_syncs := if existed then failed_syncs k
                                     else (failed_syncs k + 1)%nat |} w1 n).
      * apply IH.
      * reflexivity.
Qed.

(** Bots contribute nothing but the [skipped_bots] counter: the loop over
    the members leaves the world and the other counters the loop over the
    members that are not bots leaves. *)
Lemma fpall_loop_without_bots (answers : ext_call -> answer) (delta : Z)
    (members : list Member) :
  forall (k : fpall_counters) (w : world),
  exists (k' : fpall_counters) (w' : world),
    fpall_loop answers delta members k w = (Ok k', w')
    /\ fpall_loop answers delta (List.filter (fun m => negb (m_bot m)) members) k w =
         (Ok {| updated := updated k'; skipped_bots := skipped_bots k;
                failed_syncs := failed_syncs k' |}, w').
Proof.
  induction members as [|member rest IH]; intros k w.
  - exists k, w. simpl. split; [reflexivity|]. by destruct k.
  - rewrite fpall_loop_cons. cbn [List.filter]. destruct (m_bot member) eqn:Hbot.
    + cbn [negb]. rewrite fpall_loop_skipped.
      destruct (IH k w) as (k' & w' & Hrun & Hfree). rewrite Hrun.
      eexists. exists w'. split; [reflexivity|]. exact Hfree.
    + cbn [negb]. rewrite fpall_loop_cons, Hbot. rewrite !bind_run.
      destruct (try_ _ w) as [[[existed|]|e] w1] eqn:Hstep.
      * destruct (IH {| updated := (updated k + 1)%nat; skipped_bots := skipped_bots k;
                        failed_syncs := if existed then failed_syncs k
                                        else (failed_syncs k + 1)%nat |} w1)
          as (k' & w' & Hrun & Hfree).
        exists k', w'. split; [exact Hrun | exact Hfree].
      * apply IH.
      * exfalso. unfold try_ in Hstep.
        match type of Hstep with
        | (let (_, _) := ?m in _) = _ => destruct m as [[?|?] ?]
        end; discriminate.
Qed.

(** C10. [!fpall] never raises; a member flagged as a bot is passed over:
    its iteration changes nothing but the [skipped_bots] counter, its
    stored score and its roles are what they were, and no request about it
    is sent to the platform.  [skipped_bots] counts the bots, [updated],
    the number the reply reports, counts no more than the members that are
    not bots, and [updated], [failed_syncs] and the resulting state are
    those of the same loop over the guild without its bots. *)
Theorem fpall_skips_bots (answers : ext_call -> answer) (delta : Z) (w : world) :
  List.NoDup (map m_id (guild_members (w_platform w))) ->
  let members := guild_members (w_platform w) in
  let zero := {| updated := 0%nat; skipped_bots := 0%nat; failed_syncs := 0%nat |} in
  exists (k : fpall_counters) (w' : world) (sent : list ext_call),
    fpall answers delta w = (Ok k, w')
    /\ skipped_bots k = length (List.filter m_bot members)
    /\ (updated k <= length (List.filter (fun m => negb (m_bot m)) members))%nat
    /\ calls (w_platform w') = calls (w_platform w) ++ sent
    /\ (forall member, In member members -> m_bot member = true ->
          user_fp (w_store w') !! m_id member = user_fp (w_store w) !! m_id member
          /\ held (w_platform w') !! m_id member = held (w_platform w) !! m_id member
          /\ forall c, In c sent -> call_member c <> m_id member)
    /\ fpall_loop answers delta (List.filter (fun m => negb (m_bot m)) members) zero w =
         (Ok {| updated := updated k; skipped_bots := 0%nat;
                failed_syncs := failed_syncs k |}, w')
    /\ (forall member rest k0 w0, m_bot member = true ->
          fpall_loop answers delta (member :: rest) k0 w0 =
          fpall_loop answers delta rest
            {| updated := updated k0; skipped_bots := (skipped_bots k0 + 1)%nat;
               failed_syncs := failed_syncs k0 |} w0).
Proof.
  intros Hnodup members zero. unfold fpall. fold members zero.
  destruct (fpall_loop_spec answers delta members zero w)
    as (k & w' & sent & Hrun & _ & Hu & Hs & Hc & Hframe).
  destruct (fpall_loop_without_bots answers delta members zero w)
    as (k2 & w2 & Hrun2 & Hfree).
  rewrite Hrun in Hrun2. inversion Hrun2; subst k2 w2. clear Hrun2.
  exists k, w', sent. simpl in Hu, Hs.
  split; [exact Hrun|]. split; [exact Hs|]. split; [exact Hu|]. split; [exact Hc|].
  split; [|split; [exact Hfree|]].
  - intros member Hin Hbot. apply Hframe. intros m Hm Hid.
    assert (m = member) as ->; [|exact Hbot].
    clear - Hnodup Hm Hid Hin. subst members.
    induction (guild_members (w_platform w)) as [|x l IH]; [destruct Hin|].
    simpl in Hnodup. apply NoDup_cons_iff in Hnodup as [Hx Hl].
    destruct Hin as [-> | Hin]; destruct Hm as [-> | Hm]; try reflexivity.
    + exfalso. apply Hx. rewrite <- Hid. by apply in_map.
    + exfalso. apply Hx. rewrite Hid. by apply in_map.
    + by apply IH.
  - intros member rest k0 w0 Hbot. by rewrite fpall_loop_cons, Hbot.
Qed.

Lemma fpall_skips_bots_witness :
  let human := MkMember 10 false in
  let robot := MkMember 11 true in
  let w := World (Store {[ 11 := 4 ]} None None)
                 (Platform [] [human; robot] ∅ []) (Gate ∅ []) in
  exists (k : fpall_counters) (w' : world),
    fpall (fun _ => Performed) 5 w = (Ok k, w')
    /\ skipped_bots k = 1%nat
    /\ (updated k <= 1)%nat
    /\ user_fp (w_store w') !! 11 = Some 4.
Proof.
  intros human robot w.
  destruct (fpall_skips_bots (fun _ => Performed) 5 w)
    as (k & w' & sent & Hrun & Hs & Hu & _ & Hbot & _).
  { simpl. repeat constructor; simpl; intuition discriminate. }
  exists k, w'. split; [exact Hrun|]. split; [exact Hs|]. split; [exact Hu|].
  destruct (Hbot robot) as (Hfp & _); [simpl; auto | reflexivity |].
  etransitivity; [exact Hfp | reflexivity].
Defined.

(** ** Rows in id order *)

Lemma in_insert_sorted (x r : wrow) (l : list wrow) :
  In x (insert_sorted r l) <-> x = r \/ In x l.
Proof.
  induction l as [|y l IH]; simpl.
  - intuition.
  - destruct (w_id r <=? w_id y); simpl; [intuition|]. rewrite IH. intuition.
Qed.

Lemma in_order_by_id (x : wrow) (l : list wrow) :
  In x (order_by_id l) <-> In x l.
Proof.
  induction l as [|y l IH]; simpl; [reflexivity|].
  rewrite in_insert_sorted, IH. intuition.
Qed.

Lemma insert_sorted_sorted (r : wrow) (l : list wrow) :
  StronglySorted id_le l -> StronglySorted id_le (insert_sorted r l).
Proof.
  induction 1 as [|y l Hs IH Hall]; simpl.
  - repeat constructor.
  - destruct (w_id r <=? w_id y) eqn:E.
    + apply Z.leb_le in E. constructor; [by constructor|].
      constructor; [exact E|].
      rewrite List.Forall_forall in Hall. apply List.Forall_forall. intros x Hx.
      specialize (Hall x Hx). unfold id_le in *. lia.
    + apply Z.leb_gt in E. constructor; [exact IH|].
      apply List.Forall_forall. intros x Hx. apply in_insert_sorted in Hx as [-> | Hx].
      * unfold id_le; lia.
      * rewrite List.Forall_forall in Hall. by apply Hall.
Qed.

Lemma order_by_id_sorted (l : list wrow) : StronglySorted id_le (order_by_id l).
Proof.
  induction l as [|y l IH]; simpl; [constructor | by apply insert_sorted_sorted].
Qed.

Lemma insert_sorted_first (r : wrow) (l : list wrow) :
  (forall y, In y l -> w_id r <= w_id y) -> insert_sorted r l = r :: l.
Proof.
  destruct l as [|x l]; simpl; [reflexivity|]. intros H.
  assert (w_id r <= w_id x) as Hx by (apply H; by left).
  apply Z.leb_le in Hx. by rewrite Hx.
Qed.

Lemma insert_sorted_app_last (a r : wrow) (l : list wrow) :
  w_id a <= w_id r -> insert_sorted a (l ++ [r]) = insert_sorted a l ++ [r].
Proof.
  intros Har. induction l as [|x l IH]; simpl.
  - apply Z.leb_le in Har. by rewrite Har.
  - destruct (w_id a <=? w_id x); [reflexivity|]. by rewrite IH.
Qed.

(** A row whose id is larger than every other id comes last. *)
Lemma order_by_id_app_last (l : list wrow) (r : wrow) :
  (forall x, In x l -> w_id x < w_id r) ->
  order_by_id (l ++ [r]) = order_by_id l ++ [r].
Proof.
  induction l as [|a l IH]; intros H; simpl; [reflexivity|].
  rewrite IH by (intros x Hx; apply H; by right).
  apply insert_sorted_app_last. assert (w_id a < w_id r) by (apply H; by left). lia.
Qed.

Lemma filter_insert_sorted (f : wrow -> bool) (a : wrow) (l : list wrow) :
  StronglySorted id_le l ->
  List.filter f (insert_sorted a l) =
    if f a then insert_sorted a (List.filter f l) else List.filter f l.
Proof.
  induction 1 as [|x l Hs IH Hall]; simpl.
  - destruct (f a); reflexivity.
  - rewrite List.Forall_forall in Hall. destruct (w_id a <=? w_id x) eqn:E.
    + apply Z.leb_le in E. simpl. destruct (f a); [|reflexivity].
      symmetry. apply insert_sorted_first.
      intros y Hy. destruct (f x).
      * destruct Hy as [<- | Hy]; [exact E|].
        apply filter_In in Hy as [Hy _]. specialize (Hall y Hy). unfold id_le in Hall. lia.
      * apply filter_In in Hy as [Hy _]. specialize (Hall y Hy). unfold id_le in Hall. lia.
    + simpl. rewrite IH. destruct (f x), (f a); simpl; try reflexivity. by rewrite E.
Qed.

Lemma filter_order_by_id (f : wrow -> bool) (l : list wrow) :
  List.filter f (order_by_id l) = order_by_id (List.filter f l).
Proof.
  induction l as [|a l IH]; simpl; [reflexivity|].
  rewrite filter_insert_sorted by apply order_by_id_sorted.
  rewrite IH. destruct (f a); reflexivity.
Qed.

Lemma nodup_ids_insert_sorted (r : wrow) (l : list wrow) :
  List.NoDup (map w_id (insert_sorted r l)) <-> List.NoDup (map w_id (r :: l)).
Proof.
  induction l as [|x l IH]; simpl; [reflexivity|].
  destruct (w_id r <=? w_id x); simpl; [reflexivity|].
  rewrite !NoDup_cons_iff. simpl in IH. rewrite IH, NoDup_cons_iff.
  assert (Hin : In (w_id x) (map w_id (insert_sorted r l)) <->
                w_id x = w_id r \/ In (w_id x) (map w_id l)).
  { rewrite !in_map_iff. split.
    - intros (y & Hy & Hin). apply in_insert_sorted in Hin as [-> | Hin]; [by left|].
      right. by exists y.
    - intros [H | (y & Hy & Hin)].
      + exists r. split; [done|]. apply in_insert_sorted. by left.
      + exists y. split; [done|]. apply in_insert_sorted. by right. }
  rewrite Hin. simpl. intuition.
Qed.

Lemma nodup_ids_order_by_id (l : list wrow) :
  List.NoDup (map w_id l) -> List.NoDup (map w_id (order_by_id l)).
Proof.
  induction l as [|x l IH]; simpl; [auto|]. intros H.
  apply nodup_ids_insert_sorted. simpl. apply NoDup_cons_iff in H as [Hx Hl].
  apply NoDup_cons_iff. split; [|by apply IH].
  rewrite in_map_iff in *. intros (y & Hy & Hin). apply Hx. exists y. split; [done|].
  by apply in_order_by_id.
Qed.

Lemma nodup_ids_filter (f : wrow -> bool) (l : list wrow) :
  List.NoDup (map w_id l) -> List.NoDup (map w_id (List.filter f l)).
Proof.
  induction l as [|x l IH]; simpl; [auto|]. intros H.
  apply NoDup_cons_iff in H as [Hx Hl]. destruct (f x); simpl; [|by apply IH].
  apply NoDup_cons_iff. split; [|by apply IH].
  rewrite in_map_iff in *. intros (y & Hy & Hin). apply Hx. exists y. split; [done|].
  by apply filter_In in Hin as [? _].
Qed.

(** In a list in id order with distinct ids the last row has the largest
    id, and dropping the rows with that id drops exactly the last row. *)
Lemma sorted_last_is_largest (init : list wrow) (last : wrow) :
  StronglySorted id_le (init ++ [last]) ->
  List.NoDup (map w_id (init ++ [last])) ->
  (forall x, In x init -> w_id x < w_id last)
  /\ List.filter (fun r => negb (w_id r =? w_id last)) (init ++ [last]) = init.
Proof.
  induction init as [|a init IH]; simpl; intros Hs Hn.
  - split; [intros x []|]. by rewrite Z.eqb_refl.
  - apply StronglySorted_inv in Hs as [Hs Hall].
    apply NoDup_cons_iff in Hn as [Ha Hn].
    destruct (IH Hs Hn) as [Hlt Hf].
    assert (Hal : w_id a < w_id last).
    { rewrite List.Forall_forall in Hall.
      assert (id_le a last) as Hle.
      { apply Hall. apply in_or_app. right. by left. }
      unfold id_le in Hle.
      assert (w_id a <> w_id last); [|lia].
      intros Heq. apply Ha. rewrite Heq. apply in_map, in_or_app. right. by left. }
    split.
    + intros x [<- | Hx]; [exact Hal | by apply Hlt].
    + assert ((w_id a =? w_id last) = false) as -> by (apply Z.eqb_neq; lia).
      simpl. by rewrite Hf.
Qed.

(** ** The warning log *)

Ltac run_connection :=
  unfold with_connection, bind, db, query, execute_ddl, execute_dml, commit, close,
    connect, ret, create_user_fp;
  cbn [working durable in_txn journal fst snd].

Lemma remove_last_warning_run (user_id : Z) (s : store) (t : wtable) :
  user_warnings s = Some t ->
  has_col "id" t = true -> has_col "user_id" t = true ->
  remove_last_warning user_id s =
    match hd_error (rev (map w_id (order_by_id (where_user user_id (wt_rows t))))) with
    | None => (Ok false, s)
    | Some last_id =>
        (Ok true,
         set_user_warnings
           (Some {| wt_cols := wt_cols t;
                    wt_rows := List.filter (fun r => negb (w_id r =? last_id)) (wt_rows t);
                    wt_seq := wt_seq t |}) s)
    end.
Proof.
  intros Hs Hid Huser. unfold remove_last_warning. run_connection.
  unfold select_last_id. rewrite Hs, Hid, Huser. cbn [andb].
  destruct (hd_error _) as [last_id|]; [|reflexivity].
  cbn [working durable in_txn journal fst snd].
  unfold delete_by_id. rewrite Hs, Hid. reflexivity.
Qed.

Lemma hd_error_rev_last {A} (init : list A) (last : A) :
  hd_error (rev (init ++ [last])) = Some last.
Proof. by rewrite rev_app_distr. Qed.

Lemma where_user_filter (user : Z) (f : wrow -> bool) (rows : list wrow) :
  where_user user (List.filter f rows) = List.filter f (where_user user rows).
Proof.
  unfold where_user. induction rows as [|r rows IH]; simpl; [reflexivity|].
  destruct (f r) eqn:Hf, (w_user r =? user) eqn:Hu; simpl; rewrite ?Hf, ?Hu, IH; reflexivity.
Qed.

Lemma nodup_ids_unique (rows : list wrow) (a b : wrow) :
  List.NoDup (map w_id rows) -> In a rows -> In b rows -> w_id a = w_id b -> a = b.
Proof.
  induction rows as [|x l IH]; [intros _ []|].
  simpl. intros Hn Ha Hb Heq. apply NoDup_cons_iff in Hn as [Hx Hl].
  destruct Ha as [-> | Ha]; destruct Hb as [-> | Hb]; try reflexivity.
  - exfalso. apply Hx. rewrite Heq. by apply in_map.
  - exfalso. apply Hx. rewrite <- Heq. by apply in_map.
  - by apply IH.
Qed.

Lemma filter_all_true {A} (f : A -> bool) (l : list A) :
  (forall x, In x l -> f x = true) -> List.filter f l = l.
Proof.
  induction l as [|x l IH]; simpl; [reflexivity|]. intros H.
  rewrite (H x (or_introl eq_refl)), IH; [reflexivity|]. intros y Hy. apply H. by right.
Qed.

Lemma length_filter_without_id (rows : list wrow) (last : wrow) :
  List.NoDup (map w_id rows) -> In last rows ->
  (length (List.filter (fun r => negb (w_id r =? w_id last)%Z) rows) + 1 = length rows)%nat.
Proof.
  induction rows as [|x l IH]; [intros _ []|].
  simpl. intros Hn Hin. apply NoDup_cons_iff in Hn as [Hx Hl].
  destruct Hin as [-> | Hin].
  - rewrite Z.eqb_refl. simpl. rewrite filter_all_true; [lia|].
    intros y Hy. apply negb_true_iff, Z.eqb_neq. intros Heq.
    apply Hx. rewrite <- Heq. by apply in_map.
  - assert ((w_id x =? w_id last) = false) as ->.
    { apply Z.eqb_neq. intros Heq. apply Hx. rewrite Heq. by apply in_map. }
    simpl. rewrite <- (IH Hl Hin). lia.
Qed.

(** C9. On a warnings table with [id] and [user_id] columns whose ids are
    distinct: when the user has no record, [remove_last_warning] returns
    [False] and leaves the store as it is; otherwise it returns [True], and
    in the table of the resulting store, of the user's records in id order
    [init ++ [last]] exactly [init] is left: [last], whose id is the
    largest, is the one row deleted, and the records of every other user,
    the columns and the scores are what they were. *)
Theorem remove_last_warning_spec (user_id : Z) (s : store) (t : wtable) :
  user_warnings s = Some t ->
  has_col "id" t = true -> has_col "user_id" t = true ->
  List.NoDup (map w_id (wt_rows t)) ->
  (order_by_id (where_user user_id (wt_rows t)) = [] ->
   remove_last_warning user_id s = (Ok false, s))
  /\ forall init last,
       order_by_id (where_user user_id (wt_rows t)) = init ++ [last] ->
       exists (s' : store) (t' : wtable),
         remove_last_warning user_id s = (Ok true, s')
         /\ user_warnings s' = Some t'
         /\ user_fp s' = user_fp s
         /\ _uw_new s' = _uw_new s
         /\ wt_cols t' = wt_cols t
         /\ order_by_id (where_user user_id (wt_rows t')) = init
         /\ (forall x, In x init -> w_id x < w_id last)
         /\ (forall r, In r (wt_rows t') <-> In r (wt_rows t) /\ r <> last)
         /\ (length (wt_rows t') + 1 = length (wt_rows t))%nat
         /\ forall other, other <> user_id ->
              where_user other (wt_rows t') = where_user other (wt_rows t).
Proof.
  intros Hs Hid Huser Hnodup.
  rewrite (remove_last_warning_run user_id s t Hs Hid Huser).
  split.
  - intros ->. reflexivity.
  - intros init last Hmine. rewrite Hmine, map_app.
    change (map w_id [last]) with [w_id last]. rewrite hd_error_rev_last.
    eexists. eexists. split; [reflexivity|].
    split; [by destruct s|]. split; [by destruct s|]. split; [by destruct s|].
    cbn [wt_cols wt_rows]. split; [reflexivity|].
    assert (Hsorted : StronglySorted id_le (init ++ [last])).
    { rewrite <- Hmine. apply order_by_id_sorted. }
    assert (Hnd : List.NoDup (map w_id (init ++ [last]))).
    { rewrite <- Hmine. apply nodup_ids_order_by_id. unfold where_user.
      by apply nodup_ids_filter. }
    destruct (sorted_last_is_largest init last Hsorted Hnd) as [Hlt Hfilter].
    assert (Hlast : In last (wt_rows t) /\ w_user last = user_id).
    { assert (In last (order_by_id (where_user user_id (wt_rows t)))) as Hin.
      { rewrite Hmine. apply in_or_app. right. by left. }
      rewrite in_order_by_id in Hin. unfold where_user in Hin.
      apply filter_In in Hin as [Hin Hu]. split; [exact Hin|]. by apply Z.eqb_eq. }
    destruct Hlast as [Hlast_in Hlast_user].
    assert (Hunique : forall r, In r (wt_rows t) -> w_id r = w_id last -> r = last).
    { intros r Hr Heq. by apply (nodup_ids_unique (wt_rows t)). }
    split; [|split; [exact Hlt|split; [|split]]].
    + rewrite where_user_filter, <- filter_order_by_id, Hmine. exact Hfilter.
    + intros r. rewrite filter_In. split.
      * intros [Hr Hne]. split; [exact Hr|]. intros ->.
        rewrite Z.eqb_refl in Hne. discriminate.
      * intros [Hr Hne]. split; [exact Hr|]. apply negb_true_iff, Z.eqb_neq.
        intros Heq. apply Hne. by apply Hunique.
    + by apply length_filter_without_id.
    + intros other Hother. rewrite where_user_filter. apply filter_all_true.
      intros x Hx. unfold where_user in Hx. apply filter_In in Hx as [Hx Hu].
      apply negb_true_iff, Z.eqb_neq. intros Heq.
      rewrite (Hunique x Hx Heq) in Hu. apply Z.eqb_eq in Hu. congruence.
Qed.

Lemma remove_last_warning_spec_witness :
  let w1 := WRow 1 5 None (Some "first") (Some "2024-01-01") in
  let w2 := WRow 2 6 None (Some "other") (Some "2024-01-02") in
  let w3 := WRow 3 5 None (Some "second") (Some "2024-01-02") in
  let t := {| wt_cols := current_columns; wt_rows := [w1; w2; w3]; wt_seq := 3 |} in
  let s := Store ∅ (Some t) None in
  exists (s' : store) (t' : wtable),
    remove_last_warning 5 s = (Ok true, s')
    /\ user_warnings s' = Some t'
    /\ order_by_id (where_user 5 (wt_rows t')) = [w1]
    /\ where_user 6 (wt_rows t') = [w2].
Proof.
  intros w1 w2 w3 t s.
  assert (Hnodup : List.NoDup (map w_id (wt_rows t))).
  { simpl. repeat constructor; simpl; intuition discriminate. }
  destruct (remove_last_warning_spec 5 s t eq_refl eq_refl eq_refl Hnodup) as [_ H].
  destruct (H [w1] w3 eq_refl)
    as (s' & t' & Hrun & Hs' & _ & _ & _ & Hleft & _ & _ & _ & Hother).
  exists s', t'. split; [exact Hrun|]. split; [exact Hs'|]. split; [exact Hleft|].
  rewrite Hother; [reflexivity | discriminate].
Defined.

Lemma fold_left_max_ge (l : list Z) (a : Z) :
  a <= fold_left Z.max l a /\ forall x, In x l -> x <= fold_left Z.max l a.
Proof.
  revert a. induction l as [|y l IH]; intros a; simpl.
  - split; [lia | intros x []].
  - destruct (IH (Z.max a y)) as [H1 H2]. split; [lia|].
    intros x [<- | Hx]; [lia | by apply H2].
Qed.

(** The rowid given to a new row is larger than every rowid in the table. *)
Lemma next_rowid_gt (t : wtable) (r : wrow) :
  In r (wt_rows t) -> w_id r < next_rowid t.
Proof.
  unfold next_rowid, largest_rowid. destruct (wt_rows t) as [|x rows]; [intros []|].
  intros Hin. destruct (fold_left_max_ge (map w_id rows) (w_id x)) as [H1 H2].
  assert (w_id r <= fold_left Z.max (map w_id rows) (w_id x)).
  { destruct Hin as [<- | Hin]; [exact H1 | by apply H2, in_map]. }
  destruct (existsb c_autoinc (wt_cols t)); lia.
Qed.

Lemma insert_into_accepts (t : wtable) (user : Z) (reason date : string) :
  accepts_warnings t = true ->
  insert_into t user reason date =
    Ok {| wt_cols := wt_cols t;
          wt_rows := wt_rows t ++ [WRow (next_rowid t) user None (Some reason) (Some date)];
          wt_seq := next_rowid t |}.
Proof.
  unfold accepts_warnings, insert_into. intros H.
  apply andb_true_iff in H as [H1 H2]. by rewrite H1, H2.
Qed.

Lemma insert_into_missing_column (t : wtable) (user : Z) (reason date : string) :
  has_col "user_id" t && has_col "reason" t && has_col "date" t = false ->
  insert_into t user reason date = Raise OperationalError.
Proof. unfold insert_into. by intros ->. Qed.

Lemma add_warning_run (user_id : Z) (reason today : string) (s : store) (t : wtable) :
  user_warnings s = Some t ->
  add_warning user_id reason today s =
    match insert_into t user_id reason today with
    | Ok t' => (Ok tt, set_user_warnings (Some t') s)
    | Raise e => (Raise e, s)
    end.
Proof.
  intros Hs. unfold add_warning. run_connection.
  unfold create_user_warnings. rewrite Hs.
  cbn [working durable in_txn journal fst snd].
  unfold insert_warning. rewrite Hs. destruct (insert_into _ _ _ _); reflexivity.
Qed.

Lemma get_all_warnings_run (user_id : Z) (s : store) (t : wtable) :
  user_warnings s = Some t ->
  get_all_warnings user_id s = (select_warnings user_id s, s).
Proof.
  intros Hs. unfold get_all_warnings. run_connection.
  unfold create_user_warnings. rewrite Hs.
  cbn [working durable in_txn journal fst snd].
  destruct (select_warnings user_id s); reflexivity.
Qed.

(** On a table that has the current columns, [warn] adds one record with
    the given reason, or the canned one for an absent or empty reason, and
    today's date, at the end of the member's list; the lists of the other
    members stay as they are. *)
Lemma warn_appends (member_id : Z) (reason : option string) (today : string)
    (s : store) (t : wtable) :
  user_warnings s = Some t ->
  accepts_warnings t = true -> has_col "id" t = true ->
  let stored := match reason with
                | None => DEFAULT_REASON
                | Some "" => DEFAULT_REASON
                | Some r => r
                end in
  exists (s' : store) (before : list (option string * option string)),
    get_all_warnings member_id s = (Ok before, s)
    /\ warn member_id reason today s = (Ok (stored, S (length before)), s')
    /\ get_all_warnings member_id s' = (Ok (before ++ [(Some stored, Some today)]), s')
    /\ forall other, other <> member_id ->
         fst (get_all_warnings other s') = fst (get_all_warnings other s).
Proof.
  intros Hs Hacc Hid stored.
  assert (Hcols : has_col "reason" t && has_col "date" t && has_col "user_id" t
                  && has_col "id" t = true).
  { unfold accepts_warnings in Hacc.
    apply andb_true_iff in Hacc as [Hacc _].
    apply andb_true_iff in Hacc as [Hacc Hd].
    apply andb_true_iff in Hacc as [Hu Hr]. by rewrite Hu, Hr, Hd, Hid. }
  set (new := WRow (next_rowid t) member_id None (Some stored) (Some today)).
  set (t' := {| wt_cols := wt_cols t; wt_rows := wt_rows t ++ [new];
                wt_seq := next_rowid t |}).
  set (s' := set_user_warnings (Some t') s).
  assert (Hs' : user_warnings s' = Some t') by reflexivity.
  assert (Hcols' : has_col "reason" t' && has_col "date" t' && has_col "user_id" t'
                   && has_col "id" t' = true) by exact Hcols.
  assert (Hsel : forall u, select_warnings u s =
            Ok (map (fun r => (w_reason r, w_date r)) (order_by_id (where_user u (wt_rows t))))).
  { intros u. unfold select_warnings. by rewrite Hs, Hcols. }
  assert (Hsel' : forall u, select_warnings u s' =
            Ok (map (fun r => (w_reason r, w_date r)) (order_by_id (where_user u (wt_rows t'))))).
  { intros u. unfold select_warnings. by rewrite Hs', Hcols'. }
  assert (Hmine : order_by_id (where_user member_id (wt_rows t'))
                  = order_by_id (where_user member_id (wt_rows t)) ++ [new]).
  { simpl. unfold where_user. rewrite List.filter_app. simpl. rewrite Z.eqb_refl.
    apply order_by_id_app_last. intros x Hx. apply filter_In in Hx as [Hx _].
    by apply next_rowid_gt. }
  assert (Hadd : add_warning member_id stored today s = (Ok tt, s')).
  { rewrite (add_warning_run _ _ _ s t Hs), (insert_into_accepts _ _ _ _ Hacc). reflexivity. }
  exists s', (map (fun r => (w_reason r, w_date r))
                  (order_by_id (where_user member_id (wt_rows t)))).
  split; [by rewrite (get_all_warnings_run _ s t Hs), Hsel|].
  assert (Hafter : get_all_warnings member_id s' =
            (Ok (map (fun r => (w_reason r, w_date r))
                     (order_by_id (where_user member_id (wt_rows t)))
                 ++ [(Some stored, Some today)]), s')).
  { rewrite (get_all_warnings_run _ s' t' Hs'), Hsel', Hmine, map_app. reflexivity. }
  split; [|split; [exact Hafter|]].
  - unfold warn. fold stored. unfold bind. rewrite Hadd, Hafter.
    unfold ret. rewrite length_app, length_map. simpl. do 3 f_equal. lia.
  - intros other Hother.
    rewrite (get_all_warnings_run _ s' t' Hs'), (get_all_warnings_run _ s t Hs), Hsel', Hsel.
    simpl. unfold where_user. rewrite List.filter_app. simpl.
    assert ((member_id =? other) = false) as -> by (apply Z.eqb_neq; congruence).
    by rewrite app_nil_r.
Qed.

(** C8 at the store the program itself sets up: on a new database file the
    start-up code creates [user_warnings] with the columns [id] and
    [user_id] only, the migration leaves it alone, and [warn] then raises
    without adding a record; reading the member's warnings raises too. *)
Theorem warn_raises_after_fresh_startup (today today' : string) (member_id : Z)
    (reason : option string) :
  let fresh := {| user_fp := ∅; user_warnings := None; _uw_new := None |} in
  let started := snd (startup today fresh) in
  startup today fresh =
    (Ok tt, {| user_fp := ∅; user_warnings := Some (empty_table minimal_columns);
               _uw_new := None |})
  /\ warn member_id reason today' started = (Raise OperationalError, started)
  /\ get_all_warnings member_id started = (Raise OperationalError, started).
Proof.
  intros fresh started.
  assert (Hstart : startup today fresh =
            (Ok tt, {| user_fp := ∅; user_warnings := Some (empty_table minimal_columns);
                       _uw_new := None |})) by reflexivity.
  split; [exact Hstart|].
  assert (Hs : user_warnings started = Some (empty_table minimal_columns)).
  { unfold started. by rewrite Hstart. }
  split.
  - unfold warn, bind. rewrite (add_warning_run _ _ _ started _ Hs).
    by rewrite insert_into_missing_column.
  - rewrite (get_all_warnings_run _ started _ Hs). unfold select_warnings. by rewrite Hs.
Qed.

(** ** The schema migration *)

Lemma fold_left_max_le (l : list Z) (a bound : Z) :
  a <= bound -> (forall x, In x l -> x <= bound) -> fold_left Z.max l a <= bound.
Proof.
  revert a. induction l as [|y l IH]; intros a Ha Hl; simpl; [exact Ha|].
  apply IH.
  - assert (y <= bound) by (apply Hl; by left). lia.
  - intros x Hx. apply Hl. by right.
Qed.

Lemma next_rowid_dense (rows : list wrow) (seq : Z) :
  dense rows seq ->
  next_rowid {| wt_cols := current_columns; wt_rows := rows; wt_seq := seq |} = seq + 1.
Proof.
  intros [Hseq Hrows]. unfold next_rowid, largest_rowid. simpl.
  destruct rows as [|x rows]; [lia|].
  assert (fold_left Z.max (map w_id rows) (w_id x) <= seq).
  { apply fold_left_max_le; [apply Hrows; by left|].
    intros y Hy. apply in_map_iff in Hy as (r & <- & Hr). apply Hrows. by right. }
  lia.
Qed.

Lemma insert_into_dense (rows : list wrow) (seq user : Z) (reason date : string) :
  dense rows seq ->
  insert_into {| wt_cols := current_columns; wt_rows := rows; wt_seq := seq |}
              user reason date =
    Ok {| wt_cols := current_columns;
          wt_rows := rows ++ [WRow (seq + 1) user None (Some reason) (Some date)];
          wt_seq := seq + 1 |}.
Proof.
  intros Hd. rewrite insert_into_accepts by reflexivity.
  by rewrite (next_rowid_dense rows seq Hd).
Qed.

Lemma dense_insert (rows : list wrow) (seq user : Z) (reason date : string) :
  dense rows seq ->
  dense (rows ++ [WRow (seq + 1) user None (Some reason) (Some date)]) (seq + 1).
Proof.
  intros [Hseq Hrows]. split; [lia|]. intros r Hr.
  apply in_app_or in Hr as [Hr | [<- | []]]; [|simpl; lia].
  specialize (Hrows r Hr). lia.
Qed.

Lemma set_uw_new_same (s : store) (t : wtable) :
  _uw_new s = Some t -> set_uw_new (Some t) s = s.
Proof. destruct s; simpl. by intros ->. Qed.

Lemma inserts_nothing : inserts (ret tt) [].
Proof.
  intros c rows seq Hw Hd. exists c. simpl.
  rewrite app_nil_r, Z.add_0_r, orb_false_r, app_nil_r.
  repeat split. symmetry. by apply set_uw_new_same.
Qed.

Lemma inserts_one (user : Z) (reason date : string) :
  inserts (execute_dml (insert_uw_new user reason date)) [(user, reason, date)].
Proof.
  intros c rows seq Hw Hd. unfold execute_dml, insert_uw_new.
  rewrite Hw, (insert_into_dense _ _ _ _ _ Hd).
  eexists. split; [reflexivity|]. simpl. by rewrite orb_true_r.
Qed.

Lemma number_rows_app (next : Z) (es1 es2 : list (Z * string * string)) :
  number_rows next (es1 ++ es2) =
    number_rows next es1 ++ number_rows (next + Z.of_nat (length es1)) es2.
Proof.
  revert next. induction es1 as [|[[u r] d] es1 IH]; intros next; simpl.
  - by rewrite Z.add_0_r.
  - rewrite IH. do 3 f_equal. lia.
Qed.

Lemma dense_number_rows (rows : list wrow) (seq : Z) (es : list (Z * string * string)) :
  dense rows seq ->
  dense (rows ++ number_rows (seq + 1) es) (seq + Z.of_nat (length es)).
Proof.
  revert rows seq. induction es as [|[[u r] d] es IH]; intros rows seq Hd; simpl.
  - by rewrite app_nil_r, Z.add_0_r.
  - pose proof (IH _ _ (dense_insert rows seq u r d Hd)) as H.
    rewrite <- app_assoc in H. simpl in H.
    replace (seq + Z.of_nat (S (length es)))
      with (seq + 1 + Z.of_nat (length es)) by lia.
    exact H.
Qed.

Lemma inserts_seq (m1 m2 : M conn unit) (es1 es2 : list (Z * string * string)) :
  inserts m1 es1 -> inserts m2 es2 -> inserts (m1 >> m2) (es1 ++ es2).
Proof.
  intros H1 H2 c rows seq Hw Hd.
  destruct (H1 c rows seq Hw Hd) as (c1 & R1 & D1 & W1 & T1 & J1).
  destruct (H2 c1 (rows ++ number_rows (seq + 1) es1) (seq + Z.of_nat (length es1)))
    as (c2 & R2 & D2 & W2 & T2 & J2).
  { by rewrite W1. }
  { by apply dense_number_rows. }
  exists c2. unfold bind. rewrite R1. split; [exact R2|].
  split; [congruence|]. split; [|split].
  - rewrite W2, W1, number_rows_app, length_app, <- app_assoc, Nat2Z.inj_add.
    replace (seq + Z.of_nat (length es1) + 1)
      with (seq + 1 + Z.of_nat (length es1)) by lia.
    rewrite Z.add_assoc. reflexivity.
  - rewrite T2, T1, length_app, <- orb_assoc. f_equal.
    destruct es1, es2; reflexivity.
  - rewrite J2, J1, D1, length_app, repeat_app, app_assoc. reflexivity.
Qed.

Lemma inserts_repeat_times (n : nat) (user : Z) (reason date : string) :
  inserts (repeat_times n (execute_dml (insert_uw_new user reason date)))
          (repeat (user, reason, date) n).
Proof.
  induction n as [|n IH]; simpl; [apply inserts_nothing|].
  apply (inserts_seq _ _ [(user, reason, date)]); [apply inserts_one | exact IH].
Qed.

(** The loop of the oldest-shape branch over the fetched rows. *)
Lemma inserts_expand_counts (today : string) (legacy : list wrow) :
  inserts
    (for_each (map (fun r => (w_user r, w_warnings r)) legacy)
       (fun '(user_id, count) =>
          let count := int_or_0 count in
          repeat_times (Z.to_nat count)
            (execute_dml (insert_uw_new user_id MIGRATED today))))
    (expand_counts today legacy).
Proof.
  induction legacy as [|r legacy IH]; simpl; [apply inserts_nothing|].
  apply inserts_seq; [apply inserts_repeat_times | exact IH].
Qed.

Lemma copy_rows_dense (today : string) (legacy rows : list wrow) (seq : Z) :
  dense rows seq ->
  copy_rows today legacy {| wt_cols := current_columns; wt_rows := rows; wt_seq := seq |} =
    Ok {| wt_cols := current_columns;
          wt_rows := rows ++ number_rows (seq + 1) (copy_entries today legacy);
          wt_seq := seq + Z.of_nat (length (copy_entries today legacy)) |}.
Proof.
  revert rows seq. induction legacy as [|r legacy IH]; intros rows seq Hd; simpl.
  - by rewrite app_nil_r, Z.add_0_r.
  - rewrite (insert_into_dense _ _ _ _ _ Hd), IH by (by apply dense_insert).
    rewrite <- app_assoc. simpl.
    replace (seq + 1 + Z.of_nat (length (copy_entries today legacy)))
      with (seq + Z.of_nat (S (length (copy_entries today legacy)))) by lia.
    reflexivity.
Qed.

Ltac store_fields :=
  cbn [working durable in_txn journal fst snd
       user_fp user_warnings _uw_new set_uw_new set_user_warnings set_user_fp].

(** A table without the legacy column: the migration only closes the
    connection. *)
Lemma migrate_body_current (today : string) (s : store) :
  "warnings" ∉ table_info (user_warnings s) ->
  migrate_body today (connect s) =
    (Ok tt, {| durable := s; working := s; in_txn := false; journal := [s] |}).
Proof.
  intros Hcols. unfold migrate_body. run_connection.
  by rewrite (bool_decide_eq_false_2 _ Hcols).
Qed.

(** The statements after the inserts: DROP, RENAME, commit, close. *)
Lemma migrate_swap (s : store) (t filled : wtable) (c : conn) :
  user_warnings s = Some t ->
  durable c = set_uw_new (Some (empty_table current_columns)) s ->
  working c = set_uw_new (Some filled) s ->
  let w1 := set_uw_new (Some (empty_table current_columns)) s in
  let final := set_uw_new None (set_user_warnings (Some filled) s) in
  exists c',
    (execute_ddl drop_user_warnings >>
     execute_ddl rename_uw_new >>
     commit >>
     close) c = (Ok tt, c')
    /\ durable c' = final
    /\ journal c' =
         journal c ++
         (if in_txn c then [w1; w1; final]
          else [set_user_warnings None (set_uw_new (Some filled) s); final; final]).
Proof.
  intros Hs Hd Hw w1 final.
  destruct c as [d w txn j]. simpl in Hd, Hw. subst d w.
  unfold bind, execute_ddl, commit, close, drop_user_warnings, rename_uw_new.
  store_fields. rewrite Hs. store_fields.
  eexists. split; [reflexivity|]. store_fields.
  split; [reflexivity|]. rewrite <- !app_assoc. simpl.
  destruct txn; reflexivity.
Qed.

(** The migration of a table in the oldest shape, with its journal. *)
Lemma migrate_body_oldest (today : string) (s : store) (t : wtable) :
  user_warnings s = Some t -> _uw_new s = None ->
  "warnings" ∈ table_info (Some t) ->
  ~ ({["reason"; "date"]} : gset string) ⊆ table_info (Some t) ->
  has_col "user_id" t = true ->
  let es := expand_counts today (wt_rows t) in
  let w1 := set_uw_new (Some (empty_table current_columns)) s in
  let final := set_uw_new None (set_user_warnings (Some (filled_table es)) s) in
  exists c',
    migrate_body today (connect s) = (Ok tt, c')
    /\ durable c' = final
    /\ journal c' =
         [s; w1] ++ repeat w1 (length es) ++
         (if (0 <? length es)%nat then [w1; w1; final]
          else [set_user_warnings None w1; final; final]).
Proof.
  intros Hs Hnew Hlegacy Hnot Huser es w1 final.
  set (c2 := {| durable := w1; working := w1; in_txn := false; journal := [s; w1] |}).
  destruct (inserts_expand_counts today (wt_rows t) c2 [] 0)
    as (c3 & R3 & D3 & W3 & T3 & J3); [reflexivity | split; [lia | intros r []] |].
  fold es in R3, W3, T3, J3. simpl in D3, W3, T3, J3.
  destruct (migrate_swap s t (filled_table es) c3 Hs D3)
    as (c' & R' & D' & J'); [exact W3|].
  exists c'. split; [|split; [exact D'|]].
  - unfold migrate_body. unfold bind at 1. unfold db, execute_ddl at 1, create_user_fp, connect.
    store_fields. unfold bind at 1, query at 1. store_fields.
    rewrite Hs, (bool_decide_eq_true_2 _ Hlegacy). cbn [negb].
    unfold bind at 1, execute_ddl at 1, create_uw_new. store_fields. rewrite Hnew.
    fold w1. rewrite (bool_decide_eq_false_2 _ Hnot).
    unfold bind at 1. unfold bind at 1, query at 1, select_counts.
    store_fields. cbn [app]. change (user_warnings w1) with (user_warnings s).
    rewrite Hs, Huser. unfold has_col. rewrite (bool_decide_eq_true_2 _ Hlegacy).
    cbn [andb]. subst c2. cbv zeta in R3. rewrite R3. exact R'.
  - rewrite J', J3, T3. fold w1. simpl.
    destruct (0 <? length es)%nat eqn:E.
    + reflexivity.
    + assert (length es = 0%nat) as Hlen by (apply Nat.ltb_ge in E; lia).
      destruct es; [reflexivity | discriminate].
Qed.

(** The migration of a table in the mixed shape, with its journal. *)
Lemma migrate_body_mixed (today : string) (s : store) (t : wtable) :
  user_warnings s = Some t -> _uw_new s = None ->
  "warnings" ∈ table_info (Some t) ->
  ({["reason"; "date"]} : gset string) ⊆ table_info (Some t) ->
  has_col "user_id" t = true ->
  let es := copy_entries today (wt_rows t) in
  let w1 := set_uw_new (Some (empty_table current_columns)) s in
  let final := set_uw_new None (set_user_warnings (Some (filled_table es)) s) in
  exists c',
    migrate_body today (connect s) = (Ok tt, c')
    /\ durable c' = final
    /\ journal c' = [s; w1; w1; w1; w1; final].
Proof.
  intros Hs Hnew Hlegacy Hsub Huser es w1 final.
  assert (Hreason : has_col "reason" t = true).
  { unfold has_col. apply bool_decide_eq_true_2. apply Hsub. set_solver. }
  assert (Hdate : has_col "date" t = true).
  { unfold has_col. apply bool_decide_eq_true_2. apply Hsub. set_solver. }
  set (c3 := {| durable := w1; working := set_uw_new (Some (filled_table es)) s;
                in_txn := true; journal := [s; w1; w1] |}).
  destruct (migrate_swap s t (filled_table es) c3 Hs eq_refl eq_refl)
    as (c' & R' & D' & J').
  exists c'. split; [|split; [exact D' | exact J']].
  unfold migrate_body. unfold bind at 1. unfold db, execute_ddl at 1, create_user_fp, connect.
  store_fields. unfold bind at 1, query at 1. store_fields.
  rewrite Hs, (bool_decide_eq_true_2 _ Hlegacy). cbn [negb].
  unfold bind at 1, execute_ddl at 1, create_uw_new. store_fields. rewrite Hnew.
  fold w1. rewrite (bool_decide_eq_true_2 _ Hsub).
  unfold bind at 1, execute_dml at 1, insert_select. store_fields. cbn [app].
  change (user_warnings w1) with (user_warnings s).
  rewrite Hs, Huser, Hreason, Hdate. cbn [andb].
  change (_uw_new w1) with (Some {| wt_cols := current_columns; wt_rows := []; wt_seq := 0 |}).
  cbv iota beta. rewrite copy_rows_dense by (split; [lia | intros r []]).
  change (set_uw_new (Some ?x) w1) with (set_uw_new (Some x) s).
  store_fields. exact R'.
Qed.

Lemma in_number_rows (r : wrow) (next : Z) (es : list (Z * string * string)) :
  In r (number_rows next es) ->
  exists user reason date,
    In (user, reason, date) es
    /\ w_user r = user /\ w_reason r = Some reason /\ w_date r = Some date.
Proof.
  revert next. induction es as [|[[u re] d] es IH]; intros next; simpl; [intros []|].
  intros [<- | Hin].
  - exists u, re, d. repeat split. by left.
  - destruct (IH _ Hin) as (u' & re' & d' & H & Hrest).
    exists u', re', d'. split; [by right | exact Hrest].
Qed.

Lemma in_expand_counts (today : string) (legacy : list wrow) (e : Z * string * string) :
  In e (expand_counts today legacy) ->
  exists r, In r legacy /\ e = (w_user r, MIGRATED, today)
            /\ 0 < int_or_0 (w_warnings r).
Proof.
  unfold expand_counts. rewrite in_flat_map. intros (r & Hr & He).
  exists r. split; [exact Hr|]. pose proof (repeat_spec _ _ _ He) as ->.
  split; [reflexivity|].
  destruct (Z.to_nat (int_or_0 (w_warnings r))) eqn:E; [destruct He | lia].
Qed.

Lemma length_where_user_number_rows (user next : Z) (es : list (Z * string * string)) :
  length (where_user user (number_rows next es)) =
  length (List.filter (fun e => fst (fst e) =? user) es).
Proof.
  revert next. induction es as [|[[u re] d] es IH]; intros next; simpl; [reflexivity|].
  destruct (u =? user); simpl; by rewrite IH.
Qed.

(** The number of records a user gets is the sum of the user's counts. *)
Lemma length_where_user_expand (today : string) (user : Z) (legacy : list wrow) :
  length (List.filter (fun e => fst (fst e) =? user) (expand_counts today legacy)) =
  list_sum (map (fun r => Z.to_nat (int_or_0 (w_warnings r))) (where_user user legacy)).
Proof.
  unfold expand_counts. induction legacy as [|r legacy IH]; simpl; [reflexivity|].
  rewrite List.filter_app, length_app, IH.
  assert (Hrep : forall n,
            length (List.filter (fun e : Z * string * string => fst (fst e) =? user)
                      (repeat (w_user r, MIGRATED, today) n)) =
            if w_user r =? user then n else 0%nat).
  { induction n as [|n IHn]; simpl; [by destruct (w_user r =? user)|].
    destruct (w_user r =? user); simpl; by rewrite IHn. }
  rewrite Hrep. unfold where_user. simpl.
  destruct (w_user r =? user); simpl; reflexivity.
Qed.

Ltac decide_columns := apply (bool_decide_unpack _); vm_compute; exact I.

Lemma current_columns_not_legacy (rows : list wrow) (seq : Z) :
  "warnings" ∉
    table_info (Some {| wt_cols := current_columns; wt_rows := rows; wt_seq := seq |}).
Proof. decide_columns. Qed.

(** C2. Migrating a table in the oldest shape (a [warnings] column, not
    both [reason] and [date]) replaces it by a table in the current shape
    that holds, for each legacy row in turn, [int(count or 0)] records of
    that row's user; every record has the fixed reason and the run date;
    a user's records number the sum of the user's counts; and a second run,
    on any day, leaves that store as it is. *)
Theorem migrate_oldest_shape (today today2 : string) (s : store) (t : wtable) :
  user_warnings s = Some t -> _uw_new s = None ->
  "warnings" ∈ table_info (Some t) ->
  ~ ({["reason"; "date"]} : gset string) ⊆ table_info (Some t) ->
  has_col "user_id" t = true ->
  let entries := expand_counts today (wt_rows t) in
  let s' := set_uw_new None (set_user_warnings (Some (filled_table entries)) s) in
  migrate_user_warnings_table today s = (Ok tt, s')
  /\ (forall r, In r (wt_rows (filled_table entries)) ->
                w_reason r = Some MIGRATED /\ w_date r = Some today)
  /\ (forall user,
        length (where_user user (wt_rows (filled_table entries))) =
        list_sum (map (fun r => Z.to_nat (int_or_0 (w_warnings r)))
                      (where_user user (wt_rows t))))
  /\ migrate_user_warnings_table today2 s' = (Ok tt, s').
Proof.
  intros Hs Hnew Hlegacy Hnot Huser entries s'.
  destruct (migrate_body_oldest today s t Hs Hnew Hlegacy Hnot Huser)
    as (c' & Hrun & Hd & _).
  split; [|split; [|split]].
  - unfold migrate_user_warnings_table, with_connection. rewrite Hrun. by rewrite Hd.
  - intros r Hr. simpl in Hr.
    destruct (in_number_rows r 1 entries Hr) as (u & re & d & He & _ & -> & ->).
    destruct (in_expand_counts today (wt_rows t) _ He) as (r0 & _ & Heq & _).
    by inversion Heq.
  - intros user. simpl. rewrite length_where_user_number_rows.
    apply length_where_user_expand.
  - unfold migrate_user_warnings_table, with_connection.
    rewrite migrate_body_current; [reflexivity|].
    apply current_columns_not_legacy.
Qed.

(** The example of the specification: one legacy row (user 5, count 3). *)
Lemma migrate_oldest_shape_witness :
  let t := {| wt_cols := [Column "user_id" true false; Column "warnings" true false];
              wt_rows := [WRow 1 5 (Some 3) None None]; wt_seq := 0 |} in
  let s := {| user_fp := ∅; user_warnings := Some t; _uw_new := None |} in
  let migrated r := WRow r 5 None (Some "Migrated from legacy count") (Some "2024-05-01") in
  let s' := {| user_fp := ∅;
               user_warnings :=
                 Some {| wt_cols := current_columns;
                         wt_rows := [migrated 1; migrated 2; migrated 3];
                         wt_seq := 3 |};
               _uw_new := None |} in
  migrate_user_warnings_table "2024-05-01" s = (Ok tt, s')
  /\ migrate_user_warnings_table "2024-06-01" s' = (Ok tt, s').
Proof.
  intros t s migrated s'.
  destruct (migrate_oldest_shape "2024-05-01" "2024-06-01" s t eq_refl eq_refl)
    as (Hrun & _ & _ & Hagain).
  - decide_columns.
  - decide_columns.
  - reflexivity.
  - split; [exact Hrun | exact Hagain].
Defined.

(** C1 as stated fails: for a legacy table whose only count is 0 no insert
    opens a transaction, so DROP TABLE is durable on its own; a crash just
    after it leaves the file without any [user_warnings] table. *)
Lemma migration_can_lose_the_table :
  let t := {| wt_cols := [Column "user_id" true false; Column "warnings" true false];
              wt_rows := [WRow 1 5 (Some 0) None None]; wt_seq := 0 |} in
  let s := {| user_fp := ∅; user_warnings := Some t; _uw_new := None |} in
  exists d,
    In d (durable_states (migrate_body "2024-05-01") s)
    /\ user_warnings d = None
    /\ user_warnings d <> user_warnings s.
Proof.
  intros t s.
  exists {| user_fp := ∅; user_warnings := None;
            _uw_new := Some (empty_table current_columns) |}.
  split; [|split; [reflexivity | discriminate]].
  vm_compute. right. right. left. reflexivity.
Qed.

Lemma expand_counts_nonempty (today : string) (legacy : list wrow) (r : wrow) :
  In r legacy -> 0 < int_or_0 (w_warnings r) ->
  (0 < length (expand_counts today legacy))%nat.
Proof.
  intros Hin Hpos. unfold expand_counts.
  assert (In (w_user r, MIGRATED, today)
             (flat_map (fun r => repeat (w_user r, MIGRATED, today)
                                        (Z.to_nat (int_or_0 (w_warnings r)))) legacy)) as H.
  { apply in_flat_map. exists r. split; [exact Hin|].
    destruct (Z.to_nat (int_or_0 (w_warnings r))) eqn:E; [lia | by left]. }
  destruct (flat_map _ _); [destruct H | simpl; lia].
Qed.

(** C1, amended. The scratch table is created and made durable on its
    own, before any row is copied.  When at least one insert statement runs
    (always in the mixed shape; in the oldest shape when some count is
    positive) the inserts, the drop and the rename become durable together
    at the final commit: every durable content of the file before that
    commit has [user_warnings] and [user_fp] exactly as they were, with at
    most the empty scratch table beside them, and the content after it has
    the new table under the name [user_warnings] and no scratch table. *)
Theorem migration_durable_states (today : string) (s : store) (t : wtable) :
  user_warnings s = Some t -> _uw_new s = None ->
  "warnings" ∈ table_info (Some t) ->
  has_col "user_id" t = true ->
  (({["reason"; "date"]} : gset string) ⊆ table_info (Some t)
   \/ exists r, In r (wt_rows t) /\ 0 < int_or_0 (w_warnings r)) ->
  exists (new : wtable) (before : list store),
    migrate_user_warnings_table today s =
      (Ok tt, set_uw_new None (set_user_warnings (Some new) s))
    /\ wt_cols new = current_columns
    /\ durable_states (migrate_body today) s =
         before ++ [set_uw_new None (set_user_warnings (Some new) s)]
    /\ In (set_uw_new (Some (empty_table current_columns)) s) before
    /\ forall d, In d before ->
         user_warnings d = Some t
         /\ user_fp d = user_fp s
         /\ (_uw_new d = None \/ _uw_new d = Some (empty_table current_columns)).
Proof.
  intros Hs Hnew Hlegacy Huser Hinserts.
  set (w1 := set_uw_new (Some (empty_table current_columns)) s).
  assert (Hstate : forall d, d = s \/ d = w1 ->
            user_warnings d = Some t /\ user_fp d = user_fp s
            /\ (_uw_new d = None \/ _uw_new d = Some (empty_table current_columns))).
  { intros d [-> | ->]; [by repeat split; try left | by repeat split; try right]. }
  destruct (decide (({["reason"; "date"]} : gset string) ⊆ table_info (Some t)))
    as [Hsub | Hnot].
  - destruct (migrate_body_mixed today s t Hs Hnew Hlegacy Hsub Huser)
      as (c' & Hrun & Hd & Hj).
    exists (filled_table (copy_entries today (wt_rows t))), [s; w1; w1; w1; w1].
    split; [|split; [reflexivity|split; [|split]]].
    + unfold migrate_user_warnings_table, with_connection. rewrite Hrun. by rewrite Hd.
    + unfold durable_states. rewrite Hrun. exact Hj.
    + simpl. auto.
    + intros d Hin. apply Hstate. simpl in Hin. intuition.
  - destruct Hinserts as [Hsub | (r & Hr & Hpos)]; [contradiction|].
    destruct (migrate_body_oldest today s t Hs Hnew Hlegacy Hnot Huser)
      as (c' & Hrun & Hd & Hj).
    pose proof (expand_counts_nonempty today (wt_rows t) r Hr Hpos) as Hlen.
    apply Nat.ltb_lt in Hlen. rewrite Hlen in Hj.
    exists (filled_table (expand_counts today (wt_rows t))),
           ([s; w1] ++ repeat w1 (length (expand_counts today (wt_rows t))) ++ [w1; w1]).
    split; [|split; [reflexivity|split; [|split]]].
    + unfold migrate_user_warnings_table, with_connection. rewrite Hrun. by rewrite Hd.
    + unfold durable_states. rewrite Hrun. cbn [snd]. rewrite Hj. fold w1.
      rewrite <- !app_assoc. reflexivity.
    + simpl. auto.
    + intros d Hin. apply Hstate.
      apply in_app_or in Hin as [Hin | Hin]; [simpl in Hin; intuition|].
      apply in_app_or in Hin as [Hin | Hin]; [right; by apply repeat_spec in Hin|].
      simpl in Hin. intuition.
Qed.

Lemma migration_durable_states_witness :
  let t := {| wt_cols := [Column "user_id" true false; Column "warnings" true false];
              wt_rows := [WRow 1 5 (Some 3) None None]; wt_seq := 0 |} in
  let s := {| user_fp := ∅; user_warnings := Some t; _uw_new := None |} in
  exists (new : wtable) (before : list store),
    durable_states (migrate_body "2024-05-01") s =
      before ++ [set_uw_new None (set_user_warnings (Some new) s)]
    /\ forall d, In d before -> user_warnings d = Some t.
Proof.
  intros t s.
  destruct (migration_durable_states "2024-05-01" s t eq_refl eq_refl)
    as (new & before & _ & _ & Hj & _ & Hbefore).
  - decide_columns.
  - reflexivity.
  - right. exists (WRow 1 5 (Some 3) None None). split; [by left | reflexivity].
  - exists new, before. split; [exact Hj|]. intros d Hd. by apply Hbefore.
Defined.

(* ================================================================== *)
(** * Further properties *)

(** ** Scores *)

(** X1. A score that fits in a signed 64-bit integer, written with
    [set_fp], is the one [get_fp] reads back, whatever was stored before;
    writing it again changes nothing; the scores of the other users and the
    warnings tables are left alone.  For a score outside that range
    [set_fp] raises [OverflowError] and the store is left as it was. *)
Theorem set_fp_get_fp (user_id value : Z) (s : store) :
  (fits_int64 value = true ->
   exists s',
     set_fp user_id value s = (Ok tt, s')
     /\ get_fp user_id s' = (Ok value, s')
     /\ set_fp user_id value s' = (Ok tt, s')
     /\ (forall other, other <> user_id -> get_fp other s' = (fst (get_fp other s), s'))
     /\ user_warnings s' = user_warnings s
     /\ _uw_new s' = _uw_new s)
  /\ (fits_int64 value = false ->
      set_fp user_id value s = (Raise OverflowError, s)).
Proof.
  split; intros Hfits.
  - exists (set_user_fp (<[user_id := value]> (user_fp s)) s).
    rewrite !set_fp_run, Hfits, !get_fp_run. simpl.
    split; [reflexivity|]. split; [by rewrite lookup_insert_eq|].
    split; [unfold set_user_fp; simpl; by rewrite insert_insert_eq|].
    split; [|split; reflexivity].
    intros other Hne. rewrite !get_fp_run. simpl. by rewrite lookup_insert_ne.
  - by rewrite set_fp_run, Hfits.
Qed.

Lemma set_fp_get_fp_witness :
  let s := Store {[ 5 := 3 ]} None None in
  (exists s', set_fp 5 (2 ^ 63 - 1) s = (Ok tt, s')
              /\ get_fp 5 s' = (Ok (2 ^ 63 - 1), s'))
  /\ set_fp 5 (2 ^ 63) s = (Raise OverflowError, s)
  /\ get_fp 5 s = (Ok 3, s).
Proof.
  intros s.
  destruct (set_fp_get_fp 5 (2 ^ 63 - 1) s) as [Hfits _].
  destruct (set_fp_get_fp 5 (2 ^ 63) s) as [_ Hover].
  destruct (Hfits eq_refl) as (s' & Hset & Hget & _).
  split; [exists s'; by split|]. split; [exact (Hover eq_refl) | reflexivity].
Defined.

(** X2. When [value] and [value + delta] fit in a signed 64-bit integer,
    [!fpset] to [value] followed by [!fp] with [delta] stores
    [value + delta], whatever the score was before and whatever the
    platform answers; when no request fails the two commands return
    [value] and [value + delta]. *)
Theorem fp_after_fpset (answers : ext_call -> answer) (member : Member)
    (value delta : Z) (w : world) :
  fits_int64 value = true -> fits_int64 (value + delta) = true ->
  exists (w1 w2 : world),
    snd (fpset answers member value w) = w1
    /\ snd (fp answers member delta w1) = w2
    /\ get_fp (m_id member) (w_store w2) = (Ok (value + delta), w_store w2)
    /\ ((forall c, answers c <> Failed) ->
        exists e1 e2 : bool,
          fpset answers member value w = (Ok (value, e1), w1)
          /\ fp answers member delta w1 = (Ok (value + delta, e2), w2)).
Proof.
  intros Hv Hvd.
  destruct (fpset_stores answers member value w Hv) as (S1 & _ & R1).
  set (w1 := snd (fpset answers member value w)) in *.
  assert (Hread : user_fp (w_store w1) !! m_id member = Some value).
  { rewrite S1. simpl. by rewrite lookup_insert_eq. }
  pose proof (fp_stores answers member delta w1) as H2. cbv zeta in H2.
  rewrite Hread in H2. cbn [default] in H2.
  destruct (H2 Hvd) as (S2 & _ & R2). clear H2.
  set (w2 := snd (fp answers member delta w1)) in *.
  exists w1, w2. split; [reflexivity|]. split; [reflexivity|]. split.
  - rewrite get_fp_run, S2. simpl. by rewrite lookup_insert_eq.
  - intros Hnofail. destruct (R1 Hnofail) as [e1 E1]. destruct (R2 Hnofail) as [e2 E2].
    exists e1, e2. split.
    + subst w1. destruct (fpset answers member value w). simpl in *. by rewrite E1.
    + subst w2. destruct (fp answers member delta w1). simpl in *. by rewrite E2.
Qed.

Lemma fp_after_fpset_witness :
  let member := MkMember 10 false in
  let w := World (Store {[ 10 := 99 ]} None None) (Platform [] [member] ∅ []) (Gate ∅ []) in
  let performs := fun _ : ext_call => Performed in
  get_fp 10 (w_store (snd (fp performs member (-3) (snd (fpset performs member 7 w))))) =
    (Ok 4, w_store (snd (fp performs member (-3) (snd (fpset performs member 7 w))))).
Proof.
  intros member w performs.
  destruct (fp_after_fpset performs member 7 (-3) w eq_refl eq_refl)
    as (w1 & w2 & H1 & H2 & Hget & _).
  rewrite H1, H2. exact Hget.
Defined.

(** X3. [!fprolesync] never writes to the database and leaves the attempt
    counters, the guild's roles and the other members' roles alone, whether
    it returns or raises.  It raises only with the failure of one of its
    role requests; otherwise it reports the stored score (0 when there is
    none) and whether the guild has the role of that score. *)
Theorem fprolesync_reads_only (answers : ext_call -> answer) (member : Member) (w : world) :
  let value := default 0 (user_fp (w_store w) !! m_id member) in
  exists (res : result (Z * bool)) (w' : world),
    fprolesync answers member w = (res, w')
    /\ w_store w' = w_store w
    /\ w_gate w' = w_gate w
    /\ same_guild member (w_platform w) (w_platform w')
    /\ (res = Raise HTTPException
        \/ exists existed, res = Ok (value, existed)
             /\ (existed = true <->
                 exists r, In r (guild_roles (w_platform w))
                           /\ role_name r = fp_label value))
    /\ ((forall c, answers c <> Failed) -> exists existed, res = Ok (value, existed)).
Proof.
  intros value. unfold fprolesync, bind, on_store, on_platform. rewrite get_fp_run.
  cbn [w_platform w_store w_gate]. fold value.
  destruct (sync_frame answers member value (w_platform w))
    as (res & p' & sent & Hs & Hg & _ & _ & Hres).
  rewrite Hs.
  destruct Hres as [(-> & c & _ & Hc) | (existed & -> & Hex)].
  - eexists. eexists. split; [reflexivity|]. cbn [w_platform w_store w_gate].
    repeat split; try apply Hg; [by left|].
    intros Hnofail. by apply Hnofail in Hc.
  - eexists. eexists. split; [reflexivity|]. cbn [w_platform w_store w_gate].
    repeat split; try apply Hg.
    + right. exists existed. by split.
    + intros _. by exists existed.
Qed.

(** ** The bulk adjustment, members that are not bots *)

(** The loop of [!fpall]: what it does to the scores and the counters. *)
Lemma fpall_loop_scores (answers : ext_call -> answer) (delta : Z) (members : list Member) :
  List.NoDup (map m_id members) ->
  forall (k : fpall_counters) (w : world),
  exists (k' : fpall_counters) (w' : world),
    fpall_loop answers delta members k w = (Ok k', w')
    /\ (failed_syncs k <= failed_syncs k')%nat
    /\ (failed_syncs k' - failed_syncs k <= updated k' - updated k)%nat
    /\ (updated k <= updated k')%nat
    /\ guild_members (w_platform w') = guild_members (w_platform w)
    /\ user_warnings (w_store w') = user_warnings (w_store w)
    /\ w_gate w' = w_gate w
    /\ (forall u,
          default 0 (user_fp (w_store w') !! u) =
          let old := default 0 (user_fp (w_store w) !! u) in
          if existsb (fun m => (m_id m =? u) && negb (m_bot m)) members
             && fits_int64 (old + delta)
          then old + delta else old)
    /\ ((forall m, In m members -> m_bot m = false ->
           fits_int64 (default 0 (user_fp (w_store w) !! m_id m) + delta) = true) ->
        (forall c, answers c <> Failed) ->
        updated k' =
          (updated k + length (List.filter (fun m => negb (m_bot m)) members))%nat).
Proof.
  induction members as [|member rest IH]; intros Hnodup k w.
  - exists k, w. simpl. repeat split; try lia.
  - simpl in Hnodup. apply NoDup_cons_iff in Hnodup as [Hfresh Hnodup].
    rewrite fpall_loop_cons. destruct (m_bot member) eqn:Hbot.
    + destruct (IH Hnodup {| updated := updated k;
                             skipped_bots := (skipped_bots k + 1)%nat;
                             failed_syncs := failed_syncs k |} w)
        as (k' & w' & Hrun & Hf1 & Hf2 & Hu & Hm & Hw & Hg & Hscore & Hall).
      exists k', w'. simpl in *. split; [exact Hrun|].
      repeat (split; [first [lia | assumption]|]). split.
      * intros u. rewrite Hscore, Hbot, andb_false_r. reflexivity.
      * intros Hfits Hnofail. rewrite Hbot. simpl. apply Hall; [|exact Hnofail].
        intros m Hin. apply Hfits. by right.
    + unfold bind at 1.
      destruct (fpall_member_step answers delta member w)
        as (outcome & w1 & sent1 & Hstep & Hfp1 & Hw1 & Hg1 & Hsame1 & _ & _ & Hout).
      cbv zeta in Hstep, Hfp1, Hout. rewrite Hstep.
      set (old := default 0 (user_fp (w_store w) !! m_id member)) in *.
      assert (Hother : forall u, u <> m_id member ->
                user_fp (w_store w1) !! u = user_fp (w_store w) !! u).
      { intros u Hu. rewrite Hfp1. destruct (fits_int64 _); [|reflexivity].
        by rewrite lookup_insert_ne. }
      assert (Hmine : default 0 (user_fp (w_store w1) !! m_id member) =
                      if fits_int64 (old + delta) then old + delta else old).
      { rewrite Hfp1. destruct (fits_int64 _); [|reflexivity].
        by rewrite lookup_insert_eq. }
      assert (Hnot_rest : forall u, u = m_id member ->
                existsb (fun m => (m_id m =? u) && negb (m_bot m)) rest = false).
      { intros u ->. apply not_true_is_false. intros Hex.
        apply existsb_exists in Hex as (m & Hin & Hm').
        apply andb_true_iff in Hm' as [Hm' _]. apply Z.eqb_eq in Hm'.
        apply Hfresh. rewrite <- Hm'. by apply in_map. }
      assert (Hrest : forall k1,
                (failed_syncs k <= failed_syncs k1)%nat ->
                (failed_syncs k1 - failed_syncs k <= updated k1 - updated k)%nat ->
                (updated k <= updated k1)%nat ->
                (outcome <> None -> updated k1 = (updated k + 1)%nat) ->
                exists (k' : fpall_counters) (w' : world),
                  fpall_loop answers delta rest k1 w1 = (Ok k', w')
                  /\ (failed_syncs k <= failed_syncs k')%nat
                  /\ (failed_syncs k' - failed_syncs k <= updated k' - updated k)%nat
                  /\ (updated k <= updated k')%nat
                  /\ guild_members (w_platform w') = guild_members (w_platform w)
                  /\ user_warnings (w_store w') = user_warnings (w_store w)
                  /\ w_gate w' = w_gate w
                  /\ (forall u,
                        default 0 (user_fp (w_store w') !! u) =
                        let old := default 0 (user_fp (w_store w) !! u) in
                        if existsb (fun m => (m_id m =? u) && negb (m_bot m))
                                   (member :: rest)
                           && fits_int64 (old + delta)
                        then old + delta else old)
                  /\ ((forall m, In m (member :: rest) -> m_bot m = false ->
                         fits_int64 (default 0 (user_fp (w_store w) !! m_id m) + delta)
                         = true) ->
                      (forall c, answers c <> Failed) ->
                      updated k' =
                        (updated k + length (List.filter (fun m => negb (m_bot m))
                                               (member :: rest)))%nat)).
      { intros k1 Hk1 Hk2 Hk3 Hk4.
        destruct (IH Hnodup k1 w1)
          as (k' & w' & Hrun & Hf1 & Hf2 & Hu & Hm & Hw & Hg & Hscore & Hall).
        exists k', w'. split; [exact Hrun|]. split; [lia|]. split; [lia|]. split; [lia|].
        destruct Hsame1 as (_ & Hmembers & _).
        split; [congruence|]. split; [congruence|]. split; [congruence|]. split.
        - intros u. rewrite Hscore. cbv zeta. cbn [existsb]. rewrite Hbot. cbn [negb].
          rewrite andb_true_r.
          destruct (m_id member =? u) eqn:Hid.
          + apply Z.eqb_eq in Hid. subst u. rewrite (Hnot_rest _ eq_refl).
            cbn [orb andb]. fold old. exact Hmine.
          + apply Z.eqb_neq in Hid. cbn [orb]. rewrite Hother by congruence. reflexivity.
        - intros Hfits Hnofail. cbn [List.filter]. rewrite Hbot. cbn [negb length].
          rewrite Hall; [| |exact Hnofail].
          + rewrite Hk4; [lia|].
            destruct (Hout (Hfits member (or_introl eq_refl) Hbot) Hnofail) as [e ->].
            discriminate.
          + intros m Hin Hb. rewrite Hother; [apply Hfits; [by right | exact Hb]|].
            intros Heq. apply Hfresh. rewrite <- Heq. by apply in_map. }
      destruct outcome as [existed|].
      * apply Hrest; cbn [updated failed_syncs]; try lia; destruct existed; lia.
      * apply Hrest; try lia. intros H. by destruct H.
Qed.

(** X4. In a guild whose member ids are distinct, [!fpall] never raises.
    Afterwards the score of every member that is not a bot is [delta] more
    than before when the sum fits in a signed 64-bit integer and unchanged
    when it does not, whatever the platform answers to the role requests;
    the score of every user id outside the guild is unchanged; no member is
    counted twice; the members without a matching role are at most the
    updated ones; warnings are not touched.  When every sum fits and no
    request fails, each member is counted, as updated or as skipped bot. *)
Theorem fpall_adds_delta (answers : ext_call -> answer) (delta : Z) (w : world) :
  List.NoDup (map m_id (guild_members (w_platform w))) ->
  let members := guild_members (w_platform w) in
  exists (k : fpall_counters) (w' : world),
    fpall answers delta w = (Ok k, w')
    /\ (updated k + skipped_bots k <= length members)%nat
    /\ (failed_syncs k <= updated k)%nat
    /\ user_warnings (w_store w') = user_warnings (w_store w)
    /\ (forall member, In member members -> m_bot member = false ->
          let old := default 0 (user_fp (w_store w) !! m_id member) in
          fst (get_fp (m_id member) (w_store w')) =
          Ok (if fits_int64 (old + delta) then old + delta else old))
    /\ (forall u, (forall member, In member members -> m_id member <> u) ->
          user_fp (w_store w') !! u = user_fp (w_store w) !! u)
    /\ ((forall member, In member members -> m_bot member = false ->
           fits_int64 (default 0 (user_fp (w_store w) !! m_id member) + delta) = true) ->
        (forall c, answers c <> Failed) ->
        (updated k + skipped_bots k = length members)%nat).
Proof.
  intros Hnodup members. unfold fpall. fold members.
  destruct (fpall_loop_scores answers delta members Hnodup
              {| updated := 0; skipped_bots := 0; failed_syncs := 0 |} w)
    as (k & w' & Hrun & Hf1 & Hf2 & Hu & Hm & Hw & Hg & Hscore & Hall).
  destruct (fpall_loop_spec answers delta members
              {| updated := 0; skipped_bots := 0; failed_syncs := 0 |} w)
    as (k2 & w2 & sent & Hrun2 & _ & Hu2 & Hs2 & _ & Hframe).
  rewrite Hrun in Hrun2. inversion Hrun2; subst k2 w2. clear Hrun2.
  assert (Hlen : (length (List.filter (fun m => negb (m_bot m)) members)
                  + length (List.filter m_bot members) = length members)%nat).
  { clear. induction members as [|m ms IH]; simpl; [reflexivity|].
    destruct (m_bot m); simpl; lia. }
  exists k, w'. simpl in Hf1, Hf2, Hu, Hu2, Hs2.
  split; [exact Hrun|]. split; [lia|]. split; [lia|].
  split; [exact Hw|]. split; [|split].
  - intros member Hin Hbot. cbv zeta. rewrite get_fp_run. cbn [fst]. rewrite Hscore.
    cbv zeta.
    assert (existsb (fun m => (m_id m =? m_id member) && negb (m_bot m)) members = true)
      as ->; [|reflexivity].
    apply existsb_exists. exists member. split; [exact Hin|].
    by rewrite Z.eqb_refl, Hbot.
  - intros u Hout. apply Hframe. intros m Hm' Hid. exfalso. by apply (Hout m).
  - intros Hfits Hnofail. rewrite (Hall Hfits Hnofail). simpl. lia.
Qed.

Lemma fpall_adds_delta_witness :
  let human := MkMember 10 false in
  let rich := MkMember 12 false in
  let robot := MkMember 11 true in
  let w := World (Store {[ 10 := 4; 12 := 2 ^ 63 - 1 ]} None None)
                 (Platform [] [human; robot; rich] ∅ []) (Gate ∅ []) in
  exists (k : fpall_counters) (w' : world),
    fpall (fun _ => Performed) 5 w = (Ok k, w')
    /\ fst (get_fp 10 (w_store w')) = Ok 9
    /\ fst (get_fp 12 (w_store w')) = Ok (2 ^ 63 - 1).
Proof.
  intros human rich robot w.
  destruct (fpall_adds_delta (fun _ => Performed) 5 w)
    as (k & w' & Hrun & _ & _ & _ & Hscore & _).
  { simpl. repeat constructor; simpl; intuition discriminate. }
  exists k, w'. split; [exact Hrun|]. split.
  - apply (Hscore human); [simpl; auto | reflexivity].
  - apply (Hscore rich); [simpl; auto | reflexivity].
Defined.

(** X5. In a guild whose member ids are distinct, when the score of every
    member that is not a bot fits in a signed 64-bit integer before and
    after adding [delta], [!fpall] with [delta] followed by [!fpall] with
    [- delta] brings every score back to what it was, whatever the platform
    answers; when no request fails both runs update the same number of
    members. *)
Theorem fpall_undo (answers : ext_call -> answer) (delta : Z) (w : world) :
  List.NoDup (map m_id (guild_members (w_platform w))) ->
  (forall member, In member (guild_members (w_platform w)) -> m_bot member = false ->
     let old := default 0 (user_fp (w_store w) !! m_id member) in
     fits_int64 old = true /\ fits_int64 (old + delta) = true) ->
  exists (k1 k2 : fpall_counters) (w1 w2 : world),
    fpall answers delta w = (Ok k1, w1)
    /\ fpall answers (- delta) w1 = (Ok k2, w2)
    /\ (forall u, fst (get_fp u (w_store w2)) = fst (get_fp u (w_store w)))
    /\ ((forall c, answers c <> Failed) -> updated k2 = updated k1).
Proof.
  intros Hnodup Hfits. unfold fpall.
  set (members := guild_members (w_platform w)) in *.
  set (zero := {| updated := 0%nat; skipped_bots := 0%nat; failed_syncs := 0%nat |}).
  destruct (fpall_loop_scores answers delta members Hnodup zero w)
    as (k1 & w1 & Hrun1 & _ & _ & _ & Hm1 & _ & _ & Hscore1 & Hall1).
  fold members in Hm1.
  destruct (fpall_loop_scores answers (- delta) members Hnodup zero w1)
    as (k2 & w2 & Hrun2 & _ & _ & _ & _ & _ & _ & Hscore2 & Hall2).
  assert (Hmember : forall u,
            existsb (fun m => (m_id m =? u) && negb (m_bot m)) members = true ->
            fits_int64 (default 0 (user_fp (w_store w) !! u)) = true
            /\ fits_int64 (default 0 (user_fp (w_store w) !! u) + delta) = true).
  { intros u Hex. apply existsb_exists in Hex as (m & Hin & Hm).
    apply andb_true_iff in Hm as [Hid Hb]. apply Z.eqb_eq in Hid. subst u.
    apply negb_true_iff in Hb. exact (Hfits m Hin Hb). }
  assert (Hback : forall u,
            default 0 (user_fp (w_store w2) !! u) = default 0 (user_fp (w_store w) !! u)).
  { intros u. rewrite Hscore2. cbv zeta. rewrite Hscore1. cbv zeta.
    destruct (existsb _ members) eqn:Hex; cbn [andb]; [|reflexivity].
    destruct (Hmember u Hex) as [Hold Hnew]. rewrite Hnew.
    replace (default 0 (user_fp (w_store w) !! u) + delta + - delta)
      with (default 0 (user_fp (w_store w) !! u)) by lia.
    by rewrite Hold. }
  exists k1, k2, w1, w2. split; [exact Hrun1|].
  split; [rewrite Hm1; exact Hrun2|]. split.
  - intros u. rewrite !get_fp_run. cbn [fst]. by rewrite Hback.
  - intros Hnofail. rewrite Hall2, Hall1; [reflexivity| |exact Hnofail| |exact Hnofail].
    + intros m Hin Hb. by apply Hfits.
    + intros m Hin Hb. rewrite Hscore1. cbv zeta.
      assert (existsb (fun x => (m_id x =? m_id m) && negb (m_bot x)) members = true)
        as Hex.
      { apply existsb_exists. exists m. split; [exact Hin|]. by rewrite Z.eqb_refl, Hb. }
      rewrite Hex. destruct (Hmember _ Hex) as [Hold Hnew]. rewrite Hnew. cbn [andb].
      replace (default 0 (user_fp (w_store w) !! m_id m) + delta + - delta)
        with (default 0 (user_fp (w_store w) !! m_id m)) by lia.
      exact Hold.
Qed.

Lemma fpall_undo_witness :
  let human := MkMember 10 false in
  let w := World (Store {[ 10 := 4 ]} None None)
                 (Platform [] [human] ∅ []) (Gate ∅ []) in
  exists w1 w2 : world,
    snd (fpall (fun _ => Performed) 5 w) = w1
    /\ snd (fpall (fun _ => Performed) (-5) w1) = w2
    /\ fst (get_fp 10 (w_store w2)) = Ok 4.
Proof.
  intros human w.
  destruct (fpall_undo (fun _ => Performed) 5 w)
    as (k1 & k2 & w1 & w2 & H1 & H2 & Hback & _).
  { simpl. repeat constructor; simpl; intuition. }
  { intros member [<- | []] _. split; reflexivity. }
  exists w1, w2. split; [by rewrite H1|].
  split; [change (-5) with (- (5)); by rewrite H2|].
  rewrite Hback. reflexivity.
Defined.

(** ** Score labels *)

(** X6. The role name [sync_member_fp_role] looks up for a score is
    recognised by [is_fp_role] exactly when the score is not negative. *)
Theorem fp_label_recognised (new_fp : Z) (id : Z) :
  is_fp_role (MkRole id (fp_label new_fp)) = true <-> 0 <= new_fp.
Proof.
  unfold is_fp_role, fp_label. cbn [role_name].
  destruct new_fp as [|p|p].
  - split; [lia | reflexivity].
  - split; [lia | intros _; apply digits_match_pattern].
  - split; [|lia]. intros H.
    change (NilZero.string_of_int (Z.to_int (Z.neg p)) ++ " FP")%string
      with (String "-" (NilZero.string_of_uint (Pos.to_uint p)) ++ " FP")%string in H.
    rewrite negative_label_no_match in H. discriminate.
Qed.

(** ** More on role synchronisation *)

Lemma sync_keeps_unmatched (answers : ext_call -> answer) (member : Member)
    (new_fp : Z) (p : platform) (r : Role) :
  (forall x y, In x (member_roles member p) -> In y (member_roles member p) ->
               role_id x = role_id y -> x = y) ->
  In r (member_roles member p) -> is_fp_role r = false ->
  In r (member_roles member (snd (sync_member_fp_role answers member new_fp p))).
Proof.
  intros Hids Hr Hno.
  destruct (removal_step answers member
              (List.filter is_fp_role (member_roles member p)) p)
    as (p1 & attempted & removed & res1 & H1 & _ & _ & Hm1 & Hcase).
  rewrite (sync_steps answers member new_fp p p1 res1 H1).
  assert (Hsub : forall y, In y removed ->
                           In y (List.filter is_fp_role (member_roles member p))).
  { destruct Hcase as [(_ & -> & _) | (pre & x & post & -> & _ & -> & _)]; [auto|].
    intros y Hy. apply in_or_app. by left. }
  assert (H1r : In r (member_roles member p1)).
  { rewrite Hm1. apply in_without_all. split; [exact Hr|].
    intros y Hy Heq. apply Hsub in Hy. apply filter_In in Hy as [Hy Hfp].
    rewrite (Hids r y Hr Hy Heq) in Hno. congruence. }
  destruct res1 as [[]|e]; [|exact H1r].
  destruct (utils_get _ _) as [target|]; [|exact H1r].
  destruct (attach_step answers member target p1) as (p2 & res2 & H2 & _ & _ & Hm2 & _).
  rewrite H2.
  destruct res2; cbn [snd]; (destruct Hm2 as [-> | ->];
    [exact H1r | apply in_or_app; by left]).
Qed.

(** X7. A role named after a negative score, once held, is never taken
    away by a later sync, whatever the new score and whatever the platform
    answers: its name does not match the pattern. *)
Theorem negative_label_is_never_removed (answers : ext_call -> answer) (member : Member)
    (old_fp new_fp : Z) (p : platform) (r : Role) :
  (forall x y, In x (member_roles member p) -> In y (member_roles member p) ->
               role_id x = role_id y -> x = y) ->
  old_fp < 0 -> role_name r = fp_label old_fp ->
  In r (member_roles member p) ->
  In r (member_roles member (snd (sync_member_fp_role answers member new_fp p))).
Proof.
  intros Hids Hneg Hname Hr. apply sync_keeps_unmatched; try assumption.
  destruct r as [id name]. simpl in Hname. subst name.
  rewrite is_fp_role_fp_label. apply Z.leb_gt. exact Hneg.
Qed.

Lemma negative_label_is_never_removed_witness :
  let debt := MkRole 7 "-5 FP" in
  let member := MkMember 10 false in
  let p := Platform [debt; MkRole 8 "3 FP"] [member] {[ 10 := [debt] ]} [] in
  In debt (member_roles member (snd (sync_member_fp_role (fun _ => Performed) member 3 p))).
Proof.
  intros debt member p.
  apply (negative_label_is_never_removed (fun _ => Performed) member (-5) 3 p debt).
  - intros x y Hx Hy _. vm_compute in Hx, Hy.
    destruct Hx as [<- | []]. destruct Hy as [<- | []]. reflexivity.
  - lia.
  - reflexivity.
  - vm_compute. auto.
Defined.

(** X8. When every request is performed, a sync takes away every role of
    the member named after a score that is not negative, except the target
    role itself, which is given back. *)
Theorem sync_replaces_score_roles (member : Member) (old_fp new_fp : Z)
    (p : platform) (r : Role) :
  0 <= old_fp -> role_name r = fp_label old_fp ->
  utils_get (guild_roles p) (fp_label new_fp) <> Some r ->
  ~ In r (member_roles member
            (snd (sync_member_fp_role (fun _ => Performed) member new_fp p))).
Proof.
  intros Hpos Hname Htarget Hin.
  assert (Hfp : is_fp_role r = true).
  { destruct r as [id name]. simpl in Hname. subst name.
    rewrite is_fp_role_fp_label. by apply Z.leb_le. }
  destruct (removal_step (fun _ => Performed) member
              (List.filter is_fp_role (member_roles member p)) p)
    as (p1 & attempted & removed & res1 & H1 & _ & _ & Hm1 & Hcase).
  rewrite (sync_steps (fun _ => Performed) member new_fp p p1 res1 H1) in Hin.
  destruct Hcase as [(_ & -> & -> & _) | (pre & x & post & _ & _ & _ & _ & Hx)];
    [|destruct Hx as [[Hx _] | [Hx _]]; discriminate Hx].
  assert (Hgone : ~ In r (member_roles member p1)).
  { rewrite Hm1. intros Hr. apply in_without_all in Hr as [Hr Hne].
    apply (Hne r); [|reflexivity]. apply filter_In. by split. }
  destruct (utils_get _ _) as [target|]; [|contradiction].
  destruct (attach_step (fun _ => Performed) member target p1)
    as (p2 & res2 & H2 & _ & _ & Hm2 & _).
  rewrite H2 in Hin.
  assert (Hin2 : In r (member_roles member p2)) by (destruct res2; exact Hin).
  destruct Hm2 as [E | E]; rewrite E in Hin2.
  - contradiction.
  - apply in_app_or in Hin2 as [Hin2 | [<- | []]]; [contradiction|]. by apply Htarget.
Qed.

Lemma sync_replaces_score_roles_witness :
  let r7 := MkRole 1 "7 FP" in
  let r12 := MkRole 2 "12 FP" in
  let member := MkMember 10 false in
  let p := Platform [r7; r12] [member] {[ 10 := [r7] ]} [] in
  ~ In r7 (member_roles member
             (snd (sync_member_fp_role (fun _ => Performed) member 12 p))).
Proof.
  intros r7 r12 member p.
  apply (sync_replaces_score_roles member 7 12 p r7); [lia | reflexivity | discriminate].
Defined.

(** X9. When the guild has the target role but the platform refuses to
    attach it, and no removal failed, [sync_member_fp_role] still returns
    [True]; a member who did not hold the role before does not hold it
    afterwards. *)
Theorem sync_reports_true_when_attach_refused (answers : ext_call -> answer)
    (member : Member) (new_fp : Z) (p : platform) (target : Role) :
  utils_get (guild_roles p) (fp_label new_fp) = Some target ->
  answers (AddRole (m_id member) target) = Refused ->
  (forall r, answers (RemoveRole (m_id member) r) <> Failed) ->
  ~ In target (member_roles member p) ->
  exists p',
    sync_member_fp_role answers member new_fp p = (Ok true, p')
    /\ ~ In target (member_roles member p')
    /\ In (AddRole (m_id member) target) (calls p').
Proof.
  intros Ht Hrefused Hremovals Hnot.
  destruct (removal_step answers member
              (List.filter is_fp_role (member_roles member p)) p)
    as (p1 & attempted & removed & res1 & H1 & _ & _ & Hm1 & Hcase).
  assert (res1 = Ok tt) as Hres.
  { destruct Hcase as [(_ & _ & Hres & _) | (pre & x & post & _ & _ & _ & _ & Hx)];
      [exact Hres|].
    destruct Hx as [[_ Hres] | [Hx _]]; [exact Hres | by apply Hremovals in Hx]. }
  subst res1.
  rewrite (sync_steps answers member new_fp p p1 (Ok tt) H1), Ht.
  assert (H2 : except_forbidden_pass (add_roles answers member [target]) p1 =
               (Ok tt, log_call (AddRole (m_id member) target) p1)).
  { unfold except_forbidden_pass, add_roles; simpl. unfold bind, add_role.
    by rewrite Hrefused. }
  rewrite H2. eexists. split; [reflexivity|]. split.
  - change (member_roles member (log_call _ p1)) with (member_roles member p1).
    rewrite Hm1. intros Hin. apply in_without_all in Hin as [Hin _]. contradiction.
  - simpl. apply in_or_app. right. by left.
Qed.

Lemma sync_reports_true_when_attach_refused_witness :
  let r12 := MkRole 2 "12 FP" in
  let member := MkMember 10 false in
  let p := Platform [r12] [member] ∅ [] in
  exists p',
    sync_member_fp_role (fun _ => Refused) member 12 p = (Ok true, p')
    /\ ~ In r12 (member_roles member p').
Proof.
  intros r12 member p.
  destruct (sync_reports_true_when_attach_refused (fun _ => Refused) member 12 p r12)
    as (p' & Hrun & Hnot & _);
    [reflexivity | reflexivity | intros r; discriminate | intros [] |].
  exists p'. split; assumption.
Defined.

(** X10. [discord.Forbidden] never leaves a sync: a sync raises only when
    one of the requests it sent failed in another way, and then with that
    failure; when none of them failed it returns.  Returning or raising,
    every request it sent is about its member, and the guild's roles and
    members and the roles of every other member are what they were. *)
Theorem sync_touches_only_its_member (answers : ext_call -> answer) (member : Member)
    (new_fp : Z) (p : platform) :
  exists (res : result bool) (p' : platform) (sent : list ext_call),
    sync_member_fp_role answers member new_fp p = (res, p')
    /\ calls p' = calls p ++ sent
    /\ (forall c, In c sent -> call_member c = m_id member)
    /\ guild_roles p' = guild_roles p
    /\ guild_members p' = guild_members p
    /\ (forall other, other <> m_id member -> held p' !! other = held p !! other)
    /\ (forall e, res = Raise e ->
          e = HTTPException /\ exists c, In c sent /\ answers c = Failed)
    /\ ((forall c, In c sent -> answers c <> Failed) -> exists existed, res = Ok existed).
Proof.
  destruct (sync_frame answers member new_fp p)
    as (res & p' & sent & Hrun & (Hr & Hm & Hh) & Hc & Hsent & Hres).
  exists res, p', sent. repeat (split; [assumption|]). split.
  - intros e He. destruct Hres as [(Hres & Hfailed) | (existed & Hres & _)].
    + rewrite Hres in He. injection He as <-. by split.
    + rewrite Hres in He. discriminate.
  - intros Hnofail. destruct Hres as [(_ & c & Hin & Hf) | (existed & -> & _)].
    + by apply Hnofail in Hf.
    + by exists existed.
Qed.

(** ** More on the permission check *)

(** X11. After an authorised call, the caller's next unauthorised attempt
    is counted as the first and gets the default message, however many
    attempts were recorded before and whatever the two times are. *)
Theorem authorised_call_clears_escalation (ctx ctx' : context) (t0 t1 : Q) (g : gate) :
  manage_roles ctx || administrator ctx = true ->
  manage_roles ctx' || administrator ctx' = false ->
  author_id ctx' = author_id ctx ->
  let g1 := snd (predicate ctx t0 g) in
  let g2 := snd (predicate ctx' t1 g1) in
  fst (predicate ctx' t1 g1) = Ok false
  /\ attempts_of (author_id ctx) g2 = (1%nat, t1)
  /\ replies g2 = replies g ++ [DEFAULT_MESSAGE].
Proof.
  intros Hyes Hno Hsame g1 g2.
  assert (E1 : g1 = set_attempts (author_id ctx) (0%nat, 0%Q) g).
  { unfold g1, predicate. by rewrite Hyes. }
  pose proof (predicate_unauthorized ctx' t1 g1 Hno) as Hp. simpl in Hp.
  rewrite Hsame in Hp.
  assert (Ha : attempts_of (author_id ctx) g1 = (0%nat, 0%Q)).
  { rewrite E1. apply attempts_of_set. }
  rewrite Ha in Hp. simpl in Hp.
  assert (E2 : predicate ctx' t1 g1 =
               (Ok false, reply DEFAULT_MESSAGE (set_attempts (author_id ctx) (1%nat, t1) g1))).
  { rewrite Hp. destruct (QMicromega.Qlt_bool _ _); reflexivity. }
  unfold g2. rewrite E2. cbn [fst snd]. split; [reflexivity|].
  split; [by rewrite attempts_of_reply, attempts_of_set|]. by rewrite E1.
Qed.

Lemma authorised_call_clears_escalation_witness :
  let g := Gate {[ 5 := (7%nat, 100%Q) ]} [] in
  let g1 := snd (predicate (Context 5 true false) 101 g) in
  attempts_of 5 (snd (predicate (Context 5 false false) 102 g1)) = (1%nat, 102%Q).
Proof.
  intros g g1.
  destruct (authorised_call_clears_escalation (Context 5 true false)
              (Context 5 false false) 101 102 g eq_refl eq_refl eq_refl) as (_ & H & _).
  exact H.
Defined.

(** X12. An unauthorised attempt changes no other user's attempt record
    and sends exactly one message. *)
Theorem unauthorised_attempt_frame (ctx : context) (now : Q) (g : gate) (other : Z) :
  manage_roles ctx || administrator ctx = false ->
  other <> author_id ctx ->
  attempts_of other (snd (predicate ctx now g)) = attempts_of other g
  /\ length (replies (snd (predicate ctx now g))) = S (length (replies g)).
Proof.
  intros Hno Hother. rewrite (predicate_unauthorized ctx now g Hno). simpl.
  split.
  - unfold attempts_of. simpl. rewrite lookup_insert_ne; [reflexivity | congruence].
  - rewrite length_app. simpl. lia.
Qed.

Lemma unauthorised_attempt_frame_witness :
  let g := Gate {[ 6 := (2%nat, 50%Q) ]} [] in
  attempts_of 6 (snd (predicate (Context 5 false false) 60 g)) = (2%nat, 50%Q).
Proof.
  intros g.
  destruct (unauthorised_attempt_frame (Context 5 false false) 60 g 6 eq_refl) as [H _];
    [discriminate|].
  exact H.
Defined.

(** ** More on the warnings schema *)

(** X13. [ensure_warning_schema] never raises and never changes a
    warnings table that is already there, whatever its columns; when there
    is none it creates an empty one with the columns [id] and [user_id]
    only; running it again changes nothing; scores are left alone. *)
Theorem ensure_warning_schema_keeps_existing (s : store) :
  exists s',
    ensure_warning_schema s = (Ok tt, s')
    /\ (forall t, user_warnings s = Some t -> s' = s)
    /\ (user_warnings s = None ->
        user_warnings s' = Some (empty_table minimal_columns))
    /\ ensure_warning_schema s' = (Ok tt, s')
    /\ user_fp s' = user_fp s
    /\ _uw_new s' = _uw_new s.
Proof.
  destruct s as [fp [t|] scratch].
  - eexists. split; [reflexivity|]. split; [reflexivity|].
    split; [discriminate|]. repeat split.
  - eexists. split; [reflexivity|]. split; [discriminate|]. repeat split.
Qed.

Lemma nth_error_number_rows (next : Z) (es : list (Z * string * string)) (i : nat)
    (user : Z) (reason date : string) :
  nth_error es i = Some (user, reason, date) ->
  nth_error (number_rows next es) i =
    Some (WRow (next + Z.of_nat i) user None (Some reason) (Some date)).
Proof.
  revert next i. induction es as [|[[u r] d] es IH]; intros next i H.
  - destruct i; discriminate.
  - destruct i as [|i]; simpl in *.
    + inversion H. by rewrite Z.add_0_r.
    + rewrite (IH _ _ H). do 2 f_equal. lia.
Qed.

Lemma length_number_rows (next : Z) (es : list (Z * string * string)) :
  length (number_rows next es) = length es.
Proof.
  revert next. induction es as [|[[u r] d] es IH]; intros next; simpl; [reflexivity|].
  by rewrite IH.
Qed.

(** X14. Migrating a table in the mixed shape (a [warnings] column next
    to [reason] and [date]) copies its rows one for one and in scan order
    into a table with the current columns: each copy keeps the user, keeps
    the reason and the date or takes the canned reason and the run date in
    place of NULL, and is numbered from 1; the legacy counts are dropped,
    the scores are left alone, and a second run changes nothing. *)
Theorem migrate_mixed_shape (today today2 : string) (s : store) (t : wtable) :
  user_warnings s = Some t -> _uw_new s = None ->
  "warnings" ∈ table_info (Some t) ->
  ({["reason"; "date"]} : gset string) ⊆ table_info (Some t) ->
  has_col "user_id" t = true ->
  exists (s' : store) (t' : wtable),
    migrate_user_warnings_table today s = (Ok tt, s')
    /\ user_warnings s' = Some t' /\ _uw_new s' = None /\ user_fp s' = user_fp s
    /\ wt_cols t' = current_columns
    /\ length (wt_rows t') = length (wt_rows t)
    /\ (forall i r, nth_error (wt_rows t) i = Some r ->
          nth_error (wt_rows t') i =
            Some (WRow (1 + Z.of_nat i) (w_user r) None
                       (Some (coalesce (w_reason r) "Warning administered"))
                       (Some (coalesce (w_date r) today))))
    /\ migrate_user_warnings_table today2 s' = (Ok tt, s').
Proof.
  intros Hs Hnew Hlegacy Hsub Huser.
  destruct (migrate_body_mixed today s t Hs Hnew Hlegacy Hsub Huser)
    as (c' & Hrun & Hd & _).
  eexists. exists (filled_table (copy_entries today (wt_rows t))).
  split; [unfold migrate_user_warnings_table, with_connection; rewrite Hrun, Hd; reflexivity|].
  split; [reflexivity|]. split; [reflexivity|]. split; [reflexivity|].
  split; [reflexivity|]. split; [|split].
  - simpl. unfold copy_entries. by rewrite length_number_rows, length_map.
  - intros i r Hr. simpl. apply nth_error_number_rows.
    unfold copy_entries. by rewrite nth_error_map, Hr.
  - unfold migrate_user_warnings_table, with_connection.
    rewrite migrate_body_current; [reflexivity|]. apply current_columns_not_legacy.
Qed.

Lemma migrate_mixed_shape_witness :
  let t := {| wt_cols := [Column "user_id" true false; Column "warnings" true false;
                          Column "reason" false false; Column "date" false false];
              wt_rows := [WRow 1 5 (Some 2) (Some "spam") None;
                          WRow 2 6 (Some 1) None (Some "2023-12-31")];
              wt_seq := 0 |} in
  let s := {| user_fp := ∅; user_warnings := Some t; _uw_new := None |} in
  exists t',
    user_warnings (snd (migrate_user_warnings_table "2024-05-01" s)) = Some t'
    /\ wt_rows t' = [WRow 1 5 None (Some "spam") (Some "2024-05-01");
                     WRow 2 6 None (Some "Warning administered") (Some "2023-12-31")].
Proof.
  intros t s.
  destruct (migrate_mixed_shape "2024-05-01" "2024-05-01" s t eq_refl eq_refl)
    as (s' & t' & Hrun & Ht' & _ & _ & _ & Hlen & Hrows & _);
    [decide_columns | decide_columns | reflexivity |].
  exists t'. rewrite Hrun. split; [exact Ht'|].
  pose proof (Hrows 0%nat _ eq_refl) as H0. pose proof (Hrows 1%nat _ eq_refl) as H1.
  destruct (wt_rows t') as [|a [|b [|c l]]]; simpl in Hlen, H0, H1; try discriminate.
  inversion H0. inversion H1. reflexivity.
Defined.

Lemma length_insert_sorted (r : wrow) (l : list wrow) :
  length (insert_sorted r l) = S (length l).
Proof.
  induction l as [|x l IH]; simpl; [reflexivity|].
  destruct (w_id r <=? w_id x); simpl; [reflexivity | by rewrite IH].
Qed.

Lemma length_order_by_id (l : list wrow) : length (order_by_id l) = length l.
Proof.
  induction l as [|x l IH]; simpl; [reflexivity|]. by rewrite length_insert_sorted, IH.
Qed.

Lemma all_equal_repeat {A} (x : A) (l : list A) :
  (forall y, In y l -> y = x) -> l = repeat x (length l).
Proof.
  induction l as [|a l IH]; intros H; simpl; [reflexivity|].
  rewrite (H a (or_introl eq_refl)). f_equal. apply IH. intros y Hy. apply H. by right.
Qed.

(** X15. After the migration of a table in the oldest shape the warning
    functions work.  Let [n] be the sum of the member's legacy counts, a
    NULL or negative count counting as 0.  [warn] succeeds, reports the
    reason it stored (the given one, or the canned one for an absent or
    empty reason) and the total [n + 1]; the member's list read back
    afterwards is the [n] migrated records, each with the fixed reason and
    the migration date, followed by the new record with the stored reason
    and the date of the warning; the lists of the other members are not
    changed by the warning. *)
Theorem warn_after_migration (today today' : string) (member_id : Z)
    (reason : option string) (s : store) (t : wtable) :
  user_warnings s = Some t -> _uw_new s = None ->
  "warnings" ∈ table_info (Some t) ->
  ~ ({["reason"; "date"]} : gset string) ⊆ table_info (Some t) ->
  has_col "user_id" t = true ->
  let stored := match reason with
                | None => DEFAULT_REASON
                | Some "" => DEFAULT_REASON
                | Some r => r
                end in
  let n := list_sum (map (fun r => Z.to_nat (int_or_0 (w_warnings r)))
                         (where_user member_id (wt_rows t))) in
  exists (s' s'' : store),
    migrate_user_warnings_table today s = (Ok tt, s')
    /\ warn member_id reason today' s' = (Ok (stored, S n), s'')
    /\ get_all_warnings member_id s'' =
         (Ok (repeat (Some MIGRATED, Some today) n ++ [(Some stored, Some today')]), s'')
    /\ (forall other, other <> member_id ->
          fst (get_all_warnings other s'') = fst (get_all_warnings other s')).
Proof.
  intros Hs Hnew Hlegacy Hnot Huser stored n.
  destruct (migrate_body_oldest today s t Hs Hnew Hlegacy Hnot Huser)
    as (c' & Hrun & Hd & _).
  set (es := expand_counts today (wt_rows t)) in *.
  set (s' := set_uw_new None (set_user_warnings (Some (filled_table es)) s)) in *.
  destruct (warn_appends member_id reason today' s' (filled_table es))
    as (s'' & before & Hbefore & Hwarn & Hafter & Hothers);
    [reflexivity | reflexivity | reflexivity |].
  assert (Hsel : select_warnings member_id s' =
            Ok (map (fun r => (w_reason r, w_date r))
                    (order_by_id (where_user member_id (number_rows 1 es)))))
    by reflexivity.
  rewrite (get_all_warnings_run member_id s' (filled_table es) eq_refl), Hsel in Hbefore.
  injection Hbefore as Hb.
  assert (Hlen : length before = n).
  { rewrite <- Hb, length_map, length_order_by_id, length_where_user_number_rows.
    apply length_where_user_expand. }
  assert (Hall : before = repeat (Some MIGRATED, Some today) n).
  { rewrite <- Hlen. apply all_equal_repeat. intros y Hy. rewrite <- Hb in Hy.
    apply in_map_iff in Hy as (r & <- & Hr). rewrite in_order_by_id in Hr.
    unfold where_user in Hr. apply filter_In in Hr as [Hr _].
    apply in_number_rows in Hr as (u & re & d & He & _ & -> & ->).
    apply in_expand_counts in He as (r0 & _ & He & _). by injection He as _ -> ->. }
  exists s', s''. split; [|split; [|split]].
  - unfold migrate_user_warnings_table, with_connection. by rewrite Hrun, Hd.
  - by rewrite Hwarn, Hlen.
  - by rewrite Hafter, Hall.
  - exact Hothers.
Qed.

Lemma warn_after_migration_witness :
  let t := {| wt_cols := [Column "user_id" true false; Column "warnings" true false];
              wt_rows := [WRow 1 5 (Some 3) None None]; wt_seq := 0 |} in
  let s := {| user_fp := ∅; user_warnings := Some t; _uw_new := None |} in
  exists s'',
    warn 5 None "2024-06-01" (snd (migrate_user_warnings_table "2024-05-01" s)) =
      (Ok ("Warning administered", 4%nat), s'')
    /\ get_all_warnings 5 s'' =
         (Ok [(Some "Migrated from legacy count", Some "2024-05-01");
              (Some "Migrated from legacy count", Some "2024-05-01");
              (Some "Migrated from legacy count", Some "2024-05-01");
              (Some "Warning administered", Some "2024-06-01")], s'').
Proof.
  intros t s.
  destruct (warn_after_migration "2024-05-01" "2024-06-01" 5 None s t eq_refl eq_refl)
    as (s' & s'' & Hrun & Hwarn & Hlist & _);
    [decide_columns | decide_columns | reflexivity |].
  exists s''. rewrite Hrun. split; [exact Hwarn | exact Hlist].
Defined.

(** ** More on the warning log *)

(** X16. On a database without a warnings table, [add_warning] creates
    the table with the current columns and stores the record under id 1,
    with the reason exactly as passed (also when it is empty: the canned
    reason is substituted by [warn], not here); [get_all_warnings] then
    returns that one record. *)
Theorem add_warning_on_new_database (user_id : Z) (reason today : string) (s : store) :
  user_warnings s = None ->
  exists s',
    add_warning user_id reason today s = (Ok tt, s')
    /\ user_warnings s' =
         Some {| wt_cols := current_columns;
                 wt_rows := [WRow 1 user_id None (Some reason) (Some today)];
                 wt_seq := 1 |}
    /\ get_all_warnings user_id s' = (Ok [(Some reason, Some today)], s')
    /\ user_fp s' = user_fp s.
Proof.
  intros Hs. destruct s as [fp t scratch]. simpl in Hs. subst t.
  exists (Store fp
            (Some {| wt_cols := current_columns;
                     wt_rows := [WRow 1 user_id None (Some reason) (Some today)];
                     wt_seq := 1 |}) scratch).
  split; [reflexivity|]. split; [reflexivity|]. split; [|reflexivity].
  erewrite get_all_warnings_run by reflexivity.
  unfold select_warnings. cbn [user_warnings].
  change (has_col "reason" _ && has_col "date" _ && has_col "user_id" _ && has_col "id" _)
    with true.
  cbn [wt_rows]. unfold where_user. simpl. by rewrite Z.eqb_refl.
Qed.

Lemma add_warning_on_new_database_witness :
  exists s',
    add_warning 5 "" "2024-05-01" (Store ∅ None None) = (Ok tt, s')
    /\ get_all_warnings 5 s' = (Ok [(Some "", Some "2024-05-01")], s').
Proof.
  destruct (add_warning_on_new_database 5 "" "2024-05-01" (Store ∅ None None) eq_refl)
    as (s' & Hadd & _ & Hget & _).
  exists s'. split; assumption.
Defined.

(** X17. On a warnings table with the current columns, [warn] adds one
    record at the end of the member's list, with the given reason, or
    "Warning administered" when the reason is absent or empty, and today's
    date; the total it reports is the new length of the list; the lists of
    the other members are what they were. *)
Theorem warn_appends_one_record (member_id : Z) (reason : option string)
    (today : string) (s : store) (t : wtable) :
  user_warnings s = Some t -> wt_cols t = current_columns ->
  let stored := match reason with
                | None => DEFAULT_REASON
                | Some "" => DEFAULT_REASON
                | Some r => r
                end in
  exists (s' : store) (before : list (option string * option string)),
    get_all_warnings member_id s = (Ok before, s)
    /\ warn member_id reason today s = (Ok (stored, S (length before)), s')
    /\ get_all_warnings member_id s' = (Ok (before ++ [(Some stored, Some today)]), s')
    /\ forall other, other <> member_id ->
         fst (get_all_warnings other s') = fst (get_all_warnings other s).
Proof.
  intros Hs Hcols.
  apply (warn_appends member_id reason today s t Hs).
  - unfold accepts_warnings, has_col, table_info. rewrite Hcols. reflexivity.
  - unfold has_col, table_info. rewrite Hcols. reflexivity.
Qed.

Lemma warn_appends_one_record_witness :
  let t := {| wt_cols := current_columns;
              wt_rows := [WRow 1 5 None (Some "spam") (Some "2024-04-30")];
              wt_seq := 1 |} in
  let s := Store ∅ (Some t) None in
  exists s',
    warn 5 (Some "") "2024-05-01" s = (Ok ("Warning administered", 2%nat), s')
    /\ get_all_warnings 5 s' =
         (Ok [(Some "spam", Some "2024-04-30");
              (Some "Warning administered", Some "2024-05-01")], s').
Proof.
  intros t s.
  destruct (warn_appends_one_record 5 (Some "") "2024-05-01" s t eq_refl eq_refl)
    as (s' & before & Hbefore & Hwarn & Hafter & _).
  assert (before = [(Some "spam", Some "2024-04-30")]) as ->.
  { assert (fst (get_all_warnings 5 s) = Ok [(Some "spam", Some "2024-04-30")]) as H
      by reflexivity.
    rewrite Hbefore in H. by inversion H. }
  exists s'. split; [exact Hwarn | exact Hafter].
Defined.

(** X18. [get_all_warnings] is not a pure read: on a database without a
    warnings table it creates the empty table with the current columns and
    returns the empty list; on a table that has the columns it reads the
    store is left exactly as it is. *)
Theorem get_all_warnings_creates_table (user_id : Z) (s : store) :
  (user_warnings s = None ->
   get_all_warnings user_id s =
     (Ok [], set_user_warnings (Some (empty_table current_columns)) s))
  /\ (forall t rows, user_warnings s = Some t ->
        fst (get_all_warnings user_id s) = Ok rows ->
        get_all_warnings user_id s = (Ok rows, s)).
Proof.
  split.
  - intros Hs. destruct s as [fp t scratch]. simpl in Hs. subst t. reflexivity.
  - intros t rows Hs Hrows. rewrite (get_all_warnings_run user_id s t Hs) in *.
    simpl in Hrows. by rewrite Hrows.
Qed.

Lemma clear_warnings_run (user_id : Z) (s : store) (t : wtable) :
  user_warnings s = Some t -> has_col "user_id" t = true ->
  clear_warnings user_id s =
    (Ok (length (where_user user_id (wt_rows t))),
     set_user_warnings
       (Some {| wt_cols := wt_cols t;
                wt_rows := List.filter (fun r => negb (w_user r =? user_id)) (wt_rows t);
                wt_seq := wt_seq t |}) s).
Proof.
  intros Hs Huser. unfold clear_warnings. run_connection.
  unfold count_warnings. rewrite Hs, Huser.
  cbn [working durable in_txn journal fst snd].
  unfold delete_warnings. rewrite Hs, Huser. reflexivity.
Qed.

Lemma where_user_without_user (user other : Z) (rows : list wrow) :
  where_user other (List.filter (fun r => negb (w_user r =? user)) rows) =
    if other =? user then [] else where_user other rows.
Proof.
  unfold where_user. induction rows as [|r rows IH]; simpl.
  - by destruct (other =? user).
  - destruct (w_user r =? user) eqn:Hu; simpl.
    + rewrite IH. destruct (other =? user) eqn:Ho; [reflexivity|].
      apply Z.eqb_eq in Hu. apply Z.eqb_neq in Ho.
      assert ((w_user r =? other) = false) as -> by (apply Z.eqb_neq; congruence).
      reflexivity.
    + rewrite IH. destruct (other =? user) eqn:Ho.
      * apply Z.eqb_eq in Ho. subst other. by rewrite Hu.
      * reflexivity.
Qed.

(** X19. On a warnings table with a [user_id] column, [clear_warnings]
    returns the number of the user's records and deletes exactly those: the
    user has none left, every other user's records are what they were, and
    clearing again returns 0 and changes nothing more. *)
Theorem clear_warnings_spec (user_id : Z) (s : store) (t : wtable) :
  user_warnings s = Some t -> has_col "user_id" t = true ->
  exists (s' : store) (t' : wtable),
    clear_warnings user_id s = (Ok (length (where_user user_id (wt_rows t))), s')
    /\ user_warnings s' = Some t'
    /\ where_user user_id (wt_rows t') = []
    /\ (forall other, other <> user_id ->
          where_user other (wt_rows t') = where_user other (wt_rows t))
    /\ clear_warnings user_id s' = (Ok 0%nat, s')
    /\ user_fp s' = user_fp s.
Proof.
  intros Hs Huser. rewrite (clear_warnings_run user_id s t Hs Huser).
  eexists. eexists. split; [reflexivity|]. split; [reflexivity|]. cbn [wt_rows].
  split; [|split; [|split]].
  - by rewrite where_user_without_user, Z.eqb_refl.
  - intros other Hother. rewrite where_user_without_user.
    by apply Z.eqb_neq in Hother as ->.
  - erewrite clear_warnings_run; [|reflexivity|exact Huser]. cbn [wt_rows wt_cols wt_seq].
    rewrite where_user_without_user, Z.eqb_refl.
    rewrite (filter_all_true _ (List.filter _ _)).
    + destruct s; reflexivity.
    + intros x Hx. by apply filter_In in Hx as [_ ?].
  - reflexivity.
Qed.

Lemma clear_warnings_spec_witness :
  let t := {| wt_cols := current_columns;
              wt_rows := [WRow 1 5 None (Some "a") (Some "d"); WRow 2 6 None (Some "b") (Some "d");
                          WRow 3 5 None (Some "c") (Some "d")];
              wt_seq := 3 |} in
  exists s', clear_warnings 5 (Store ∅ (Some t) None) = (Ok 2%nat, s').
Proof.
  intros t.
  destruct (clear_warnings_spec 5 (Store ∅ (Some t) None) t eq_refl eq_refl)
    as (s' & t' & Hrun & _).
  exists s'. exact Hrun.
Defined.

Lemma get_all_warnings_creates_table_witness :
  get_all_warnings 5 (Store ∅ None None) =
    (Ok [], Store ∅ (Some (empty_table current_columns)) None)
  /\ get_all_warnings 5 (Store ∅ (Some (empty_table current_columns)) None) =
       (Ok [], Store ∅ (Some (empty_table current_columns)) None).
Proof.
  split.
  - exact (proj1 (get_all_warnings_creates_table 5 (Store ∅ None None)) eq_refl).
  - exact (proj2 (get_all_warnings_creates_table 5
                    (Store ∅ (Some (empty_table current_columns)) None))
                 (empty_table current_columns) [] eq_refl eq_refl).
Defined.

(** ** Record ids *)

Lemma next_rowid_autoinc_gt_seq (t : wtable) :
  existsb c_autoinc (wt_cols t) = true -> wt_seq t < next_rowid t.
Proof.
  intros Ha. unfold next_rowid. rewrite Ha. destruct (largest_rowid (wt_rows t)); lia.
Qed.

Lemma current_columns_accept (t : wtable) :
  wt_cols t = current_columns ->
  accepts_warnings t = true /\ has_col "id" t = true /\ has_col "user_id" t = true
  /\ existsb c_autoinc (wt_cols t) = true.
Proof.
  intros H. unfold accepts_warnings, has_col, table_info. rewrite H.
  repeat split; reflexivity.
Qed.

Lemma set_user_warnings_twice (a b : option wtable) (s : store) :
  set_user_warnings a (set_user_warnings b s) = set_user_warnings a s.
Proof. by destruct s. Qed.

Lemma warn_run (member_id : Z) (reason : option string) (today : string)
    (s : store) (t : wtable) :
  user_warnings s = Some t ->
  accepts_warnings t = true -> has_col "id" t = true ->
  let stored := match reason with
                | None => DEFAULT_REASON
                | Some "" => DEFAULT_REASON
                | Some r => r
                end in
  warn member_id reason today s =
    (Ok (stored, S (length (where_user member_id (wt_rows t)))),
     set_user_warnings
       (Some {| wt_cols := wt_cols t;
                wt_rows := wt_rows t
                           ++ [WRow (next_rowid t) member_id None (Some stored) (Some today)];
                wt_seq := next_rowid t |}) s).
Proof.
  intros Hs Hacc Hid stored.
  assert (Hcols : has_col "reason" t && has_col "date" t && has_col "user_id" t
                  && has_col "id" t = true).
  { unfold accepts_warnings in Hacc.
    apply andb_true_iff in Hacc as [Hacc _].
    apply andb_true_iff in Hacc as [Hacc Hd].
    apply andb_true_iff in Hacc as [Hu Hr]. by rewrite Hu, Hr, Hd, Hid. }
  unfold warn. fold stored. unfold bind.
  rewrite (add_warning_run _ _ _ s t Hs), (insert_into_accepts _ _ _ _ Hacc).
  erewrite get_all_warnings_run by (destruct s; reflexivity).
  unfold select_warnings.
  replace (user_warnings (set_user_warnings _ s)) with
    (Some {| wt_cols := wt_cols t;
             wt_rows := wt_rows t
                        ++ [WRow (next_rowid t) member_id None (Some stored) (Some today)];
             wt_seq := next_rowid t |}) by (destruct s; reflexivity).
  change (has_col "reason" _ && has_col "date" _ && has_col "user_id" _ && has_col "id" _)
    with (has_col "reason" t && has_col "date" t && has_col "user_id" t && has_col "id" t).
  rewrite Hcols. unfold ret. cbn [wt_rows].
  rewrite length_map, length_order_by_id. unfold where_user.
  rewrite List.filter_app, length_app. simpl. rewrite Z.eqb_refl. simpl.
  do 3 f_equal. lia.
Qed.

Lemma filter_drops_new_row (rows : list wrow) (new : wrow) :
  (forall r, In r rows -> w_id r < w_id new) ->
  List.filter (fun r => negb (w_id r =? w_id new)) (rows ++ [new]) = rows.
Proof.
  intros Hlt. rewrite List.filter_app. simpl. rewrite Z.eqb_refl. simpl.
  rewrite app_nil_r. apply filter_all_true. intros x Hx.
  apply negb_true_iff, Z.eqb_neq. specialize (Hlt x Hx). lia.
Qed.

Lemma last_id_of_appended (user : Z) (rows : list wrow) (new : wrow) :
  w_user new = user ->
  (forall r, In r rows -> w_id r < w_id new) ->
  hd_error (rev (map w_id (order_by_id (where_user user (rows ++ [new]))))) = Some (w_id new).
Proof.
  intros Hu Hlt. unfold where_user. rewrite List.filter_app. simpl.
  assert ((w_user new =? user) = true) as -> by by apply Z.eqb_eq.
  rewrite order_by_id_app_last.
  - rewrite map_app. change (map w_id [new]) with [w_id new]. apply hd_error_rev_last.
  - intros x Hx. apply filter_In in Hx as [Hx _]. by apply Hlt.
Qed.

(** X20. Record ids are not reused. On a warnings table with the current
    columns whose sequence counter bounds its ids, after the last warning
    of a user who has one is removed, the next warning added (for anyone)
    gets an id larger than the id of every record the table held before
    the removal, the removed one included. *)
Theorem warning_ids_are_not_reused (user_id other : Z) (reason today : string)
    (s : store) (t : wtable) :
  user_warnings s = Some t -> wt_cols t = current_columns ->
  dense (wt_rows t) (wt_seq t) ->
  where_user user_id (wt_rows t) <> [] ->
  exists (s1 s2 : store) (t1 : wtable) (new : wrow),
    remove_last_warning user_id s = (Ok true, s1)
    /\ user_warnings s1 = Some t1
    /\ add_warning other reason today s1 = (Ok tt, s2)
    /\ user_warnings s2 =
         Some {| wt_cols := current_columns; wt_rows := wt_rows t1 ++ [new];
                 wt_seq := w_id new |}
    /\ w_user new = other /\ w_reason new = Some reason /\ w_date new = Some today
    /\ forall r, In r (wt_rows t) -> w_id r < w_id new.
Proof.
  intros Hs Hcols [Hseq Hdense] Hmine.
  destruct (current_columns_accept t Hcols) as (Hacc & Hid & Huser & Hauto).
  rewrite (remove_last_warning_run user_id s t Hs Hid Huser).
  destruct (hd_error _) as [last_id|] eqn:Hlast.
  - set (t1 := {| wt_cols := wt_cols t;
                  wt_rows := List.filter (fun r => negb (w_id r =? last_id)) (wt_rows t);
                  wt_seq := wt_seq t |}).
    destruct (current_columns_accept t1 Hcols) as (Hacc1 & _ & _ & Hauto1).
    exists (set_user_warnings (Some t1) s).
    exists (set_user_warnings
              (Some {| wt_cols := wt_cols t1;
                       wt_rows := wt_rows t1
                                  ++ [WRow (next_rowid t1) other None (Some reason) (Some today)];
                       wt_seq := next_rowid t1 |}) s).
    exists t1, (WRow (next_rowid t1) other None (Some reason) (Some today)).
    split; [reflexivity|]. split; [by destruct s|]. split.
    { erewrite add_warning_run by (destruct s; reflexivity).
      rewrite (insert_into_accepts _ _ _ _ Hacc1). by rewrite set_user_warnings_twice. }
    split.
    { destruct s; simpl. by rewrite Hcols. }
    repeat (split; [reflexivity|]).
    intros r Hr. cbn [w_id].
    pose proof (next_rowid_autoinc_gt_seq t1 Hauto1) as Hnext.
    specialize (Hdense r Hr). change (wt_seq t1) with (wt_seq t) in Hnext. lia.
  - exfalso. apply Hmine.
    assert (length (rev (map w_id (order_by_id (where_user user_id (wt_rows t))))) = 0%nat)
      as Hlen by (destruct (rev _); [reflexivity | discriminate]).
    rewrite length_rev, length_map, length_order_by_id in Hlen.
    by apply length_zero_iff_nil.
Qed.

Lemma warning_ids_are_not_reused_witness :
  let t := {| wt_cols := current_columns;
              wt_rows := [WRow 1 5 None (Some "a") (Some "d"); WRow 2 5 None (Some "b") (Some "d")];
              wt_seq := 2 |} in
  exists s2 new,
    add_warning 6 "c" "d" (snd (remove_last_warning 5 (Store ∅ (Some t) None)))
      = (Ok tt, s2)
    /\ user_warnings s2 =
         Some {| wt_cols := current_columns;
                 wt_rows := [WRow 1 5 None (Some "a") (Some "d"); new];
                 wt_seq := w_id new |}
    /\ 2 < w_id new.
Proof.
  intros t.
  assert (dense (wt_rows t) (wt_seq t)) as Hdense.
  { split; [simpl; lia|]. intros r [<- | [<- | []]]; simpl; lia. }
  destruct (warning_ids_are_not_reused 5 6 "c" "d" (Store ∅ (Some t) None) t
              eq_refl eq_refl Hdense ltac:(discriminate))
    as (s1 & s2 & t1 & new & Hrem & Hs1 & Hadd & Hs2 & _ & _ & _ & Hlt).
  exists s2, new. rewrite Hrem. cbn [fst snd]. split; [exact Hadd|]. split.
  - rewrite Hs2. assert (wt_rows t1 = [WRow 1 5 None (Some "a") (Some "d")]) as ->; [|reflexivity].
    assert (snd (remove_last_warning 5 (Store ∅ (Some t) None)) =
            Store ∅ (Some {| wt_cols := current_columns;
                             wt_rows := [WRow 1 5 None (Some "a") (Some "d")];
                             wt_seq := 2 |}) None) as H by reflexivity.
    rewrite Hrem in H. simpl in H. rewrite H in Hs1. simpl in Hs1. by inversion Hs1.
  - apply (Hlt (WRow 2 5 None (Some "b") (Some "d"))). right. by left.
Defined.

(** X21. [warnsub] undoes [warn]. On a warnings table with the current
    columns, a warning followed by [warnsub] for the same member removes
    exactly the record just added: the rows of the table are again the rows
    from before the warning, the total [warnsub] reports is one less than
    the total [warn] reported, and the score ledger is untouched. Only the
    sequence counter has moved on. *)
Theorem warnsub_undoes_warn (member_id : Z) (reason : option string) (today : string)
    (s : store) (t : wtable) :
  user_warnings s = Some t -> wt_cols t = current_columns ->
  exists (s1 s2 : store) (stored : string) (total : nat),
    warn member_id reason today s = (Ok (stored, S total), s1)
    /\ warnsub member_id s1 = (Ok (Some total), s2)
    /\ user_warnings s2 =
         Some {| wt_cols := wt_cols t; wt_rows := wt_rows t; wt_seq := next_rowid t |}
    /\ wt_seq t < next_rowid t
    /\ user_fp s2 = user_fp s /\ _uw_new s2 = _uw_new s.
Proof.
  intros Hs Hcols.
  destruct (current_columns_accept t Hcols) as (Hacc & Hid & Huser & Hauto).
  rewrite (warn_run member_id reason today s t Hs Hacc Hid). cbv zeta.
  set (stored := match reason with
                 | None => DEFAULT_REASON
                 | Some "" => DEFAULT_REASON
                 | Some r => r
                 end).
  set (new := WRow (next_rowid t) member_id None (Some stored) (Some today)).
  set (t1 := {| wt_cols := wt_cols t; wt_rows := wt_rows t ++ [new];
                wt_seq := next_rowid t |}).
  set (t2 := {| wt_cols := wt_cols t; wt_rows := wt_rows t; wt_seq := next_rowid t |}).
  assert (Hnew : forall r, In r (wt_rows t) -> w_id r < w_id new).
  { intros r Hr. by apply next_rowid_gt. }
  exists (set_user_warnings (Some t1) s), (set_user_warnings (Some t2) s),
    stored, (length (where_user member_id (wt_rows t))).
  split; [reflexivity|]. split.
  - unfold warnsub, bind.
    erewrite remove_last_warning_run; [|by destruct s|exact Hid|exact Huser].
    cbn [wt_rows t1]. rewrite (last_id_of_appended member_id (wt_rows t) new eq_refl Hnew).
    cbn [negb]. rewrite set_user_warnings_twice.
    rewrite (filter_drops_new_row (wt_rows t) new Hnew).
    change {| wt_cols := wt_cols t1; wt_rows := wt_rows t; wt_seq := wt_seq t1 |} with t2.
    erewrite get_all_warnings_run by (destruct s; reflexivity).
    unfold select_warnings.
    replace (user_warnings (set_user_warnings (Some t2) s)) with (Some t2) by by destruct s.
    assert (has_col "reason" t2 && has_col "date" t2 && has_col "user_id" t2
            && has_col "id" t2 = true) as Hcols2.
    { unfold has_col, table_info. cbn [t2 wt_cols]. rewrite Hcols. reflexivity. }
    rewrite Hcols2. unfold ret. by rewrite length_map, length_order_by_id.
  - split; [by destruct s|]. split; [by apply next_rowid_autoinc_gt_seq|].
    by destruct s.
Qed.

Lemma warnsub_undoes_warn_witness :
  let t := {| wt_cols := current_columns;
              wt_rows := [WRow 1 5 None (Some "a") (Some "d")];
              wt_seq := 4 |} in
  exists s1 s2,
    warn 5 None "2024-05-01" (Store ∅ (Some t) None) = (Ok ("Warning administered", 2%nat), s1)
    /\ warnsub 5 s1 = (Ok (Some 1%nat), s2)
    /\ user_warnings s2 =
         Some {| wt_cols := current_columns;
                 wt_rows := [WRow 1 5 None (Some "a") (Some "d")];
                 wt_seq := 5 |}.
Proof.
  intros t.
  destruct (warnsub_undoes_warn 5 None "2024-05-01" (Store ∅ (Some t) None) t eq_refl eq_refl)
    as (s1 & s2 & stored & total & Hwarn & Hsub & Hs2 & _).
  assert (fst (warn 5 None "2024-05-01" (Store ∅ (Some t) None))
          = Ok ("Warning administered", 2%nat)) as H by reflexivity.
  rewrite Hwarn in H. simpl in H. injection H as -> ->.
  exists s1, s2. split; [exact Hwarn|]. split; [exact Hsub|]. exact Hs2.
Defined.

(** ** A member leaves *)

Lemma on_member_remove_run (member_id : Z) (s : store) (t : wtable) :
  user_warnings s = Some t -> has_col "user_id" t = true ->
  on_member_remove_body member_id (connect s) =
    let s' := {| user_fp := delete member_id (user_fp s);
                 user_warnings :=
                   Some {| wt_cols := wt_cols t;
                           wt_rows := List.filter (fun r => negb (w_user r =? member_id))
                                        (wt_rows t);
                           wt_seq := wt_seq t |};
                 _uw_new := _uw_new s |} in
    (Ok tt, {| durable := s'; working := s'; in_txn := false; journal := [s; s; s; s'] |}).
Proof.
  intros Hs Huser. unfold on_member_remove_body. run_connection.
  unfold delete_fp. cbn [working durable in_txn journal fst snd].
  unfold delete_warnings.
  replace (user_warnings (set_user_fp _ s)) with (Some t) by (by destruct s).
  rewrite Huser. destruct s; reflexivity.
Qed.

(** X22. When a member leaves and the warnings table has a [user_id]
    column, [on_member_remove] deletes the member's score (reading it gives
    0 afterwards) and all of the member's warnings, and nothing of anyone
    else; the two deletions become durable together: the file never holds a
    content in which only one of them is done. *)
Theorem on_member_remove_spec (member_id : Z) (s : store) (t : wtable) :
  user_warnings s = Some t -> has_col "user_id" t = true ->
  exists (s' : store) (t' : wtable),
    on_member_remove member_id s = (Ok tt, s')
    /\ get_fp member_id s' = (Ok 0, s')
    /\ user_warnings s' = Some t'
    /\ where_user member_id (wt_rows t') = []
    /\ (forall other, other <> member_id ->
          user_fp s' !! other = user_fp s !! other
          /\ where_user other (wt_rows t') = where_user other (wt_rows t))
    /\ forall d, In d (durable_states (on_member_remove_body member_id) s) ->
         d = s \/ d = s'.
Proof.
  intros Hs Huser.
  pose proof (on_member_remove_run member_id s t Hs Huser) as Hrun. cbv zeta in Hrun.
  set (t' := {| wt_cols := wt_cols t;
                wt_rows := List.filter (fun r => negb (w_user r =? member_id)) (wt_rows t);
                wt_seq := wt_seq t |}) in *.
  set (s' := {| user_fp := delete member_id (user_fp s); user_warnings := Some t';
                _uw_new := _uw_new s |}) in *.
  exists s', t'.
  split; [unfold on_member_remove, with_connection; rewrite Hrun; reflexivity|].
  cbn [s' t' user_warnings user_fp wt_rows].
  split; [|split; [reflexivity|split; [|split]]].
  - rewrite get_fp_run. unfold s'. cbn [user_fp].
    assert (delete member_id (user_fp s) !! member_id = None) as ->
      by apply lookup_delete_eq.
    reflexivity.
  - by rewrite where_user_without_user, Z.eqb_refl.
  - intros other Hother. split.
    + apply lookup_delete_ne. congruence.
    + rewrite where_user_without_user. by apply Z.eqb_neq in Hother as ->.
  - unfold durable_states. rewrite Hrun. cbn [snd journal].
    intros d [<- | [<- | [<- | [<- | []]]]]; auto.
Qed.

Lemma on_member_remove_spec_witness :
  let t := {| wt_cols := current_columns;
              wt_rows := [WRow 1 5 None (Some "a") (Some "d"); WRow 2 6 None (Some "b") (Some "d")];
              wt_seq := 2 |} in
  let s := Store (<[5 := 3]> (<[6 := 4]> ∅)) (Some t) None in
  exists s',
    on_member_remove 5 s = (Ok tt, s')
    /\ get_fp 5 s' = (Ok 0, s')
    /\ user_fp s' !! 6 = Some 4.
Proof.
  intros t s.
  destruct (on_member_remove_spec 5 s t eq_refl eq_refl)
    as (s' & t' & Hrun & Hfp & _ & _ & Hother & _).
  exists s'. split; [exact Hrun|]. split; [exact Hfp|].
  destruct (Hother 6 ltac:(lia)) as [-> _]. reflexivity.
Defined.

(** X23. When the warnings table is missing, or has no [user_id] column,
    [on_member_remove] raises at its second DELETE, before the commit: the
    deletion of the score is dropped with the connection, so the member's
    score stays in the file. *)
Theorem on_member_remove_keeps_score_on_error (member_id : Z) (s : store) :
  match user_warnings s with
  | None => True
  | Some t => has_col "user_id" t = false
  end ->
  on_member_remove member_id s = (Raise OperationalError, s)
  /\ forall d, In d (durable_states (on_member_remove_body member_id) s) -> d = s.
Proof.
  intros Hs.
  assert (on_member_remove_body member_id (connect s) =
            (Raise OperationalError,
             {| durable := s; working := set_user_fp (delete member_id (user_fp s)) s;
                in_txn := true; journal := [s; s] |})) as Hrun.
  { unfold on_member_remove_body. run_connection.
    unfold delete_fp. cbn [working durable in_txn journal fst snd].
    unfold delete_warnings.
    destruct s as [fp [t|] scratch]; simpl in *; [by rewrite Hs | reflexivity]. }
  split.
  - unfold on_member_remove, with_connection. by rewrite Hrun.
  - unfold durable_states. rewrite Hrun. cbn [snd journal].
    intros d [<- | [<- | []]]; reflexivity.
Qed.

Lemma on_member_remove_keeps_score_on_error_witness :
  let s := Store (<[5 := 3]> ∅) None None in
  on_member_remove 5 s = (Raise OperationalError, s)
  /\ get_fp 5 s = (Ok 3, s).
Proof.
  intros s. split; [|reflexivity].
  exact (proj1 (on_member_remove_keeps_score_on_error 5 s I)).
Defined.

(** ** Leaderboards *)

Lemma ranks_before_ranked (a b : Z * Z) : ranks_before a b = true <-> ranked a b.
Proof.
  unfold ranks_before, ranked.
  rewrite orb_true_iff, andb_true_iff, Z.ltb_lt, Z.eqb_eq, Z.leb_le. reflexivity.
Qed.

Lemma ranks_before_false (a b : Z * Z) : ranks_before a b = false -> ranked b a.
Proof.
  intros H. destruct (ranks_before a b) eqn:Hab; [discriminate|].
  unfold ranks_before in Hab. apply orb_false_iff in Hab as [H1 H2].
  apply Z.ltb_ge in H1. unfold ranked.
  apply andb_false_iff in H2 as [H2 | H2].
  - apply Z.eqb_neq in H2. lia.
  - apply Z.leb_gt in H2. lia.
Qed.

Lemma ranked_trans (a b c : Z * Z) : ranked a b -> ranked b c -> ranked a c.
Proof. unfold ranked. lia. Qed.

Lemma insert_ranked_perm (a : Z * Z) (l : list (Z * Z)) :
  Permutation (insert_ranked a l) (a :: l).
Proof.
  induction l as [|x l IH]; simpl; [reflexivity|].
  destruct (ranks_before a x); [reflexivity|].
  rewrite IH. apply perm_swap.
Qed.

Lemma rank_perm (l : list (Z * Z)) : Permutation (rank l) l.
Proof.
  induction l as [|x l IH]; simpl; [reflexivity|].
  rewrite insert_ranked_perm. by apply perm_skip.
Qed.

Lemma insert_ranked_sorted (a : Z * Z) (l : list (Z * Z)) :
  StronglySorted ranked l -> StronglySorted ranked (insert_ranked a l).
Proof.
  induction l as [|x l IH]; intros Hs; simpl.
  - repeat constructor.
  - apply StronglySorted_inv in Hs as [Hs Hall].
    destruct (ranks_before a x) eqn:Hax.
    + apply ranks_before_ranked in Hax. constructor.
      * by constructor.
      * constructor; [exact Hax|].
        rewrite List.Forall_forall in *. intros y Hy.
        apply (ranked_trans a x y Hax). by apply Hall.
    + apply ranks_before_false in Hax. constructor; [by apply IH|].
      rewrite List.Forall_forall in *. intros y Hy.
      apply (Permutation_in _ (insert_ranked_perm a l)) in Hy.
      destruct Hy as [<- | Hy]; [exact Hax | by apply Hall].
Qed.

Lemma rank_sorted (l : list (Z * Z)) : StronglySorted ranked (rank l).
Proof.
  induction l as [|x l IH]; simpl; [constructor | by apply insert_ranked_sorted].
Qed.

Lemma sorted_app_order {A} (R : A -> A -> Prop) (l1 l2 : list A) :
  StronglySorted R (l1 ++ l2) ->
  StronglySorted R l1 /\ forall a b, In a l1 -> In b l2 -> R a b.
Proof.
  induction l1 as [|x l1 IH]; simpl; intros Hs.
  - split; [constructor | intros a b []].
  - apply StronglySorted_inv in Hs as [Hs Hall]. destruct (IH Hs) as [Hs1 Hord].
    rewrite List.Forall_forall in Hall. split.
    + constructor; [exact Hs1|]. rewrite List.Forall_forall. intros y Hy.
      apply Hall, in_or_app. by left.
    + intros a b [<- | Ha] Hb; [|by apply Hord].
      apply Hall, in_or_app. by right.
Qed.

(** What [ORDER BY value DESC, user_id ASC LIMIT 5] gives on rows with
    distinct user ids: at most five of the rows, in rank order, without
    repetition, and every row left out ranks after every row given. *)
Lemma top_five (l : list (Z * Z)) :
  List.NoDup (map fst l) ->
  let rows := firstn 5 (rank l) in
  length rows = Nat.min 5 (length l)
  /\ StronglySorted ranked rows
  /\ List.NoDup (map fst rows)
  /\ (forall r, In r rows -> In r l)
  /\ (forall x, In x l -> In x rows \/ forall r, In r rows -> ranked r x)
  /\ (rows = [] <-> l = []).
Proof.
  intros Hnd rows.
  pose proof (rank_perm l) as Hperm. pose proof (rank_sorted l) as Hsorted.
  assert (Hsplit : rank l = rows ++ skipn 5 (rank l))
    by (symmetry; apply firstn_skipn).
  rewrite Hsplit in Hsorted. apply sorted_app_order in Hsorted as [Hs1 Hord].
  assert (Hlen : length rows = Nat.min 5 (length l)).
  { unfold rows. by rewrite length_firstn, (Permutation_length Hperm). }
  split; [exact Hlen|]. split; [exact Hs1|]. split; [|split; [|split]].
  - assert (List.NoDup (map fst (rank l))) as Hnd'.
    { apply (Permutation_NoDup (l := map fst l)); [|exact Hnd].
      symmetry. by apply Permutation_map. }
    rewrite Hsplit, map_app in Hnd'. by apply NoDup_app_remove_r in Hnd'.
  - intros r Hr. apply (Permutation_in _ Hperm). rewrite Hsplit.
    apply in_or_app. by left.
  - intros x Hx. apply (Permutation_in _ (Permutation_sym Hperm)) in Hx.
    rewrite Hsplit in Hx. apply in_app_or in Hx as [Hx | Hx]; [by left|].
    right. intros r Hr. by apply Hord.
  - split.
    + intros Hnil. rewrite Hnil in Hlen. simpl in Hlen.
      destruct l; [reflexivity | simpl in Hlen; lia].
    + intros ->. reflexivity.
Qed.

Lemma fmap_is_map {A B} (f : A -> B) (l : list A) : f <$> l = map f l.
Proof. induction l as [|x l IH]; [reflexivity|]. cbn. by f_equal. Qed.

(** X24. [fptop] reads only. It answers "No FP data found." exactly when
    the ledger is empty; otherwise it lists [min 5 n] of the [n] ledger
    entries, each listed user once and with the stored score, the larger
    score first and for equal scores the smaller user id first; and every
    entry it leaves out ranks after every entry it lists. *)
Theorem fptop_spec (s : store) :
  exists rows : list (Z * Z),
    fptop s = (Ok (match rows with [] => None | _ => Some rows end), s)
    /\ length rows = Nat.min 5 (size (user_fp s))
    /\ StronglySorted ranked rows
    /\ List.NoDup (map fst rows)
    /\ (forall u v, In (u, v) rows -> user_fp s !! u = Some v)
    /\ (forall u v, user_fp s !! u = Some v ->
          In (u, v) rows \/ forall r, In r rows -> ranked r (u, v))
    /\ (rows = [] <-> user_fp s = ∅).
Proof.
  assert (List.NoDup (map fst (map_to_list (user_fp s)))) as Hkeys.
  { rewrite <- fmap_is_map. apply NoDup_ListNoDup, NoDup_fst_map_to_list. }
  destruct (top_five (map_to_list (user_fp s)) Hkeys)
    as (Hlen & Hsorted & Hnd & Hin & Htop & Hnil).
  exists (firstn 5 (rank (map_to_list (user_fp s)))).
  split; [reflexivity|]. split; [by rewrite Hlen, length_map_to_list|].
  split; [exact Hsorted|]. split; [exact Hnd|]. split; [|split].
  - intros u v Hr. apply elem_of_map_to_list, list_elem_of_In. by apply Hin.
  - intros u v Hu. apply Htop. by apply list_elem_of_In, elem_of_map_to_list.
  - rewrite Hnil. split; [apply map_to_list_empty_iff | intros ->; apply map_to_list_empty].
Qed.

Lemma in_group_counts (rows : list wrow) (u n : Z) :
  In (u, n) (group_counts rows) <->
  where_user u rows <> [] /\ n = Z.of_nat (length (where_user u rows)).
Proof.
  unfold group_counts. rewrite in_map_iff. split.
  - intros (user & [= -> <-] & Hin). apply nodup_In, in_map_iff in Hin as (r & Hr & Hin).
    split; [|reflexivity]. intros Hnil.
    assert (In r (where_user u rows)) as Hr'.
    { unfold where_user. apply filter_In. split; [exact Hin|]. by apply Z.eqb_eq. }
    by rewrite Hnil in Hr'.
  - intros [Hne ->]. exists u. split; [reflexivity|]. apply nodup_In, in_map_iff.
    destruct (where_user u rows) as [|r l] eqn:Hw; [done|].
    assert (In r (where_user u rows)) as Hr by (rewrite Hw; by left).
    unfold where_user in Hr. apply filter_In in Hr as [Hin Hu]. apply Z.eqb_eq in Hu.
    by exists r.
Qed.

Lemma group_counts_users (rows : list wrow) :
  List.NoDup (map fst (group_counts rows)).
Proof.
  unfold group_counts. rewrite map_map. simpl. rewrite map_id. apply NoDup_nodup.
Qed.

(** X25. [warntop], on a warnings table with a [user_id] column, reads
    only. It answers "No warnings recorded." exactly when the table has no
    record; otherwise it lists at most five users, each once, with the
    number of that user's records (at least 1), the larger number first and
    for equal numbers the smaller user id first; and every user with a
    record who is left out ranks after every user listed. *)
Theorem warntop_spec (s : store) (t : wtable) :
  user_warnings s = Some t -> has_col "user_id" t = true ->
  exists rows : list (Z * Z),
    warntop s = (Ok (match rows with [] => None | _ => Some rows end), s)
    /\ (length rows <= 5)%nat
    /\ StronglySorted ranked rows
    /\ List.NoDup (map fst rows)
    /\ (forall u n, In (u, n) rows ->
          n = Z.of_nat (length (where_user u (wt_rows t))) /\ 1 <= n)
    /\ (forall u, where_user u (wt_rows t) <> [] ->
          let n := Z.of_nat (length (where_user u (wt_rows t))) in
          In (u, n) rows \/ forall r, In r rows -> ranked r (u, n))
    /\ (rows = [] <-> wt_rows t = []).
Proof.
  intros Hs Huser.
  destruct (top_five (group_counts (wt_rows t)) (group_counts_users _))
    as (Hlen & Hsorted & Hnd & Hin & Htop & Hnil).
  exists (firstn 5 (rank (group_counts (wt_rows t)))).
  split.
  { unfold warntop. run_connection. unfold select_top_warnings. rewrite Hs, Huser.
    reflexivity. }
  split; [rewrite Hlen; lia|]. split; [exact Hsorted|]. split; [exact Hnd|].
  split; [|split].
  - intros u n Hr. apply Hin, in_group_counts in Hr as [Hne ->]. split; [reflexivity|].
    destruct (where_user u (wt_rows t)); [done | simpl; lia].
  - intros u Hne n. apply Htop. by apply in_group_counts.
  - rewrite Hnil. unfold group_counts. split.
    + intros Hg. apply map_eq_nil in Hg.
      destruct (wt_rows t) as [|r l]; [reflexivity|]. exfalso.
      assert (In (w_user r) (nodup Z.eq_dec (map w_user (r :: l)))) as H
        by (apply nodup_In; by left).
      by rewrite Hg in H.
    + intros ->. reflexivity.
Qed.

Lemma warntop_spec_witness :
  let t := {| wt_cols := current_columns;
              wt_rows := [WRow 1 5 None (Some "a") (Some "d"); WRow 2 6 None (Some "b") (Some "d");
                          WRow 3 6 None (Some "c") (Some "d")];
              wt_seq := 3 |} in
  exists rows,
    warntop (Store ∅ (Some t) None) = (Ok (Some rows), Store ∅ (Some t) None)
    /\ rows = [(6, 2); (5, 1)].
Proof.
  intros t.
  destruct (warntop_spec (Store ∅ (Some t) None) t eq_refl eq_refl)
    as (rows & Hrun & _).
  assert (fst (warntop (Store ∅ (Some t) None)) = Ok (Some [(6, 2); (5, 1)])) as H
    by reflexivity.
  rewrite Hrun in H. simpl in H.
  destruct rows as [|r rows]; [discriminate|]. injection H as Hr Hrows.
  exists (r :: rows). split; [exact Hrun | by rewrite Hr, Hrows].
Defined.

(** ** Restarting *)

Lemma startup_without_legacy_column (today : string) (s : store) (t : wtable) :
  user_warnings s = Some t -> "warnings" ∉ table_info (Some t) ->
  startup today s = (Ok tt, s).
Proof.
  intros Hs Hcols. unfold startup, bind.
  assert (ensure_warning_schema s = (Ok tt, s)) as ->.
  { destruct s as [fp w scratch]. simpl in Hs. subst w. reflexivity. }
  unfold migrate_user_warnings_table, with_connection.
  rewrite migrate_body_current; [reflexivity|]. by rewrite Hs.
Qed.

Lemma startup_migrates (today : string) (s : store) (t : wtable) (c' : conn) :
  user_warnings s = Some t ->
  migrate_body today (connect s) = (Ok tt, c') ->
  startup today s = (Ok tt, durable c').
Proof.
  intros Hs Hrun. unfold startup, bind.
  assert (ensure_warning_schema s = (Ok tt, s)) as ->.
  { destruct s as [fp w scratch]. simpl in Hs. subst w. reflexivity. }
  unfold migrate_user_warnings_table, with_connection. by rewrite Hrun.
Qed.

(** X26. Start-up is stable. On a database without a leftover scratch
    table, whose warnings table (if any) has a [user_id] column, the
    start-up code succeeds, leaves the scores alone, leaves a table without
    the legacy [warnings] column exactly as it is, and a second start-up
    (on any later day) changes nothing more. *)
Theorem startup_is_stable (today later : string) (s : store) :
  _uw_new s = None ->
  (forall t, user_warnings s = Some t -> has_col "user_id" t = true) ->
  exists s',
    startup today s = (Ok tt, s')
    /\ startup later s' = (Ok tt, s')
    /\ user_fp s' = user_fp s
    /\ (forall t, user_warnings s = Some t -> "warnings" ∉ table_info (Some t) -> s' = s).
Proof.
  intros Hnew Huser. destruct (user_warnings s) as [t|] eqn:Hs.
  - specialize (Huser t eq_refl).
    destruct (decide ("warnings" ∈ table_info (Some t))) as [Hlegacy | Hcurrent].
    + assert (forall es,
                startup later (set_uw_new None (set_user_warnings (Some (filled_table es)) s))
                = (Ok tt, set_uw_new None (set_user_warnings (Some (filled_table es)) s)))
        as Hagain.
      { intros es. apply (startup_without_legacy_column _ _ (filled_table es)).
        - by destruct s.
        - decide_columns. }
      destruct (decide (({["reason"; "date"]} : gset string) ⊆ table_info (Some t)))
        as [Hsub | Hnot].
      * destruct (migrate_body_mixed today s t Hs Hnew Hlegacy Hsub Huser)
          as (c' & Hrun & Hd & _).
        exists (durable c'). split; [by apply (startup_migrates today s t)|].
        rewrite Hd. split; [apply Hagain|]. split; [by destruct s|].
        intros t0 [= <-] Hc. contradiction.
      * destruct (migrate_body_oldest today s t Hs Hnew Hlegacy Hnot Huser)
          as (c' & Hrun & Hd & _).
        exists (durable c'). split; [by apply (startup_migrates today s t)|].
        rewrite Hd. split; [apply Hagain|]. split; [by destruct s|].
        intros t0 [= <-] Hc. contradiction.
    + exists s. split; [by apply (startup_without_legacy_column _ _ t)|].
      split; [by apply (startup_without_legacy_column _ _ t)|]. split; [reflexivity|].
      reflexivity.
  - destruct s as [fp w scratch]. simpl in Hs, Hnew. subst w scratch.
    exists (Store fp (Some (empty_table minimal_columns)) None).
    split; [reflexivity|]. split; [|split; [reflexivity | discriminate]].
    apply (startup_without_legacy_column _ _ (empty_table minimal_columns)); [reflexivity|].
    decide_columns.
Qed.

Lemma startup_is_stable_witness :
  let legacy := {| wt_cols := [Column "user_id" false false; Column "warnings" true false];
                   wt_rows := [WRow 7 7 (Some 2) None None];
                   wt_seq := 0 |} in
  exists s',
    startup "2024-05-01" (Store ∅ (Some legacy) None) = (Ok tt, s')
    /\ startup "2024-05-02" s' = (Ok tt, s').
Proof.
  intros legacy.
  destruct (startup_is_stable "2024-05-01" "2024-05-02" (Store ∅ (Some legacy) None) eq_refl)
    as (s' & H1 & H2 & _).
  - intros t [= <-]. reflexivity.
  - exists s'. split; assumption.
Defined.
